(** * triqi: the map-interaction controller and its backend boundary

    A shallow embedding of the React component [MapContainer]
    (client/src/components/map-container.tsx, route-planning revision), of
    the Express handlers of server/routes.ts and of the schemas of
    shared/schema.ts, followed by the properties the specification states
    about them.

    Conventions of the embedding.
    - JavaScript numbers are rationals ([Q]): every finite double is one.
    - JavaScript strings are [string], holding the UTF-8 encoding of the
      text; template literals are concatenations.
    - The database and the schema library behind the routes are not part
      of the repository: what they do with a value is a parameter of the
      server's model ([store], [realRange]), with PostgreSQL's behaviour
      ([Server.postgres]) as the instance of the examples.
    - React state lives in a record [View].  A function of the component
      body is a closure over the state of the render that created it, so
      its model takes that captured [View] as an explicit argument [cap]
      and reads state from it; the setters write to the [view] of the
      [World].  The ref [map.current] is read live from the [World].
    - The map engine (Mapbox GL, reached through [map.current]) is a record
      of the registries the component touches, together with the trace of
      the calls made on the handle. *)

From Stdlib Require Import String Ascii List Bool Arith ZArith QArith Qround Qabs Lia Lqa.
From Stdlib Require Import Decimal DecimalString DecimalNat Sorted Permutation.
Import ListNotations.
Open Scope string_scope.

(** ** JavaScript primitives *)

Module Js.

(** [String(n)] for a non-negative integer: its decimal digits. *)
Definition ofNat (n : nat) : string := NilEmpty.string_of_uint (Nat.to_uint n).

Definition ofPos (z : Z) : string := NilEmpty.string_of_uint (N.to_uint (Z.to_N z)).

(** [s.startsWith(p)] *)
Definition startsWith (s p : string) : bool := String.prefix p s.

(** Strings hold the UTF-8 encoding of the JavaScript text.  The code
    points that [String.prototype.trim] strips are those of WhiteSpace and
    LineTerminator (ECMA-262): U+0009 to U+000D and U+0020, which take one
    byte; U+00A0, which takes two; U+1680, U+2000 to U+200A, U+2028,
    U+2029, U+202F, U+205F, U+3000 and U+FEFF, which take three. *)
Definition isWhiteSpace1 (a : ascii) : bool :=
  let n := nat_of_ascii a in
  (Nat.eqb n 9 || Nat.eqb n 10 || Nat.eqb n 11 || Nat.eqb n 12
   || Nat.eqb n 13 || Nat.eqb n 32)%bool.

Definition isWhiteSpace2 (a b : ascii) : bool :=
  (Nat.eqb (nat_of_ascii a) 194 && Nat.eqb (nat_of_ascii b) 160)%bool.

Definition isWhiteSpace3 (a b c : ascii) : bool :=
  let x := nat_of_ascii a in
  let y := nat_of_ascii b in
  let z := nat_of_ascii c in
  (Nat.eqb x 225 && Nat.eqb y 154 && Nat.eqb z 128
   || Nat.eqb x 226 && Nat.eqb y 128
      && (Nat.leb 128 z && Nat.leb z 138
          || Nat.eqb z 168 || Nat.eqb z 169 || Nat.eqb z 175)
   || Nat.eqb x 226 && Nat.eqb y 129 && Nat.eqb z 159
   || Nat.eqb x 227 && Nat.eqb y 128 && Nat.eqb z 128
   || Nat.eqb x 239 && Nat.eqb y 187 && Nat.eqb z 191)%bool.

Fixpoint trimStart (s : string) : string :=
  match s with
  | EmptyString => EmptyString
  | String a r1 =>
      if isWhiteSpace1 a then trimStart r1 else
      match r1 with
      | EmptyString => s
      | String b r2 =>
          if isWhiteSpace2 a b then trimStart r2 else
          match r2 with
          | EmptyString => s
          | String c r3 => if isWhiteSpace3 a b c then trimStart r3 else s
          end
      end
  end.

(** A string made of white space only (the empty string included). *)
Fixpoint blank (s : string) : bool :=
  match s with
  | EmptyString => true
  | String a r1 =>
      if isWhiteSpace1 a then blank r1 else
      match r1 with
      | EmptyString => false
      | String b r2 =>
          if isWhiteSpace2 a b then blank r2 else
          match r2 with
          | EmptyString => false
          | String c r3 => if isWhiteSpace3 a b c then blank r3 else false
          end
      end
  end.

(** The text up to the white space that ends it. *)
Fixpoint trimEnd (s : string) : string :=
  match s with
  | EmptyString => EmptyString
  | String a r => if blank s then EmptyString else String a (trimEnd r)
  end.

(** [s.trim()] *)
Definition trim (s : string) : string := trimEnd (trimStart s).

(** [s.length]: the number of UTF-16 code units of the text.  A code
    point encoded in one to three bytes is one code unit, one encoded in
    four bytes is a surrogate pair; continuation bytes count for nothing. *)
Definition codeUnits (a : ascii) : nat :=
  let n := nat_of_ascii a in
  if Nat.ltb n 128 then 1
  else if Nat.ltb n 192 then 0
  else if Nat.ltb n 240 then 1
  else 2.

Fixpoint length (s : string) : nat :=
  match s with
  | EmptyString => 0
  | String a r => codeUnits a + length r
  end.

(** A byte below 128 that is no white space of its own: it is part of
    no white space. *)
Definition solid (c : ascii) : bool :=
  Nat.ltb (nat_of_ascii c) 128 && negb (isWhiteSpace1 c).

(** Truthiness of a string: non-empty. *)
Definition truthy (s : string) : bool :=
  match s with EmptyString => false | _ => true end.

Fixpoint repeat0 (k : nat) : string :=
  match k with O => EmptyString | S k' => String "0"%char (repeat0 k') end.

(** The digits of [n] with a decimal point before the last [f] of them,
    padded with zeros on the left when there are too few. *)
Definition pointed (n : Z) (f : nat) : string :=
  let m := ofPos n in
  if Nat.eqb f 0 then m else
    let k := String.length m in
    let m := if Nat.leb k f then repeat0 (f + 1 - k) ++ m else m in
    let k := String.length m in
    substring 0 (k - f) m ++ "." ++ substring (k - f) f m.

(** [x.toFixed(f)] (ECMA-262, Number.prototype.toFixed) for a finite [x]
    below 10^21 in magnitude: [n] is the integer closest to [x * 10^f]
    (the larger one on a tie), printed with [f] digits after the point. *)
Definition toFixed (x : Q) (f : nat) : string :=
  let neg := match Qcompare x 0 with Lt => true | _ => false end in
  let ax := if neg then Qopp x else x in
  let n := Qfloor (ax * inject_Z (10 ^ Z.of_nat f) + (1 # 2)) in
  (if neg then "-" else EmptyString) ++ pointed n f.

End Js.

(** U+00A0 and U+3000. *)
Definition nbsp : string :=
  String (ascii_of_nat 194) (String (ascii_of_nat 160) EmptyString).

Definition ideographicSpace : string :=
  String (ascii_of_nat 227)
         (String (ascii_of_nat 128) (String (ascii_of_nat 128) EmptyString)).

(** ** Data of the component *)

(** [{lng, lat}] as the engine reports a click and as the state stores it. *)
Record LngLat := { lng : Q; lat : Q }.

(** A GeoJSON geometry, as far as the component inspects it: the
    [coordinates] member may be missing. *)
Record Geometry := { geometryType : string; coordinates : option (list (Q * Q)) }.

Record Bounds := { southwest : LngLat; northeast : LngLat }.

Record TransitDetails := { line : string; vehicle : string; stop : string }.

Record RouteStep := {
  instruction : string;
  stepDistance : option string;
  stepDuration : option string;
  transitDetails : option TransitDetails }.

(** An element of the array the client gets from POST /api/routes/search.
    The client types it [any]; [geometry] is the member the map drawing
    looks for. *)
Record Route := {
  duration : string;
  distance : string;
  steps : list RouteStep;
  bounds : option Bounds;
  geometry : option Geometry }.

(** An engine marker object ([new mapboxgl.Marker(...)]); [markerId] is the
    identity of the object. *)
Record Marker := {
  markerId : nat;
  color : string;
  lngLat : LngLat;
  popupHTML : string }.

(** A persisted marker as the client receives it ([interface Marker]). *)
Record MarkerData := {
  savedId : string;
  title : string;
  description : option string;
  latitude : Q;
  longitude : Q;
  savedColor : string;
  createdAt : string }.

(** [clickMode]: ['none'], ['start'], ['end']. *)
Inductive ClickMode := ModeNone | ModeStart | ModeEnd.

Definition ClickMode_eqb (a b : ClickMode) : bool :=
  match a, b with
  | ModeNone, ModeNone | ModeStart, ModeStart | ModeEnd, ModeEnd => true
  | _, _ => false
  end.

(** The [useState] cells that the route planning code reads or writes. *)
Record View := {
  showInfoPanel : bool;
  showRoutePanel : bool;
  startLocation : string;
  endLocation : string;
  routeResults : list Route;
  isLoadingRoute : bool;
  activeRouteHandlers : list string;
  clickMode : ClickMode;
  startCoords : option LngLat;
  endCoords : option LngLat;
  startMarker : option Marker;
  endMarker : option Marker }.

(** The initial values passed to [useState]. *)
Definition initialView : View :=
  {| showInfoPanel := false; showRoutePanel := false;
     startLocation := EmptyString; endLocation := EmptyString;
     routeResults := []; isLoadingRoute := false;
     activeRouteHandlers := []; clickMode := ModeNone;
     startCoords := None; endCoords := None;
     startMarker := None; endMarker := None |}.

(** ** The map engine behind [map.current] *)

Inductive MapEvent := click | mouseenter | mouseleave.

(** A function object [handleLocationClick]: one per render, closed over
    that render's state. *)
Record Listener := { render : nat; captured : View }.

(** The data of a GeoJSON source added for a route. *)
Record Source := {
  routeIndex : nat;
  sourceDuration : string;
  sourceDistance : string;
  sourceGeometry : Geometry }.

(** A style layer: its id, the source it draws from and, for a route
    layer, the line colour (the layout and the other paint members are the
    same for every route). *)
Record Layer := { id : string; source : string; lineColor : string }.

(** Calls made on the handle, in the order they are made. *)
Inductive Call :=
| CallOn (l : Listener)                       (* on('click', fn) *)
| CallOff (l : Listener)                      (* off('click', fn) *)
| CallOnLayer (ev : MapEvent) (layerId : string)   (* on(ev, layerId, fn) *)
| CallOffLayer (ev : MapEvent) (layerId : string)  (* off(ev, layerId) *)
| CallAddSource (sourceId : string)
| CallAddLayer (layerId : string)
| CallRemoveLayer (layerId : string)
| CallRemoveSource (sourceId : string)
| CallFitBounds (b : Bounds)
| CallFlyTo (center : LngLat) (zoom : Z).

Record MapboxMap := {
  layers : list Layer;                 (* getStyle().layers *)
  sources : list (string * Source);    (* getStyle().sources, in key order *)
  listeners : list Listener;           (* listeners of 'click' bound for picking *)
  layerHandlers : list (MapEvent * string);  (* listeners delegated to a layer *)
  markers : list Marker;               (* markers attached with addTo *)
  markerCount : nat;                   (* marker objects attached so far *)
  cursor : string;                     (* getCanvas().style.cursor *)
  calls : list Call }.

(** The methods of the engine that the component calls, as transitions of
    [MapboxMap]. *)
Module Mapbox.

Definition log (c : Call) (m : MapboxMap) : MapboxMap :=
  {| layers := layers m; sources := sources m; listeners := listeners m;
     layerHandlers := layerHandlers m;
     markers := markers m; markerCount := markerCount m; cursor := cursor m;
     calls := calls m ++ [c] |}.

Definition setLayers (ls : list Layer) (m : MapboxMap) : MapboxMap :=
  {| layers := ls; sources := sources m; listeners := listeners m;
     layerHandlers := layerHandlers m;
     markers := markers m; markerCount := markerCount m; cursor := cursor m;
     calls := calls m |}.

Definition setSources (ss : list (string * Source)) (m : MapboxMap) : MapboxMap :=
  {| layers := layers m; sources := ss; listeners := listeners m;
     layerHandlers := layerHandlers m;
     markers := markers m; markerCount := markerCount m; cursor := cursor m;
     calls := calls m |}.

Definition setListeners (hs : list Listener) (m : MapboxMap) : MapboxMap :=
  {| layers := layers m; sources := sources m; listeners := hs;
     layerHandlers := layerHandlers m;
     markers := markers m; markerCount := markerCount m; cursor := cursor m;
     calls := calls m |}.

Definition setMarkers (ms : list Marker) (n : nat) (m : MapboxMap) : MapboxMap :=
  {| layers := layers m; sources := sources m; listeners := listeners m;
     layerHandlers := layerHandlers m;
     markers := ms; markerCount := n; cursor := cursor m;
     calls := calls m |}.

(** [getCanvas().style.cursor = c] *)
Definition setCursor (c : string) (m : MapboxMap) : MapboxMap :=
  {| layers := layers m; sources := sources m; listeners := listeners m;
     layerHandlers := layerHandlers m;
     markers := markers m; markerCount := markerCount m; cursor := c;
     calls := calls m |}.

(** [getLayer(id)] and [getSource(id)], as the truth value the callers
    test. *)
Definition getLayer (i : string) (m : MapboxMap) : bool :=
  existsb (fun l => String.eqb (id l) i) (layers m).

Definition getSource (i : string) (m : MapboxMap) : bool :=
  existsb (fun s => String.eqb (fst s) i) (sources m).

(** [addSource(id, data)]; every caller has checked [getSource(id)]
    to be false. *)
Definition addSource (i : string) (d : Source) (m : MapboxMap) : MapboxMap :=
  log (CallAddSource i) (setSources (sources m ++ [(i, d)]) m).

(** [addLayer(layer)]; every caller has checked [getLayer(layer.id)] to
    be false and has just added the source. *)
Definition addLayer (l : Layer) (m : MapboxMap) : MapboxMap :=
  log (CallAddLayer (id l)) (setLayers (layers m ++ [l]) m).

Definition removeLayer (i : string) (m : MapboxMap) : MapboxMap :=
  log (CallRemoveLayer i)
      (setLayers (filter (fun l => negb (String.eqb (id l) i)) (layers m)) m).

(** [removeSource(id)]: the engine refuses, leaving the source in place,
    while a layer still draws from it. *)
Definition removeSource (i : string) (m : MapboxMap) : MapboxMap :=
  log (CallRemoveSource i)
      (if existsb (fun l => String.eqb (source l) i) (layers m) then m
       else setSources (filter (fun s => negb (String.eqb (fst s) i)) (sources m)) m).

Definition sameListener (a b : Listener) : bool := Nat.eqb (render a) (render b).

Fixpoint removeFirst (h : Listener) (hs : list Listener) : list Listener :=
  match hs with
  | [] => []
  | x :: r => if sameListener x h then r else x :: removeFirst h r
  end.

Definition setLayerHandlers (hs : list (MapEvent * string)) (m : MapboxMap) : MapboxMap :=
  {| layers := layers m; sources := sources m; listeners := listeners m;
     layerHandlers := hs;
     markers := markers m; markerCount := markerCount m; cursor := cursor m;
     calls := calls m |}.

(** [on('click', fn)] appends the listener, [off('click', fn)] removes
    one registration of that function object. *)
Definition on (h : Listener) (m : MapboxMap) : MapboxMap :=
  log (CallOn h) (setListeners (listeners m ++ [h]) m).

Definition off (h : Listener) (m : MapboxMap) : MapboxMap :=
  log (CallOff h) (setListeners (removeFirst h (listeners m)) m).

(** [on(ev, layerId, fn)] registers a listener delegated to a layer (the
    popup on click, the pointer cursor on hover).  The engine keeps such
    a listener until [off] is called with the same event, layer and
    function; removing the layer does not drop it. *)
Definition onLayer (ev : MapEvent) (i : string) (m : MapboxMap) : MapboxMap :=
  log (CallOnLayer ev i) (setLayerHandlers (layerHandlers m ++ [(ev, i)]) m).

(** [off(ev, layerId)], as the component calls it: without the listener
    to remove.  The engine finds no registration of the function it was
    given (none), so every delegated listener stays. *)
Definition offLayer (ev : MapEvent) (i : string) (m : MapboxMap) : MapboxMap :=
  log (CallOffLayer ev i) m.

Definition fitBounds (b : Bounds) (m : MapboxMap) : MapboxMap :=
  log (CallFitBounds b) m.

Definition flyTo (center : LngLat) (zoom : Z) (m : MapboxMap) : MapboxMap :=
  log (CallFlyTo center zoom) m.

(** [new LngLat(lng, lat)], which [setLngLat] builds from the pair it is
    given, throws for a latitude outside [-90, 90]. *)
Definition validLngLat (p : LngLat) : bool :=
  Qle_bool (- (90)) (lat p) && Qle_bool (lat p) 90.

(** [new mapboxgl.Marker({color}).setLngLat(p).setPopup(html).addTo(map)]
    for a point that [setLngLat] takes; [markerId] numbers the markers
    attached. *)
Definition newMarker (c : string) (p : LngLat) (html : string) (m : MapboxMap)
  : Marker * MapboxMap :=
  let mk := {| markerId := markerCount m; color := c; lngLat := p; popupHTML := html |} in
  (mk, setMarkers (markers m ++ [mk]) (S (markerCount m)) m).

(** [marker.remove()] *)
Definition removeMarker (mk : Marker) (m : MapboxMap) : MapboxMap :=
  setMarkers (filter (fun x => negb (Nat.eqb (markerId x) (markerId mk))) (markers m))
             (markerCount m) m.

End Mapbox.

(** ** The world the component runs in *)

(** The body of the POST to /api/routes/search. *)
Record SearchRequest := { reqStart : string; reqEnd : string; reqMode : string }.

(** How [await fetch(...)] followed by [await response.json()] turns out:
    the fetch rejects (network failure), or a response arrives with
    [response.ok] and a body that parses to an array of routes or fails to
    parse. *)
Inductive FetchResult :=
| FetchRejected
| FetchResponse (ok : bool) (body : option (list Route)).

Record World := {
  view : View;                        (* React state, with pending updates applied *)
  map_current : option MapboxMap;     (* the ref map.current *)
  console : list string;              (* console.warn and console.error lines *)
  fetched : list SearchRequest;       (* requests sent to the route-search boundary *)
  pending : option View;              (* closure of a searchBusRoutes awaiting its fetch *)
  renders : nat;                      (* renders so far *)
  effectMode : ClickMode;             (* clickMode at the last run of the [clickMode] effect *)
  effectHandler : Listener }.         (* handleLocationClick that run closed over *)

Definition updView (f : View -> View) (w : World) : World :=
  {| view := f (view w); map_current := map_current w; console := console w;
     fetched := fetched w; pending := pending w; renders := renders w;
     effectMode := effectMode w; effectHandler := effectHandler w |}.

Definition setMap (m : option MapboxMap) (w : World) : World :=
  {| view := view w; map_current := m; console := console w;
     fetched := fetched w; pending := pending w; renders := renders w;
     effectMode := effectMode w; effectHandler := effectHandler w |}.

(** Run engine calls on [map.current], which the caller knows to be set. *)
Definition onMap (f : MapboxMap -> MapboxMap) (w : World) : World :=
  match map_current w with
  | Some m => setMap (Some (f m)) w
  | None => w
  end.

Definition consoleLog (s : string) (w : World) : World :=
  {| view := view w; map_current := map_current w; console := console w ++ [s];
     fetched := fetched w; pending := pending w; renders := renders w;
     effectMode := effectMode w; effectHandler := effectHandler w |}.

Definition fetch (r : SearchRequest) (cap : View) (w : World) : World :=
  {| view := view w; map_current := map_current w; console := console w;
     fetched := fetched w ++ [r]; pending := Some cap; renders := renders w;
     effectMode := effectMode w; effectHandler := effectHandler w |}.

Definition settle (w : World) : World :=
  {| view := view w; map_current := map_current w; console := console w;
     fetched := fetched w; pending := None; renders := renders w;
     effectMode := effectMode w; effectHandler := effectHandler w |}.

Definition setEffect (n : nat) (c : ClickMode) (h : Listener) (w : World) : World :=
  {| view := view w; map_current := map_current w; console := console w;
     fetched := fetched w; pending := pending w; renders := n;
     effectMode := c; effectHandler := h |}.

(** The state setters. *)
Section Setters.
Variable v : View.

Definition setShowInfoPanel (x : bool) : View :=
  {| showInfoPanel := x; showRoutePanel := showRoutePanel v;
     startLocation := startLocation v; endLocation := endLocation v;
     routeResults := routeResults v; isLoadingRoute := isLoadingRoute v;
     activeRouteHandlers := activeRouteHandlers v; clickMode := clickMode v;
     startCoords := startCoords v; endCoords := endCoords v;
     startMarker := startMarker v; endMarker := endMarker v |}.

Definition setShowRoutePanel (x : bool) : View :=
  {| showInfoPanel := showInfoPanel v; showRoutePanel := x;
     startLocation := startLocation v; endLocation := endLocation v;
     routeResults := routeResults v; isLoadingRoute := isLoadingRoute v;
     activeRouteHandlers := activeRouteHandlers v; clickMode := clickMode v;
     startCoords := startCoords v; endCoords := endCoords v;
     startMarker := startMarker v; endMarker := endMarker v |}.

Definition setStartLocation (x : string) : View :=
  {| showInfoPanel := showInfoPanel v; showRoutePanel := showRoutePanel v;
     startLocation := x; endLocation := endLocation v;
     routeResults := routeResults v; isLoadingRoute := isLoadingRoute v;
     activeRouteHandlers := activeRouteHandlers v; clickMode := clickMode v;
     startCoords := startCoords v; endCoords := endCoords v;
     startMarker := startMarker v; endMarker := endMarker v |}.

Definition setEndLocation (x : string) : View :=
  {| showInfoPanel := showInfoPanel v; showRoutePanel := showRoutePanel v;
     startLocation := startLocation v; endLocation := x;
     routeResults := routeResults v; isLoadingRoute := isLoadingRoute v;
     activeRouteHandlers := activeRouteHandlers v; clickMode := clickMode v;
     startCoords := startCoords v; endCoords := endCoords v;
     startMarker := startMarker v; endMarker := endMarker v |}.

Definition setRouteResults (x : list Route) : View :=
  {| showInfoPanel := showInfoPanel v; showRoutePanel := showRoutePanel v;
     startLocation := startLocation v; endLocation := endLocation v;
     routeResults := x; isLoadingRoute := isLoadingRoute v;
     activeRouteHandlers := activeRouteHandlers v; clickMode := clickMode v;
     startCoords := startCoords v; endCoords := endCoords v;
     startMarker := startMarker v; endMarker := endMarker v |}.

Definition setIsLoadingRoute (x : bool) : View :=
  {| showInfoPanel := showInfoPanel v; showRoutePanel := showRoutePanel v;
     startLocation := startLocation v; endLocation := endLocation v;
     routeResults := routeResults v; isLoadingRoute := x;
     activeRouteHandlers := activeRouteHandlers v; clickMode := clickMode v;
     startCoords := startCoords v; endCoords := endCoords v;
     startMarker := startMarker v; endMarker := endMarker v |}.

Definition setActiveRouteHandlers (x : list string) : View :=
  {| showInfoPanel := showInfoPanel v; showRoutePanel := showRoutePanel v;
     startLocation := startLocation v; endLocation := endLocation v;
     routeResults := routeResults v; isLoadingRoute := isLoadingRoute v;
     activeRouteHandlers := x; clickMode := clickMode v;
     startCoords := startCoords v; endCoords := endCoords v;
     startMarker := startMarker v; endMarker := endMarker v |}.

Definition setClickMode (x : ClickMode) : View :=
  {| showInfoPanel := showInfoPanel v; showRoutePanel := showRoutePanel v;
     startLocation := startLocation v; endLocation := endLocation v;
     routeResults := routeResults v; isLoadingRoute := isLoadingRoute v;
     activeRouteHandlers := activeRouteHandlers v; clickMode := x;
     startCoords := startCoords v; endCoords := endCoords v;
     startMarker := startMarker v; endMarker := endMarker v |}.

Definition setStartCoords (x : option LngLat) : View :=
  {| showInfoPanel := showInfoPanel v; showRoutePanel := showRoutePanel v;
     startLocation := startLocation v; endLocation := endLocation v;
     routeResults := routeResults v; isLoadingRoute := isLoadingRoute v;
     activeRouteHandlers := activeRouteHandlers v; clickMode := clickMode v;
     startCoords := x; endCoords := endCoords v;
     startMarker := startMarker v; endMarker := endMarker v |}.

Definition setEndCoords (x : option LngLat) : View :=
  {| showInfoPanel := showInfoPanel v; showRoutePanel := showRoutePanel v;
     startLocation := startLocation v; endLocation := endLocation v;
     routeResults := routeResults v; isLoadingRoute := isLoadingRoute v;
     activeRouteHandlers := activeRouteHandlers v; clickMode := clickMode v;
     startCoords := startCoords v; endCoords := x;
     startMarker := startMarker v; endMarker := endMarker v |}.

Definition setStartMarker (x : option Marker) : View :=
  {| showInfoPanel := showInfoPanel v; showRoutePanel := showRoutePanel v;
     startLocation := startLocation v; endLocation := endLocation v;
     routeResults := routeResults v; isLoadingRoute := isLoadingRoute v;
     activeRouteHandlers := activeRouteHandlers v; clickMode := clickMode v;
     startCoords := startCoords v; endCoords := endCoords v;
     startMarker := x; endMarker := endMarker v |}.

Definition setEndMarker (x : option Marker) : View :=
  {| showInfoPanel := showInfoPanel v; showRoutePanel := showRoutePanel v;
     startLocation := startLocation v; endLocation := endLocation v;
     routeResults := routeResults v; isLoadingRoute := isLoadingRoute v;
     activeRouteHandlers := activeRouteHandlers v; clickMode := clickMode v;
     startCoords := startCoords v; endCoords := endCoords v;
     startMarker := startMarker v; endMarker := x |}.
End Setters.

(** [set x] as a step of the world; the functional form [set(prev => ...)]
    is [updView] itself. *)
Definition put {A} (setter : View -> A -> View) (x : A) : World -> World :=
  updView (fun v => setter v x).

(** ** The component's functions *)

(** A double-quoted HTML attribute value. *)
Definition quoted (s : string) : string :=
  String (ascii_of_nat 34) s ++ String (ascii_of_nat 34) EmptyString.

(** The text [`${coordinates.lat.toFixed(4)}, ${coordinates.lng.toFixed(4)}`]. *)
Definition coordsText (coordinates : LngLat) : string :=
  Js.toFixed (lat coordinates) 4 ++ ", " ++ Js.toFixed (lng coordinates) 4.

Definition pinPopup (tone title : string) (coordinates : LngLat) : string :=
  "<div class=" ++ quoted "p-2" ++ "><h4 class="
  ++ quoted ("font-semibold text-sm " ++ tone) ++ ">" ++ title
  ++ "</h4><p class=" ++ quoted "text-xs text-gray-600" ++ ">"
  ++ coordsText coordinates ++ "</p></div>".

Definition green : string := "#10b981".
Definition red : string := "#ef4444".

(** [marker.remove()] on a marker held in state. *)
Definition markerRemove (mk : Marker) : World -> World :=
  onMap (Mapbox.removeMarker mk).

Definition addStartMarker (cap : View) (coordinates : LngLat) (w : World) : World :=
  match map_current w with
  | None => w
  | Some _ =>
      let w := match startMarker cap with
               | Some mk => markerRemove mk w
               | None => w
               end in
      match map_current w with
      | None => w
      | Some m =>
          let '(marker, m) :=
            Mapbox.newMarker green
              {| lng := lng coordinates; lat := lat coordinates |}
              (pinPopup "text-green-600" "Start Location" coordinates) m in
          put setStartMarker (Some marker) (setMap (Some m) w)
      end
  end.

Definition addEndMarker (cap : View) (coordinates : LngLat) (w : World) : World :=
  match map_current w with
  | None => w
  | Some _ =>
      let w := match endMarker cap with
               | Some mk => markerRemove mk w
               | None => w
               end in
      match map_current w with
      | None => w
      | Some m =>
          let '(marker, m) :=
            Mapbox.newMarker red
              {| lng := lng coordinates; lat := lat coordinates |}
              (pinPopup "text-red-600" "End Location" coordinates) m in
          put setEndMarker (Some marker) (setMap (Some m) w)
      end
  end.

Definition clearLocationMarkers (cap : View) (w : World) : World :=
  let w := match startMarker cap with
           | Some mk => put setStartMarker None (markerRemove mk w)
           | None => w
           end in
  let w := match endMarker cap with
           | Some mk => put setEndMarker None (markerRemove mk w)
           | None => w
           end in
  let w := put setStartCoords None w in
  let w := put setEndCoords None w in
  let w := put setStartLocation EmptyString w in
  put setEndLocation EmptyString w.

(** The three loops of [clearRouteLayersFromMap], on the engine; each is
    a [forEach] whose body comes first. *)
Definition detachHandlersOf (m : MapboxMap) (layerId : string) : MapboxMap :=
  if Mapbox.getLayer layerId m then
    Mapbox.offLayer mouseleave layerId
      (Mapbox.offLayer mouseenter layerId
         (Mapbox.offLayer click layerId m))
  else m.

Definition detachRouteHandlers (tracked : list string) (m : MapboxMap) : MapboxMap :=
  fold_left detachHandlersOf tracked m.

Definition removeIfRouteLayer (m : MapboxMap) (layer : Layer) : MapboxMap :=
  if Js.truthy (id layer) && Js.startsWith (id layer) "route-layer-" then
    if Mapbox.getLayer (id layer) m then Mapbox.removeLayer (id layer) m else m
  else m.

Definition removeRouteLayers (styleLayers : list Layer) (m : MapboxMap) : MapboxMap :=
  fold_left removeIfRouteLayer styleLayers m.

Definition removeIfRouteSource (m : MapboxMap) (sourceId : string) : MapboxMap :=
  if Js.startsWith sourceId "route-" then
    if Mapbox.getSource sourceId m then Mapbox.removeSource sourceId m else m
  else m.

Definition removeRouteSources (sourceIds : list string) (m : MapboxMap) : MapboxMap :=
  fold_left removeIfRouteSource sourceIds m.

Definition clearRouteLayersFromMap (cap : View) (w : World) : World :=
  match map_current w with
  | None => w
  | Some m =>
      let m := detachRouteHandlers (activeRouteHandlers cap) m in
      let w := put setActiveRouteHandlers [] (setMap (Some m) w) in
      (* const style = map.current.getStyle(): a snapshot *)
      let styleLayers := layers m in
      let styleSources := sources m in
      let m := removeRouteLayers styleLayers m in
      let m := removeRouteSources (map fst styleSources) m in
      setMap (Some m) w
  end.

(** [route.geometry && route.geometry.coordinates] *)
Definition drawable (route : Route) : option Geometry :=
  match geometry route with
  | Some g => match coordinates g with Some _ => Some g | None => None end
  | None => None
  end.

Definition sourceIdOf (routeIndex : nat) : string := "route-" ++ Js.ofNat routeIndex.
Definition layerIdOf (routeIndex : nat) : string := "route-layer-" ++ Js.ofNat routeIndex.

Definition sourceOf (routeIndex : nat) (route : Route) (g : Geometry) : Source :=
  {| routeIndex := routeIndex; sourceDuration := duration route;
     sourceDistance := distance route; sourceGeometry := g |}.

Definition layerOf (routeIndex : nat) : Layer :=
  {| id := layerIdOf routeIndex; source := sourceIdOf routeIndex;
     lineColor := if Nat.eqb routeIndex 0 then "#2563eb" else "#7c3aed" |}.

(** The body of [routes.forEach((route, routeIndex) => ...)].  The loop
    runs after [displayRoutesOnMap] has found [map.current] set. *)
Definition displayRoute (w : World) (entry : nat * Route) : World :=
  let '(routeIndex, route) := entry in
  match drawable route, map_current w with
  | Some g, Some m =>
      let sourceId := sourceIdOf routeIndex in
      let layerId := layerIdOf routeIndex in
      let m := if negb (Mapbox.getSource sourceId m)
               then Mapbox.addSource sourceId (sourceOf routeIndex route g) m
               else m in
      if negb (Mapbox.getLayer layerId m) then
        let m := Mapbox.addLayer (layerOf routeIndex) m in
        let m := Mapbox.onLayer click layerId m in
        let m := Mapbox.onLayer mouseenter layerId m in
        let m := Mapbox.onLayer mouseleave layerId m in
        updView (fun prev => setActiveRouteHandlers prev (activeRouteHandlers prev ++ [layerId]))
                (setMap (Some m) w)
      else setMap (Some m) w
  | _, _ => w
  end.

Definition indexed {A} (l : list A) : list (nat * A) := combine (seq 0 (length l)) l.

Definition displayRoutesOnMap (cap : View) (routes : list Route) (w : World) : World :=
  match map_current w with
  | None => w
  | Some _ => fold_left displayRoute (indexed routes) (clearRouteLayersFromMap cap w)
  end.

(** [searchBusRoutes] up to its [await fetch(...)]: the request it sends,
    if any. *)
Definition searchBusRoutes_begin (cap : View) (w : World) : World :=
  if negb (Js.truthy (Js.trim (startLocation cap)))
     || negb (Js.truthy (Js.trim (endLocation cap)))
  then consoleLog "Please enter both start and end locations" w
  else
    let w := put setIsLoadingRoute true w in
    let w := put setRouteResults [] w in
    fetch {| reqStart := startLocation cap; reqEnd := endLocation cap;
             reqMode := "transit" |} cap w.

(** [searchBusRoutes] from the point where the fetch settles. *)
Definition searchBusRoutes_resume (cap : View) (res : FetchResult) (w : World) : World :=
  let w :=
    match res with
    | FetchResponse true (Some routes) =>
        let w := put setRouteResults routes w in
        match routes with
        | [] => w
        | first :: _ =>
            let w := displayRoutesOnMap cap routes w in
            match bounds first with
            | Some b => onMap (Mapbox.fitBounds b) w
            | None => w
            end
        end
    | FetchResponse true None => consoleLog "Route search error:" w
    | FetchResponse false _ => consoleLog "Failed to search routes" w
    | FetchRejected => consoleLog "Route search error:" w
    end in
  put setIsLoadingRoute false (settle w).

Definition handleLocationClick (cap : View) (coordinates : LngLat) (w : World) : World :=
  match clickMode cap with
  | ModeStart =>
      let w := put setStartCoords
                   (Some {| lng := lng coordinates; lat := lat coordinates |}) w in
      let w := put setStartLocation (coordsText coordinates) w in
      let w := addStartMarker cap coordinates w in
      put setClickMode ModeNone w
  | ModeEnd =>
      let w := put setEndCoords
                   (Some {| lng := lng coordinates; lat := lat coordinates |}) w in
      let w := put setEndLocation (coordsText coordinates) w in
      let w := addEndMarker cap coordinates w in
      put setClickMode ModeNone w
  | ModeNone => w
  end.

(** ** Effects, events and renders *)

Definition picking (c : ClickMode) : bool :=
  match c with ModeStart | ModeEnd => true | ModeNone => false end.

(** The body of [useEffect(..., [clickMode])] in the render whose
    [handleLocationClick] is [h]. *)
Definition clickModeEffect (h : Listener) (w : World) : World :=
  match map_current w with
  | None => w
  | Some m =>
      let m := Mapbox.setCursor
                 (if picking (clickMode (captured h)) then "crosshair" else EmptyString) m in
      let m := Mapbox.off h m in
      let m := if picking (clickMode (captured h)) then Mapbox.on h m else m in
      setMap (Some m) w
  end.

(** The cleanup function that run of the effect returned. *)
Definition clickModeCleanup (h : Listener) (w : World) : World :=
  onMap (Mapbox.off h) w.

(** A render after an event: when [clickMode] differs from the value the
    effect last ran with, React runs the old cleanup and then the effect of
    the new render. *)
Definition rerender (w : World) : World :=
  if ClickMode_eqb (clickMode (view w)) (effectMode w) then
    setEffect (S (renders w)) (effectMode w) (effectHandler w) w
  else
    let h := {| render := renders w; captured := view w |} in
    setEffect (S (renders w)) (clickMode (view w)) h
      (clickModeEffect h (clickModeCleanup (effectHandler w) w)).

Definition resetView : World -> World :=
  onMap (Mapbox.flyTo {| lng := - (6337 # 10000); lat := 356976 # 10000 |} 12).

(** The success callback of [handleGeolocation]. *)
Definition geolocated (position : LngLat) : World -> World :=
  onMap (Mapbox.flyTo {| lng := lng position; lat := lat position |} 15).

(** How the fetch of /api/markers and its [response.json()] turn out. *)
Inductive MarkersResult :=
| MarkersRejected
| MarkersResponse (ok : bool) (body : option (list MarkerData)).

Definition savedPopup (marker : MarkerData) : string :=
  "<h3>" ++ title marker ++ "</h3>"
  ++ match description marker with
     | Some d => if Js.truthy d then "<p>" ++ d ++ "</p>" else EmptyString
     | None => EmptyString
     end.

(** How a block of statements ends: normally, or by throwing.  Either
    way the world is the one reached by then. *)
Inductive Completion :=
| Normal (w : World)
| Abrupt (w : World).

Definition validRecord (marker : MarkerData) : bool :=
  Mapbox.validLngLat {| lng := longitude marker; lat := latitude marker |}.

(** The body of [markersData.forEach(marker => ...)]: nothing without a
    map; with one, [setLngLat] throws for a latitude out of range, before
    the marker is attached. *)
Definition showSavedMarker (w : World) (marker : MarkerData) : Completion :=
  match map_current w with
  | None => Normal w
  | Some m =>
      if validRecord marker then
        Normal (setMap (Some (snd (Mapbox.newMarker (savedColor marker)
                                     {| lng := longitude marker; lat := latitude marker |}
                                     (savedPopup marker) m))) w)
      else Abrupt w
  end.

(** [markersData.forEach(...)]: a throw ends the loop. *)
Fixpoint forEachSaved (markersData : list MarkerData) (w : World) : Completion :=
  match markersData with
  | [] => Normal w
  | marker :: rest =>
      match showSavedMarker w marker with
      | Normal w' => forEachSaved rest w'
      | Abrupt w' => Abrupt w'
      end
  end.

(** [loadMarkers], run when the map has loaded.  Its [catch] takes a
    rejected fetch, an unreadable body and a throw of the loop alike. *)
Definition loadMarkers (res : MarkersResult) (w : World) : World :=
  match res with
  | MarkersResponse true (Some markersData) =>
      match forEachSaved markersData w with
      | Normal w' => w'
      | Abrupt w' => consoleLog "Failed to load markers:" w'
      end
  | MarkersResponse true None => consoleLog "Failed to load markers:" w
  | MarkersResponse false _ => w
  | MarkersRejected => consoleLog "Failed to load markers:" w
  end.

(** [handleKeyDown], registered once by an effect without dependencies:
    [cap] is the state of the first render. *)
Definition handleKeyDown (cap : View) (key : string) (w : World) : World :=
  let w := if String.eqb key "Escape" then
             let w := put setShowInfoPanel false w in
             let w := put setShowRoutePanel false w in
             let w := clearRouteLayersFromMap cap w in
             let w := put setRouteResults [] w in
             put setClickMode ModeNone w
           else w in
  let w := if String.eqb key "i" || String.eqb key "I"
           then updView (fun prev => setShowInfoPanel prev (negb (showInfoPanel prev))) w
           else w in
  let w := if String.eqb key "b" || String.eqb key "B"
           then updView (fun prev => setShowRoutePanel prev (negb (showRoutePanel prev))) w
           else w in
  if String.eqb key "r" || String.eqb key "R" then resetView w else w.

(** The [onClick] of the two 'Set on map' buttons. *)
Definition onClickSetStart (cap : View) : World -> World :=
  put setClickMode (if ClickMode_eqb (clickMode cap) ModeStart then ModeNone else ModeStart).

Definition onClickSetEnd (cap : View) : World -> World :=
  put setClickMode (if ClickMode_eqb (clickMode cap) ModeEnd then ModeNone else ModeEnd).

(** The [onClick] of the clear button next to 'Find Routes'. *)
Definition onClickClear (cap : View) (w : World) : World :=
  let w := clearLocationMarkers cap w in
  let w := clearRouteLayersFromMap cap w in
  let w := put setRouteResults [] w in
  put setClickMode ModeNone w.

(** The [onClick] of the close button of the route panel. *)
Definition onClickCloseRoutePanel (cap : View) (w : World) : World :=
  let w := put setShowRoutePanel false w in
  let w := clearRouteLayersFromMap cap w in
  put setRouteResults [] w.

(** [disabled] of the 'Find Routes' button. *)
Definition findRoutesDisabled (v : View) : bool :=
  isLoadingRoute v
  || negb (Js.truthy (Js.trim (startLocation v)))
  || negb (Js.truthy (Js.trim (endLocation v))).

Inductive Event :=
| ClickRouteToggle
| ClickSetStart
| ClickSetEnd
| ChangeStart (value : string)
| ChangeEnd (value : string)
| ClickFindRoutes
| FetchSettles (res : FetchResult)
| ClickClear
| ClickCloseRoutePanel
| MapClick (coordinates : LngLat)
| KeyDown (key : string)
| ClickInfoToggle
| ClickCloseInfo
| ClickResetView
| Geolocated (position : LngLat)
| MapLoad (res : MarkersResult).

(** What the event's handler does.  Handlers attached to rendered elements
    are closures of the latest render; the controls of a panel exist
    while the panel is shown; a map click runs the picking listeners
    bound to the engine (the permanent listener that only logs the click
    is left out); key presses run the handler of the first render. *)
Definition dispatch (ev : Event) (w : World) : World :=
  let cap := view w in
  match ev with
  | ClickRouteToggle =>
      updView (fun prev => setShowRoutePanel prev (negb (showRoutePanel prev))) w
  | ClickSetStart => if showRoutePanel cap then onClickSetStart cap w else w
  | ClickSetEnd => if showRoutePanel cap then onClickSetEnd cap w else w
  | ChangeStart value => if showRoutePanel cap then put setStartLocation value w else w
  | ChangeEnd value => if showRoutePanel cap then put setEndLocation value w else w
  | ClickFindRoutes =>
      if showRoutePanel cap && negb (findRoutesDisabled cap)
      then searchBusRoutes_begin cap w else w
  | FetchSettles res =>
      match pending w with
      | Some cap' => searchBusRoutes_resume cap' res w
      | None => w
      end
  | ClickClear => if showRoutePanel cap then onClickClear cap w else w
  | ClickCloseRoutePanel => if showRoutePanel cap then onClickCloseRoutePanel cap w else w
  | MapClick coordinates =>
      match map_current w with
      | Some m =>
          fold_left (fun w h => handleLocationClick (captured h) coordinates w)
                    (listeners m) w
      | None => w
      end
  | KeyDown key => handleKeyDown initialView key w
  | ClickInfoToggle =>
      updView (fun prev => setShowInfoPanel prev (negb (showInfoPanel prev))) w
  | ClickCloseInfo => if showInfoPanel cap then put setShowInfoPanel false w else w
  | ClickResetView => resetView w
  | Geolocated position => geolocated position w
  | MapLoad res => loadMarkers res w
  end.

Definition step (w : World) (ev : Event) : World := rerender (dispatch ev w).

Definition run (evs : list Event) (w : World) : World := fold_left step evs w.

(** [new mapboxgl.Map({style, ...})]: the engine with the layers and
    sources of the style and nothing of the component's yet. *)
Definition newMap (styleLayers : list Layer) (styleSources : list (string * Source))
  : MapboxMap :=
  {| layers := styleLayers; sources := styleSources; listeners := [];
     layerHandlers := [];
     markers := []; markerCount := 0; cursor := EmptyString; calls := [] |}.

(** The component after its first render and first effects; [m] is [None]
    when the map could not be created. *)
Definition mount (m : option MapboxMap) : World :=
  let h := {| render := 0; captured := initialView |} in
  clickModeEffect h
    {| view := initialView; map_current := m; console := []; fetched := [];
       pending := None; renders := 1; effectMode := ModeNone; effectHandler := h |}.

(** ** The backend: shared/schema.ts and server/routes.ts *)

Module Server.

(** A parsed JSON request body. *)
#[local] Unset Elimination Schemes.
Inductive Json :=
| JNull
| JBool (b : bool)
| JNum (q : Q)
| JStr (s : string)
| JArr (items : list Json)
| JObj (members : list (string * Json)).
#[local] Set Elimination Schemes.

Definition member (key : string) (members : list (string * Json)) : option Json :=
  option_map snd (find (fun kv => String.eqb (fst kv) key) members).

(** *** Tables (drizzle) and the schemas derived from them (drizzle-zod) *)

Inductive ColumnKind :=
| PgText
| PgVarchar (length : option nat)
| PgReal
| PgTimestamp.

(** [literalDefault] is the value of [.default(...)] when that is a
    literal; the defaults of [id] and [createdAt] are expressions the
    database evaluates. *)
Record Column := {
  columnName : string;
  kind : ColumnKind;
  notNull : bool;
  hasDefault : bool;
  literalDefault : option Json }.

(** [pgTable("markers", {...})] *)
Definition markers : list (string * Column) :=
  [ ("id", {| columnName := "id"; kind := PgVarchar None;
              notNull := true; hasDefault := true; literalDefault := None |});
    ("title", {| columnName := "title"; kind := PgText;
                 notNull := true; hasDefault := false; literalDefault := None |});
    ("description", {| columnName := "description"; kind := PgText;
                       notNull := false; hasDefault := false; literalDefault := None |});
    ("latitude", {| columnName := "latitude"; kind := PgReal;
                    notNull := true; hasDefault := false; literalDefault := None |});
    ("longitude", {| columnName := "longitude"; kind := PgReal;
                     notNull := true; hasDefault := false; literalDefault := None |});
    ("color", {| columnName := "color"; kind := PgVarchar (Some 7%nat);
                 notNull := false; hasDefault := true;
                 literalDefault := Some (JStr "#3b82f6") |});
    ("createdAt", {| columnName := "created_at"; kind := PgTimestamp;
                     notNull := true; hasDefault := true; literalDefault := None |}) ].

Inductive ZodType :=
| ZString (max : option nat)
| ZNumber
| ZDate.

Record ZodField := { ztype : ZodType; optional : bool; nullable : bool }.

Definition Schema := list (string * ZodField).

Section DrizzleZod.

(** The range the schema library attaches to the number of a [real]
    column. It is a property of the library, not of this repository:
    [z.number()] alone in its early versions, the 24-bit integer
    bounds in later ones. *)
Variable realRange : Q -> bool.

(** What the database gives back for a value it is told to write to a
    column of a kind, or [None] when it refuses the value.  It is a
    property of PostgreSQL and of its driver, not of this repository: a
    [real] column keeps a single-precision number and has none for a
    number beyond its range.  [postgres] below is that function. *)
Variable store : ColumnKind -> Json -> option Json.

Definition columnSchema (c : Column) : ZodField :=
  {| ztype := match kind c with
              | PgText => ZString None
              | PgVarchar n => ZString n
              | PgReal => ZNumber
              | PgTimestamp => ZDate
              end;
     optional := negb (notNull c) || hasDefault c;
     nullable := negb (notNull c) |}.

Definition createInsertSchema (table : list (string * Column)) : Schema :=
  map (fun kc => (fst kc, columnSchema (snd kc))) table.

Definition omit (keys : list string) (s : Schema) : Schema :=
  filter (fun kf => negb (existsb (String.eqb (fst kf)) keys)) s.

(** [createInsertSchema(markers).omit({ id: true, createdAt: true })] *)
Definition insertMarkerSchema : Schema :=
  omit ["id"; "createdAt"] (createInsertSchema markers).

(** Whether a present member passes the field's type. *)
Definition accepts (f : ZodField) (v : Json) : bool :=
  match v, ztype f with
  | JNull, _ => nullable f
  | JStr s, ZString None => true
  | JStr s, ZString (Some n) => Nat.leb (Js.length s) n
  | JNum q, ZNumber => realRange q
  | _, _ => false
  end.

(** [schema.parse(body)]: the object reduced to the schema's keys, or
    [None] for a ZodError. *)
Fixpoint parseMembers (s : Schema) (members : list (string * Json))
  : option (list (string * Json)) :=
  match s with
  | [] => Some []
  | (key, f) :: rest =>
      match member key members with
      | None =>
          if optional f then parseMembers rest members else None
      | Some v =>
          if accepts f v then
            option_map (cons (key, v)) (parseMembers rest members)
          else None
      end
  end.

Definition parse (s : Schema) (body : Json) : option (list (string * Json)) :=
  match body with
  | JObj members => parseMembers s members
  | _ => None
  end.

(** *** Storage (DatabaseStorage over the markers table) *)

(** A row of [markers]: the id and the creation time the database gave
    it, and the values of its five other columns. *)
Record Row := {
  rowId : string;
  rowCreatedAt : nat;
  rowValues : list (string * Json) }.

(** The table, with the number of ids handed out ([gen_random_uuid()]
    gives a new one each time) and the time ([now()]).  A table is a set
    of rows: the order of [rows] is the one the database happens to keep
    them in and means nothing.  A new row is put first, so that a reader
    gets the order of creation from [ORDER BY] only. *)
Record Db := { rows : list Row; inserted : nat; clock : nat }.

(** The value a column takes from what a statement gives for it: the
    value as the database keeps it, NULL as it is where the column takes
    it, and for a column left out its default, which is NULL when none
    was declared. *)
Definition written (c : Column) (given : option Json) : option Json :=
  match given with
  | Some JNull => if notNull c then None else Some JNull
  | Some v => store (kind c) v
  | None =>
      match literalDefault c with
      | Some d => Some d
      | None => if notNull c then None else Some JNull
      end
  end.

(** The columns an insert of the routes writes: all but the two the
    database fills in. *)
Definition dataColumns : list (string * Column) :=
  filter (fun kc => negb (existsb (String.eqb (fst kc)) ["id"; "createdAt"])) markers.

Fixpoint insertValues (columns : list (string * Column))
         (insertMarker : list (string * Json)) : option (list (string * Json)) :=
  match columns with
  | [] => Some []
  | (key, c) :: rest =>
      match written c (member key insertMarker), insertValues rest insertMarker with
      | Some v, Some values => Some ((key, v) :: values)
      | _, _ => None
      end
  end.

(** [db.insert(markers).values(insertMarker).returning()]: the row
    gets its id and creation time from the database, and the statement
    fails ([None]) when the database refuses a value. *)
Definition createMarker (insertMarker : list (string * Json)) (db : Db)
  : option (Row * Db) :=
  match insertValues dataColumns insertMarker with
  | Some values =>
      let row := {| rowId := "marker-" ++ Js.ofNat (inserted db);
                    rowCreatedAt := clock db;
                    rowValues := values |} in
      Some (row, {| rows := row :: rows db; inserted := S (inserted db);
                    clock := S (clock db) |})
  | None => None
  end.

Inductive Reply :=
| ReplyMarker (status : nat) (marker : Row)
| ReplyError (status : nat) (error : string).

Definition status (r : Reply) : nat :=
  match r with ReplyMarker s _ => s | ReplyError s _ => s end.

(** [app.post("/api/markers", ...)] *)
Definition postMarkers (body : Json) (db : Db) : Reply * Db :=
  match parse insertMarkerSchema body with
  | Some markerData =>
      match createMarker markerData db with
      | Some (marker, db) => (ReplyMarker 201 marker, db)
      | None => (ReplyError 500 "Failed to create marker", db)
      end
  | None => (ReplyError 400 "Invalid marker data", db)
  end.

End DrizzleZod.

(** *** Route search *)

Record RouteSearchRequest := { start : string; end_ : string; mode : string }.

(** [routeSearchSchema.parse(req.body)] *)
Definition routeSearchSchema_parse (body : Json) : option RouteSearchRequest :=
  match body with
  | JObj members =>
      match member "start" members, member "end" members with
      | Some (JStr s), Some (JStr e) =>
          if Nat.leb 1 (String.length s) && Nat.leb 1 (String.length e) then
            match member "mode" members with
            | None => Some {| start := s; end_ := e; mode := "transit" |}
            | Some (JStr m) =>
                if existsb (String.eqb m) ["driving"; "walking"; "transit"; "bicycling"]
                then Some {| start := s; end_ := e; mode := m |}
                else None
            | Some _ => None
            end
          else None
      | _, _ => None
      end
  | _ => None
  end.

(** [RouteResult], the type inferred from [routeSchema]. *)
Record RouteResult := {
  resultDuration : string;
  resultDistance : string;
  resultSteps : list RouteStep;
  resultBounds : option Bounds }.

Definition walk (text dist dur : string) : RouteStep :=
  {| instruction := text; stepDistance := Some dist; stepDuration := Some dur;
     transitDetails := None |}.

Definition ride (text dist dur ln veh st : string) : RouteStep :=
  {| instruction := text; stepDistance := Some dist; stepDuration := Some dur;
     transitDetails := Some {| line := ln; vehicle := veh; stop := st |} |}.

Definition oranBounds : Bounds :=
  {| southwest := {| lat := 356900 # 10000; lng := - (6500 # 10000) |};
     northeast := {| lat := 357050 # 10000; lng := - (6200 # 10000) |} |}.

Definition mockRoutes (searchData : RouteSearchRequest) : list RouteResult :=
  [ {| resultDuration := "45 min";
       resultDistance := "12.5 km";
       resultSteps :=
         [ walk "Walk to Arrêt Université" "150m" "2 min";
           ride "Take Bus Line 12 towards Centre Ville" "8.2km" "25 min"
                "Line 12" "Bus" "Arrêt Place d'Armes";
           walk "Transfer to Bus Line 6" "50m" "1 min";
           ride ("Take Bus Line 6 towards " ++ end_ searchData) "3.8km" "15 min"
                "Line 6" "Bus" (end_ searchData);
           walk "Walk to destination" "200m" "2 min" ];
       resultBounds := Some oranBounds |};
    {| resultDuration := "52 min";
       resultDistance := "14.2 km";
       resultSteps :=
         [ walk "Walk to Arrêt Faculté" "200m" "3 min";
           ride "Take Tram Line 1 towards Senia" "10.5km" "30 min"
                "Line 1" "Tram" "Arrêt République";
           walk "Transfer to Bus Line 8" "100m" "2 min";
           ride ("Take Bus Line 8 towards " ++ end_ searchData) "3.5km" "15 min"
                "Line 8" "Bus" (end_ searchData);
           walk "Walk to destination" "150m" "2 min" ];
       resultBounds := Some oranBounds |} ].

Inductive SearchReply :=
| SearchOk (routes : list RouteResult)                 (* 200 *)
| SearchError (status : nat) (error : string).

(** [app.post("/api/routes/search", ...)] *)
Definition postRoutesSearch (body : Json) : SearchReply :=
  match routeSearchSchema_parse body with
  | Some searchData => SearchOk (mockRoutes searchData)
  | None => SearchError 400 "Invalid search data"
  end.

(** *** What PostgreSQL keeps *)

Definition pow (b e : Z) : Q :=
  if (0 <=? e)%Z then inject_Z (b ^ e) else / inject_Z (b ^ (- e)).

(** The largest [e] with [2^e <= a], and the largest with [10^e <= a],
    for a positive [a]. *)
Definition ilog2 (a : Q) : Z :=
  let e := (Z.log2 (Qnum a) - Z.log2 (Zpos (Qden a)))%Z in
  if Qle_bool (pow 2 e) a then e else (e - 1)%Z.

Definition ilog10 (a : Q) : Z :=
  let e := (ilog2 a * 30103 / 100000)%Z in
  if Qle_bool (pow 10 (e + 1)) a then (e + 1)%Z
  else if Qle_bool (pow 10 e) a then e
  else (e - 1)%Z.

Definition roundHalfEven (x : Q) : Z :=
  let f := Qfloor x in
  match Qcompare (x - inject_Z f) (1 # 2) with
  | Lt => f
  | Gt => (f + 1)%Z
  | Eq => if Z.even f then f else (f + 1)%Z
  end.

(** The binary floating-point number nearest to a positive [a], ties to
    even, with a significand of [p] bits and no exponent below [emin]
    (there the numbers are subnormal).  No upper end is applied. *)
Definition nearest (p emin : Z) (a : Q) : Q :=
  let e := Z.max (ilog2 a) emin in
  let ulp := pow 2 (e - p + 1) in
  Qred (inject_Z (roundHalfEven (a / ulp)) * ulp).

(** The decimal with the fewest digits that [nearest p emin] takes to the
    floating-point number [f], the closest to [f] when there are several:
    what JavaScript's [Number.prototype.toString] and PostgreSQL's output
    of a [real] print. *)
Fixpoint shortest (fuel : nat) (digits : Z) (p emin : Z) (f : Q) : Q :=
  match fuel with
  | O => f
  | S fuel' =>
      let step := pow 10 (ilog10 f - digits + 1) in
      let lo := Qfloor (f / step) in
      let below := inject_Z lo * step in
      let above := inject_Z (lo + 1) * step in
      let okBelow := (0 <? lo)%Z && Qeq_bool (nearest p emin below) f in
      let okAbove := Qeq_bool (nearest p emin above) f in
      if okBelow && okAbove then
        match Qcompare (f - below) (above - f) with
        | Lt => Qred below
        | Gt => Qred above
        | Eq => if Z.even lo then Qred below else Qred above
        end
      else if okBelow then Qred below
      else if okAbove then Qred above
      else shortest fuel' (digits + 1) p emin f
  end.

(** A JavaScript number is a double. *)
Definition double (a : Q) : Q := nearest 53 (-1022) a.

(** A number through a [real] column.  The driver sends the number as
    the text JavaScript prints for it; PostgreSQL reads that as the
    nearest single-precision number and refuses one that overflows or
    that rounds a non-zero text to zero; it gives the number back as the
    shortest text that identifies it, which the driver reads with
    [parseFloat]. *)
Definition real (q : Q) : option Q :=
  match Qcompare q 0 with
  | Eq => Some 0
  | c =>
      let text := shortest 17 1 53 (-1022) (Qabs q) in
      let f := nearest 24 (-126) text in
      if Qeq_bool f 0 || Qle_bool (pow 2 128) f then None
      else
        let back := double (shortest 9 1 24 (-126) f) in
        Some (match c with Lt => - back | _ => back end)
  end.

Definition continuation (a : ascii) : bool :=
  let n := nat_of_ascii a in Nat.leb 128 n && Nat.ltb n 192.

Fixpoint hasNul (s : string) : bool :=
  match s with
  | EmptyString => false
  | String a r => Nat.eqb (nat_of_ascii a) 0 || hasNul r
  end.

(** The first [n] characters of a text and what follows them. *)
Fixpoint splitAt (n : nat) (s : string) : string * string :=
  match s with
  | EmptyString => (EmptyString, EmptyString)
  | String a r =>
      if continuation a then
        let (h, t) := splitAt n r in (String a h, t)
      else
        match n with
        | O => (EmptyString, s)
        | S k => let (h, t) := splitAt k r in (String a h, t)
        end
  end.

Fixpoint spaces (s : string) : bool :=
  match s with
  | EmptyString => true
  | String a r => Nat.eqb (nat_of_ascii a) 32 && spaces r
  end.

(** A text through a [text] or [varchar] column: refused when it holds
    the character U+0000 or is longer than the column, unless what is
    too much is spaces, which are cut off. *)
Definition characters (n : option nat) (s : string) : option string :=
  if hasNul s then None else
    match n with
    | None => Some s
    | Some n => let (h, t) := splitAt n s in if spaces t then Some h else None
    end.

(** The values of the types the schemas let through to each kind of
    column. *)
Definition postgres (k : ColumnKind) (v : Json) : option Json :=
  match k, v with
  | PgText, JStr s => option_map JStr (characters None s)
  | PgVarchar n, JStr s => option_map JStr (characters n s)
  | PgReal, JNum q => option_map JNum (real q)
  | _, _ => None
  end.

(** Two numbers no [real] holds: 2^-160, which would round to zero, and
    2^130, which is too large. *)
Definition tiny : Q := 1 # 1461501637330902918203684832716283019655932542976.

Definition huge : Q := inject_Z 1361129467683753853853498429727072845824.

(** The two ranges the library has used for a [real] column. *)
Definition anyNumber (q : Q) : bool := true.

Definition int24 (q : Q) : bool :=
  Qle_bool (inject_Z (-8388608)) q && Qle_bool q (inject_Z 8388607).

End Server.

(** ** The client talking to this backend *)

(** [JSON.stringify({ start, end, mode })] as the server parses it. *)
Definition searchBody (r : SearchRequest) : Server.Json :=
  Server.JObj [ ("start", Server.JStr (reqStart r));
                ("end", Server.JStr (reqEnd r));
                ("mode", Server.JStr (reqMode r)) ].

(** What [response.json()] gives the client for a [RouteResult]: the
    members the server wrote; any other member, [geometry] among them,
    reads as undefined. *)
Definition received (r : Server.RouteResult) : Route :=
  {| duration := Server.resultDuration r;
     distance := Server.resultDistance r;
     steps := Server.resultSteps r;
     bounds := Server.resultBounds r;
     geometry := None |}.

(** The fetch of /api/routes/search answered by this repository's server. *)
Definition backend (r : SearchRequest) : FetchResult :=
  match Server.postRoutesSearch (searchBody r) with
  | Server.SearchOk routes => FetchResponse true (Some (map received routes))
  | Server.SearchError _ _ => FetchResponse false None
  end.

(** ** Observations used by the statements *)

Open Scope list_scope.

(** *** Worlds *)

(** The component mounted on a map created from a style, or without a
    map when none could be created. *)
Definition mounted (style : option (list Layer * list (string * Source))) : World :=
  mount (option_map (fun s => newMap (fst s) (snd s)) style).

(** What is on the map of a world; nothing when there is no map. *)
Definition onTheMap {A} (what : MapboxMap -> list A) (w : World) : list A :=
  match map_current w with
  | Some m => what m
  | None => []
  end.

(** *** Route overlays *)

(** The layers and sources that belong to route overlays, by the naming
    rule [clearRouteLayersFromMap] itself uses. *)
Definition isRouteLayerId (i : string) : bool :=
  Js.truthy i && Js.startsWith i "route-layer-".

Definition isRouteSourceId (i : string) : bool := Js.startsWith i "route-".

Definition isRouteLayer (l : Layer) : bool := isRouteLayerId (id l).

Definition isRouteSource (s : string * Source) : bool := isRouteSourceId (fst s).

Definition routeLayers (m : MapboxMap) : list Layer := filter isRouteLayer (layers m).

Definition routeSources (m : MapboxMap) : list (string * Source) :=
  filter isRouteSource (sources m).

(** A style in which only route layers draw from route sources, as is the
    case for a base style that uses neither name. *)
Definition styleOk (m : MapboxMap) : bool :=
  forallb (fun l => implb (isRouteSourceId (source l)) (isRouteLayer l)) (layers m).

(** The entries of the loop that carry a geometry with coordinates. *)
Definition drawnOf (entries : list (nat * Route)) : list (nat * Route * Geometry) :=
  flat_map (fun e => match drawable (snd e) with
                     | Some g => [(fst e, snd e, g)]
                     | None => []
                     end) entries.

(** The routes of a response that get drawn, with their indices. *)
Definition drawn (routes : list Route) : list (nat * Route * Geometry) :=
  drawnOf (indexed routes).

Definition indexOf (d : nat * Route * Geometry) : nat := fst (fst d).

Definition layerFor (d : nat * Route * Geometry) : Layer := layerOf (indexOf d).

Definition sourceFor (d : nat * Route * Geometry) : string * Source :=
  (sourceIdOf (indexOf d), sourceOf (indexOf d) (snd (fst d)) (snd d)).

(** The calls that draw one route. *)
Definition addCalls (d : nat * Route * Geometry) : list Call :=
  [CallAddSource (sourceIdOf (indexOf d)); CallAddLayer (layerIdOf (indexOf d));
   CallOnLayer click (layerIdOf (indexOf d));
   CallOnLayer mouseenter (layerIdOf (indexOf d));
   CallOnLayer mouseleave (layerIdOf (indexOf d))].

(** The calls [off(event, layerId)] made for one route layer. *)
Definition detachCalls (layerId : string) : list Call :=
  [CallOffLayer click layerId; CallOffLayer mouseenter layerId;
   CallOffLayer mouseleave layerId].

Definition isRemoveLayerCall (c : Call) : Prop :=
  match c with CallRemoveLayer _ => True | _ => False end.

Definition isRemoveSourceCall (c : Call) : Prop :=
  match c with CallRemoveSource _ => True | _ => False end.

(** [m'] differs from [m] at most in its trace. *)
Definition onlyCalls (m m' : MapboxMap) : Prop :=
  layers m' = layers m /\ sources m' = sources m /\ listeners m' = listeners m
  /\ layerHandlers m' = layerHandlers m
  /\ markers m' = markers m /\ markerCount m' = markerCount m /\ cursor m' = cursor m.

(** The state update [setActiveRouteHandlers(prev => [...prev, layerId])],
    once per drawn route. *)
Definition track (ids : list string) (w : World) : World :=
  updView (fun prev => setActiveRouteHandlers prev (activeRouteHandlers prev ++ ids)) w.

(** A search outcome that is a failure or an empty result. *)
Definition failedOrEmpty (res : FetchResult) : bool :=
  match res with
  | FetchResponse true (Some (_ :: _)) => false
  | _ => true
  end.

(** *** Picking *)

Inductive Endpoint := StartPoint | EndPoint.

Definition pickingMode (k : Endpoint) : ClickMode :=
  match k with StartPoint => ModeStart | EndPoint => ModeEnd end.

Definition onClickSet (k : Endpoint) : View -> World -> World :=
  match k with StartPoint => onClickSetStart | EndPoint => onClickSetEnd end.

Definition ClickSet (k : Endpoint) : Event :=
  match k with StartPoint => ClickSetStart | EndPoint => ClickSetEnd end.

(** The effect of one call on the picking listeners bound to the engine. *)
Definition bind (hs : list Listener) (c : Call) : list Listener :=
  match c with
  | CallOn h => hs ++ [h]
  | CallOff h => Mapbox.removeFirst h hs
  | _ => hs
  end.

(** The picking listeners bound after a sequence of calls on the handle. *)
Definition boundAfter (cs : list Call) : list Listener := fold_left bind cs [].

(** At every point of the trace at most one picking listener is bound. *)
Definition atMostOne (cs : list Call) : Prop :=
  forall p q, cs = p ++ q -> (length (boundAfter p) <= 1)%nat.

(** A call that neither binds nor unbinds a picking listener. *)
Definition quietCall (c : Call) : Prop :=
  match c with
  | CallOn _ | CallOff _ => False
  | _ => True
  end.

(** [m'] has the picking listeners of [m] and a trace that extends the
    one of [m] by quiet calls. *)
Definition quietMap (m m' : MapboxMap) : Prop :=
  listeners m' = listeners m
  /\ exists extra, calls m' = calls m ++ extra /\ Forall quietCall extra.

(** The same for worlds; the effect's bookkeeping is untouched too. *)
Definition Quiet (w w' : World) : Prop :=
  effectMode w' = effectMode w
  /\ effectHandler w' = effectHandler w
  /\ renders w' = renders w
  /\ match map_current w, map_current w' with
     | Some m, Some m' => quietMap m m'
     | None, None => True
     | _, _ => False
     end.

(** The handler of the render that [rerender] performs. *)
Definition handlerOf (w : World) : Listener :=
  {| render := renders w; captured := view w |}.

(** The calls of one run of cleanup and effect. *)
Definition effectCalls (old h : Listener) : list Call :=
  [CallOff old; CallOff h] ++ (if picking (clickMode (captured h)) then [CallOn h] else []).

(** The state between two events: the effect has run for the current
    mode, and what is bound on the map is what its last run left. *)
Definition settled (w : World) : Prop :=
  effectMode w = clickMode (view w)
  /\ clickMode (captured (effectHandler w)) = effectMode w
  /\ forall m, map_current w = Some m ->
               listeners m = (if picking (effectMode w) then [effectHandler w] else [])
               /\ listeners m = boundAfter (calls m)
               /\ atMostOne (calls m).

(** The markers left on the map once a marker held in state is removed. *)
Definition without (old : option Marker) (ms : list Marker) : list Marker :=
  match old with
  | Some mk => filter (fun x => negb (Nat.eqb (markerId x) (markerId mk))) ms
  | None => ms
  end.

(** The marker that [addStartMarker] creates on [m]. *)
Definition startPin (m : MapboxMap) (coordinates : LngLat) : Marker :=
  {| markerId := markerCount m; color := green;
     lngLat := {| lng := lng coordinates; lat := lat coordinates |};
     popupHTML := pinPopup "text-green-600" "Start Location" coordinates |}.

(** Every latitude that rounds to 35.7000 and every longitude that rounds
    to -0.6300, the doubles written 35.70 and -0.63 among them. *)
Definition near_35_70 (x : Q) : Prop := 3569995 # 100000 <= x /\ x < 3570005 # 100000.

Definition near_minus_0_63 (x : Q) : Prop :=
  - (63005 # 100000) < x /\ x <= - (62995 # 100000).

(** *** Marker requests *)

(** A coordinate member that the schema lets through: present, a number,
    and within the range the library gives a [real] column. *)
Definition coordinateOk (realRange : Q -> bool) (v : option Server.Json) : bool :=
  match v with
  | Some (Server.JNum q) => realRange q
  | _ => false
  end.

(** *** Sample states *)

(** A route with a geometry and one without. *)
Definition sampleRoute : Route :=
  {| duration := "45 min"; distance := "12.5 km"; steps := []; bounds := None;
     geometry := Some {| geometryType := "LineString";
                         coordinates := Some [(- (63 # 100), 357 # 10)] |} |}.

Definition bareRoute : Route :=
  {| duration := "52 min"; distance := "14.2 km"; steps := []; bounds := None;
     geometry := None |}.

(** A live map with a base style of two layers over one source. *)
Definition baseMap : MapboxMap :=
  newMap [ {| id := "land"; source := "composite"; lineColor := "#e5e7eb" |};
           {| id := "road"; source := "composite"; lineColor := "#9ca3af" |} ]
         [ ("composite", {| routeIndex := 0; sourceDuration := EmptyString;
                            sourceDistance := EmptyString;
                            sourceGeometry := {| geometryType := "vector";
                                                 coordinates := None |} |}) ].

(** A state with one stored result and its overlay on the map. *)
Definition afterOneSearch : World :=
  run [ClickRouteToggle; ChangeStart "A"; ChangeEnd "B"; ClickFindRoutes;
       FetchSettles (FetchResponse true (Some [sampleRoute]))]
      (mount (Some (newMap [] []))).

(** A state with a picked start endpoint. *)
Definition afterPickingStart : World :=
  run [ClickRouteToggle; ClickSetStart;
       MapClick {| lng := - (63 # 100); lat := 357 # 10 |}]
      (mount (Some (newMap [] []))).

(** The doubles that the literals 35.70 and -0.63 denote. *)
Definition scenarioClick : LngLat :=
  {| lng := - (5674535530486825 # 9007199254740992);
     lat := 2512164167142605 # 70368744177664 |}.

(** ** The backend: the other marker routes and their storage *)

Module Crud.

(** What a storage call resolves to, or that it rejects. *)
Inductive Outcome (A : Type) :=
| Done (a : A)
| Thrown.

Arguments Done {A} a.
Arguments Thrown {A}.

(** [.orderBy(markers.createdAt)]: the rows by ascending creation time. *)
Fixpoint insertByCreatedAt (r : Server.Row) (rs : list Server.Row) : list Server.Row :=
  match rs with
  | [] => [r]
  | x :: rest =>
      if Nat.leb (Server.rowCreatedAt r) (Server.rowCreatedAt x) then r :: x :: rest
      else x :: insertByCreatedAt r rest
  end.

Definition orderByCreatedAt (rs : list Server.Row) : list Server.Row :=
  fold_right insertByCreatedAt [] rs.

(** [storage.getMarkers()] *)
Definition getMarkers (db : Server.Db) : list Server.Row :=
  orderByCreatedAt (Server.rows db).

(** [storage.getMarker(id)]: the first row of the selection, if any. *)
Definition getMarker (i : string) (db : Server.Db) : option Server.Row :=
  find (fun r => String.eqb (Server.rowId r) i) (Server.rows db).

(** [SET column = value] on the values of a row. *)
Fixpoint assign (key : string) (v : Server.Json) (values : list (string * Server.Json))
  : list (string * Server.Json) :=
  match values with
  | [] => [(key, v)]
  | (k, x) :: rest =>
      if String.eqb k key then (k, v) :: rest else (k, x) :: assign key v rest
  end.

Definition setValues (updateData : list (string * Server.Json)) (r : Server.Row)
  : Server.Row :=
  {| Server.rowId := Server.rowId r;
     Server.rowCreatedAt := Server.rowCreatedAt r;
     Server.rowValues :=
       fold_left (fun values kv => assign (fst kv) (snd kv) values) updateData
                 (Server.rowValues r) |}.

Definition withRows (rs : list Server.Row) (db : Server.Db) : Server.Db :=
  {| Server.rows := rs; Server.inserted := Server.inserted db;
     Server.clock := Server.clock db |}.

Section Storing.

Variable store : Server.ColumnKind -> Server.Json -> option Server.Json.

(** The values of [SET ...] as the database keeps them; [None] when it
    refuses one. *)
Fixpoint updateValues (updateData : list (string * Server.Json))
  : option (list (string * Server.Json)) :=
  match updateData with
  | [] => Some []
  | (key, v) :: rest =>
      match find (fun kc => String.eqb (fst kc) key) Server.markers with
      | Some (_, c) =>
          match Server.written store c (Some v), updateValues rest with
          | Some x, Some values => Some ((key, x) :: values)
          | _, _ => None
          end
      | None => None
      end
  end.

(** [storage.updateMarker(id, updateData)]: the rows with that id get the
    given values and the first of them is returned.  An update with
    nothing to set is not a statement the database takes, and a value it
    refuses fails the statement whether or not a row has the id: the
    call rejects. *)
Definition updateMarker (i : string) (updateData : list (string * Server.Json))
           (db : Server.Db) : Outcome (option Server.Row * Server.Db) :=
  match updateData with
  | [] => Thrown
  | _ =>
      match updateValues updateData with
      | None => Thrown
      | Some values =>
          let hit r := String.eqb (Server.rowId r) i in
          Done (option_map (setValues values) (find hit (Server.rows db)),
                withRows (map (fun r => if hit r then setValues values r else r)
                              (Server.rows db)) db)
      end
  end.

End Storing.

(** [storage.deleteMarker(id)]: whether a row was deleted. *)
Definition deleteMarker (i : string) (db : Server.Db) : bool * Server.Db :=
  let hit r := String.eqb (Server.rowId r) i in
  (Nat.ltb 0 (length (filter hit (Server.rows db))),
   withRows (filter (fun r => negb (hit r)) (Server.rows db)) db).

(** [schema.partial()]: every key may be missing. *)
Definition partial (s : Server.Schema) : Server.Schema :=
  map (fun kf => (fst kf, {| Server.ztype := Server.ztype (snd kf);
                             Server.optional := true;
                             Server.nullable := Server.nullable (snd kf) |})) s.

Inductive Answer :=
| AnswerMarkers (status : nat) (markers : list Server.Row)
| AnswerMarker (status : nat) (marker : Server.Row)
| AnswerEmpty (status : nat)
| AnswerError (status : nat) (error : string).

Definition statusOf (a : Answer) : nat :=
  match a with
  | AnswerMarkers s _ | AnswerMarker s _ | AnswerEmpty s | AnswerError s _ => s
  end.

(** [app.get("/api/markers", ...)] *)
Definition getApiMarkers (db : Server.Db) : Answer := AnswerMarkers 200 (getMarkers db).

(** [app.get("/api/markers/:id", ...)] *)
Definition getApiMarker (i : string) (db : Server.Db) : Answer :=
  match getMarker i db with
  | None => AnswerError 404 "Marker not found"
  | Some marker => AnswerMarker 200 marker
  end.

Section Validated.

Variable realRange : Q -> bool.
Variable store : Server.ColumnKind -> Server.Json -> option Server.Json.

(** [app.post("/api/markers", ...)], as an [Answer]. *)
Definition postApiMarkers (body : Server.Json) (db : Server.Db) : Answer * Server.Db :=
  match Server.postMarkers realRange store body db with
  | (Server.ReplyMarker s marker, db) => (AnswerMarker s marker, db)
  | (Server.ReplyError s e, db) => (AnswerError s e, db)
  end.

(** [app.put("/api/markers/:id", ...)] *)
Definition putApiMarker (i : string) (body : Server.Json) (db : Server.Db)
  : Answer * Server.Db :=
  match Server.parse realRange (partial Server.insertMarkerSchema) body with
  | None => (AnswerError 400 "Invalid marker data", db)
  | Some updateData =>
      match updateMarker store i updateData db with
      | Thrown => (AnswerError 500 "Failed to update marker", db)
      | Done (None, db) => (AnswerError 404 "Marker not found", db)
      | Done (Some marker, db) => (AnswerMarker 200 marker, db)
      end
  end.

(** [app.delete("/api/markers/:id", ...)] *)
Definition deleteApiMarker (i : string) (db : Server.Db) : Answer * Server.Db :=
  let '(deleted, db) := deleteMarker i db in
  if deleted then (AnswerEmpty 204, db) else (AnswerError 404 "Marker not found", db).

(** A request to one of the marker routes. *)
Inductive Request :=
| GetMarkers
| GetMarker (i : string)
| PostMarker (body : Server.Json)
| PutMarker (i : string) (body : Server.Json)
| DeleteMarker (i : string).

Definition serve (db : Server.Db) (r : Request) : Answer * Server.Db :=
  match r with
  | GetMarkers => (getApiMarkers db, db)
  | GetMarker i => (getApiMarker i db, db)
  | PostMarker body => postApiMarkers body db
  | PutMarker i body => putApiMarker i body db
  | DeleteMarker i => deleteApiMarker i db
  end.

(** The database after a sequence of requests. *)
Definition after (requests : list Request) (db : Server.Db) : Server.Db :=
  fold_left (fun db r => snd (serve db r)) requests db.

End Validated.

(** The empty markers table. *)
Definition emptyDb : Server.Db :=
  {| Server.rows := []; Server.inserted := 0; Server.clock := 0 |}.

(** A table as the routes leave it, in whatever order it keeps its rows:
    the ids are ones the database has handed out, each once, and the
    creation times are in the past. *)
Definition handedOut (db : Server.Db) (r : Server.Row) : Prop :=
  exists k, (k < Server.inserted db)%nat
            /\ Server.rowId r = ("marker-" ++ Js.ofNat k)%string.

Definition dbOk (db : Server.Db) : Prop :=
  Forall (handedOut db) (Server.rows db)
  /\ NoDup (map Server.rowId (Server.rows db))
  /\ Forall (fun r => (Server.rowCreatedAt r < Server.clock db)%nat) (Server.rows db).

(** Ascending creation times. *)
Definition byCreatedAt (a b : Server.Row) : Prop :=
  (Server.rowCreatedAt a <= Server.rowCreatedAt b)%nat.

End Crud.

(** [createInsertSchema(users).pick({ username: true, password: true })] *)
Definition users : list (string * Server.Column) :=
  [ ("id", {| Server.columnName := "id"; Server.kind := Server.PgVarchar None;
              Server.notNull := true; Server.hasDefault := true;
              Server.literalDefault := None |});
    ("username", {| Server.columnName := "username"; Server.kind := Server.PgText;
                    Server.notNull := true; Server.hasDefault := false;
                    Server.literalDefault := None |});
    ("password", {| Server.columnName := "password"; Server.kind := Server.PgText;
                    Server.notNull := true; Server.hasDefault := false;
                    Server.literalDefault := None |}) ].

Definition pick (keys : list string) (s : Server.Schema) : Server.Schema :=
  filter (fun kf => existsb (String.eqb (fst kf)) keys) s.

Definition insertUserSchema : Server.Schema :=
  pick ["username"; "password"] (Server.createInsertSchema users).

(** Two request bodies, and the table after they were posted to an empty
    one, with PostgreSQL behind the routes. *)
Definition port : Server.Json :=
  Server.JObj [("title", Server.JStr "Port"); ("latitude", Server.JNum (71 # 2));
               ("longitude", Server.JNum (- (3 # 4)))].

Definition pier : Server.Json :=
  Server.JObj [("title", Server.JStr "Pier"); ("description", Server.JStr "East");
               ("latitude", Server.JNum (143 # 4)); ("longitude", Server.JNum (- (1 # 2)));
               ("color", Server.JStr "#ff0000")].

Definition twoMarkers : Server.Db :=
  Crud.after Server.anyNumber Server.postgres
             [Crud.PostMarker port; Crud.PostMarker pier] Crud.emptyDb.

(** A column of [markers] by what the table says of it. *)
Definition columnOf (key : string) (k : Server.ColumnKind) (nn : bool) (d : option Server.Json)
  : Server.Column :=
  {| Server.columnName := key; Server.kind := k; Server.notNull := nn;
     Server.hasDefault := match d with Some _ => true | None => false end;
     Server.literalDefault := d |}.

(** ** Observations on reachable states *)

Definition optlist {A} (o : option A) : list A :=
  match o with Some a => [a] | None => [] end.

(** The marker that [addEndMarker] creates on [m]. *)
Definition endPin (m : MapboxMap) (coordinates : LngLat) : Marker :=
  {| markerId := markerCount m; color := red;
     lngLat := {| lng := lng coordinates; lat := lat coordinates |};
     popupHTML := pinPopup "text-red-600" "End Location" coordinates |}.

(** The accessors and setters of the two endpoints. *)
Definition coordsOf (k : Endpoint) : View -> option LngLat :=
  match k with StartPoint => startCoords | EndPoint => endCoords end.

Definition locationOf (k : Endpoint) : View -> string :=
  match k with StartPoint => startLocation | EndPoint => endLocation end.

Definition markerOf (k : Endpoint) : View -> option Marker :=
  match k with StartPoint => startMarker | EndPoint => endMarker end.

Definition pinOf (k : Endpoint) : MapboxMap -> LngLat -> Marker :=
  match k with StartPoint => startPin | EndPoint => endPin end.

Definition other (k : Endpoint) : Endpoint :=
  match k with StartPoint => EndPoint | EndPoint => StartPoint end.

(** An endpoint pin is told from a saved marker by its popup (the card
    of [addStartMarker] and [addEndMarker] against the heading of
    [loadMarkers]), the start pin from the end pin by its colour. *)
Definition isPin (mk : Marker) : bool := Js.startsWith (popupHTML mk) "<div class=".

Definition isPinOf (k : Endpoint) (mk : Marker) : bool :=
  isPin mk && String.eqb (color mk) (match k with StartPoint => green | EndPoint => red end).

(** The marker [loadMarkers] puts on the map for a saved record, as the
    [n]-th marker object created. *)
Definition savedMarker (n : nat) (d : MarkerData) : Marker :=
  {| markerId := n; color := savedColor d;
     lngLat := {| lng := longitude d; lat := latitude d |};
     popupHTML := savedPopup d |}.

Fixpoint savedMarkers (n : nat) (ds : list MarkerData) : list Marker :=
  match ds with
  | [] => []
  | d :: rest => savedMarker n d :: savedMarkers (S n) rest
  end.

(** What the endpoint markers of a state are about: the markers on the
    map with the count of marker objects, and the two the state holds. *)
Definition pinState (w : World)
  : option (list Marker * nat) * option Marker * option Marker :=
  (option_map (fun m => (markers m, markerCount m)) (map_current w),
   startMarker (view w), endMarker (view w)).

(** The endpoint markers are in order: marker objects are distinct, the
    pins on the map are the ones the state holds (none without a map),
    and a bound picking handler closes over those same markers. *)
Definition pinsOk (ps : option (list Marker * nat) * option Marker * option Marker) : Prop :=
  match fst (fst ps) with
  | Some (ms, n) =>
      NoDup (map markerId ms)
      /\ Forall (fun mk => (markerId mk < n)%nat) ms
      /\ forall k, filter (isPinOf k) ms
                   = optlist (match k with StartPoint => snd (fst ps) | EndPoint => snd ps end)
  | None => snd (fst ps) = None /\ snd ps = None
  end.

Definition pinned (w : World) : Prop :=
  pinsOk (pinState w)
  /\ (picking (clickMode (view w)) = true ->
      forall k, markerOf k (captured (effectHandler w)) = markerOf k (view w)).

(** What the route overlays of a state are about. *)
Definition overlayState (w : World)
  : option (list Layer * list (string * Source)) * list string :=
  (option_map (fun m => (layers m, sources m)) (map_current w),
   activeRouteHandlers (view w)).

(** The overlays are in order: the route layers and route sources on the
    map are those of one drawing, the tracked layer ids are theirs, and
    nothing else draws from a route source. *)
Definition overlaid (w : World) : Prop :=
  match map_current w with
  | Some m =>
      styleOk m = true
      /\ exists ds, routeLayers m = map layerFor ds
                    /\ routeSources m = map sourceFor ds
                    /\ activeRouteHandlers (view w) = map layerIdOf (map indexOf ds)
  | None => activeRouteHandlers (view w) = []
  end.

(** A base style that uses no route name. *)
Definition plainStyle (style : list Layer * list (string * Source)) : bool :=
  forallb (fun l => negb (isRouteLayer l) && negb (isRouteSourceId (source l))) (fst style)
  && forallb (fun s => negb (isRouteSource s)) (snd style).

(** What a search in flight is about. *)
Definition searchState (w : World) : option View * bool * list SearchRequest :=
  (pending w, isLoadingRoute (view w), fetched w).

Definition isOffLayerCall (c : Call) : bool :=
  match c with CallOffLayer _ _ => true | _ => false end.

(** The [mode] member as [routeSearchSchema] wants it: missing, or one
    of the four names. *)
Definition modeOk (v : option Server.Json) : bool :=
  match v with
  | None => true
  | Some (Server.JStr m) =>
      existsb (String.eqb m) ["driving"; "walking"; "transit"; "bicycling"]
  | Some _ => false
  end.

(** Whether a click on 'Find Routes' starts a search: the panel shows the
    button, no search is running and neither text is blank. *)
Definition ready (v : View) : bool :=
  showRoutePanel v && negb (isLoadingRoute v)
  && negb (Js.blank (startLocation v)) && negb (Js.blank (endLocation v)).

(** The request [searchBusRoutes] sends from the state [cap]. *)
Definition requestOf (cap : View) : SearchRequest :=
  {| reqStart := startLocation cap; reqEnd := endLocation cap; reqMode := "transit" |}.

(** A search is marked as loading exactly while its fetch is pending, and
    the pending closure is the one that sent the last request. *)
Definition searching (w : World) : Prop :=
  match pending w with
  | Some cap =>
      isLoadingRoute (view w) = true
      /\ exists before, fetched w = before ++ [requestOf cap]
  | None => isLoadingRoute (view w) = false
  end.

(** The records up to the first one that [setLngLat] refuses. *)
Fixpoint validPrefix (ds : list MarkerData) : list MarkerData :=
  match ds with
  | [] => []
  | d :: rest => if validRecord d then d :: validPrefix rest else []
  end.

(** The records of an answer to the fetch of /api/markers that get on
    the map, when there is one. *)
Definition loaded (res : MarkersResult) : list MarkerData :=
  match res with
  | MarkersResponse true (Some ds) => validPrefix ds
  | _ => []
  end.

(** The world with the markers of the records [ds] attached. *)
Definition shown (ds : list MarkerData) : World -> World :=
  onMap (fun m => Mapbox.setMarkers (markers m ++ savedMarkers (markerCount m) ds)
                                    (markerCount m + length ds)%nat m).

(** Whether [loadMarkers] ends in its [catch]. *)
Definition warns (res : MarkersResult) (w : World) : bool :=
  match res with
  | MarkersRejected | MarkersResponse true None => true
  | MarkersResponse true (Some ds) =>
      match map_current w with
      | Some _ => negb (forallb validRecord ds)
      | None => false
      end
  | MarkersResponse false _ => false
  end.

(** The state after a picking click at [c] that created [pin]. *)
Definition picked (k : Endpoint) (c : LngLat) (pin : Marker) (v : View) : View :=
  let p := Some {| lng := lng c; lat := lat c |} in
  match k with
  | StartPoint =>
      setClickMode
        (setStartMarker (setStartLocation (setStartCoords v p) (coordsText c)) (Some pin))
        ModeNone
  | EndPoint =>
      setClickMode
        (setEndMarker (setEndLocation (setEndCoords v p) (coordsText c)) (Some pin))
        ModeNone
  end.

(** A base style, if there is a map, that uses no route name. *)
Definition plain (style : option (list Layer * list (string * Source))) : Prop :=
  match style with Some s => plainStyle s = true | None => True end.

(** A call that moves the camera. *)
Definition isCameraCall (c : Call) : bool :=
  match c with CallFitBounds _ | CallFlyTo _ _ => true | _ => false end.

(** The camera calls made on the map so far. *)
Definition cameraCalls (w : World) : list Call := filter isCameraCall (onTheMap calls w).

(** The camera call an event asks for, if any: the reset button and the R
    key fly to the initial view, a position fix flies to the position,
    and an answer with routes fits the bounds of the first one. *)
Definition cameraOf (ev : Event) (w : World) : list Call :=
  match map_current w with
  | None => []
  | Some _ =>
      match ev with
      | ClickResetView =>
          [CallFlyTo {| lng := - (6337 # 10000); lat := 356976 # 10000 |} 12]
      | KeyDown key =>
          if String.eqb key "r" || String.eqb key "R"
          then [CallFlyTo {| lng := - (6337 # 10000); lat := 356976 # 10000 |} 12]
          else []
      | Geolocated position =>
          [CallFlyTo {| lng := lng position; lat := lat position |} 15]
      | FetchSettles (FetchResponse true (Some (first :: _))) =>
          match pending w, bounds first with
          | Some _, Some b => [CallFitBounds b]
          | _, _ => []
          end
      | _ => []
      end
  end.

(** *** The handlers delegated to layers *)

(** The handlers that calls register with a layer. *)
Definition registered (cs : list Call) : list (MapEvent * string) :=
  flat_map (fun c => match c with CallOnLayer ev i => [(ev, i)] | _ => [] end) cs.

(** [m'] comes from [m] by calls, and holds the delegated handlers of [m]
    and after them the ones that the calls registered. *)
Definition keepsHandlers (m m' : MapboxMap) : Prop :=
  exists extra,
    calls m' = calls m ++ extra
    /\ layerHandlers m' = layerHandlers m ++ registered extra.

(** The three handlers delegated to the layer of a drawn route. *)
Definition handlersFor (d : nat * Route * Geometry) : list (MapEvent * string) :=
  [(click, layerIdOf (indexOf d)); (mouseenter, layerIdOf (indexOf d));
   (mouseleave, layerIdOf (indexOf d))].

(** The same between worlds with a map. *)
Definition keeps (w w' : World) : Prop :=
  match map_current w, map_current w' with
  | Some m, Some m' => keepsHandlers m m'
  | None, None => True
  | _, _ => False
  end.

(** * Properties *)

(** ** JavaScript primitives *)

Example toFixed_examples :
  Js.toFixed (357 # 10) 4 = "35.7000" /\ Js.toFixed (- (63 # 100)) 4 = "-0.6300"
  /\ Js.toFixed (- (1 # 100000)) 4 = "-0.0000" /\ Js.toFixed (12345 # 10000) 2 = "1.23"
  /\ Js.toFixed (5 # 10) 0 = "1".
Proof. repeat split; reflexivity. Qed.

Example trim_examples :
  Js.trim "  a b  " = "a b" /\ Js.trim "   " = EmptyString /\ Js.ofNat 12 = "12".
Proof. repeat split; reflexivity. Qed.

Example trim_unicode :
  Js.trim (nbsp ++ "a" ++ ideographicSpace) = "a"
  /\ Js.blank (ideographicSpace ++ nbsp) = true
  /\ Js.length (ideographicSpace ++ nbsp ++ "a") = 3%nat.
Proof. repeat split; reflexivity. Qed.

Lemma string_strong_ind (P : string -> Prop) :
  (forall s, (forall t, (String.length t < String.length s)%nat -> P t) -> P s) ->
  forall s, P s.
Proof.
  intros H s. remember (String.length s) as n eqn:E.
  revert s E. induction n as [n IH] using lt_wf_ind.
  intros s ->. apply H. intros t L. now apply (IH _ L).
Qed.

Ltac by_white_space IH :=
  repeat match goal with
         | |- context [if ?b then _ else _] => destruct b eqn:?
         | |- context [match ?r with EmptyString => _ | String _ _ => _ end] =>
             is_var r; destruct r
         end;
  try reflexivity; try discriminate; try (apply IH; simpl; lia).

Lemma trimStart_blank (s : string) : Js.blank s = true -> Js.trimStart s = EmptyString.
Proof.
  induction s as [s IH] using string_strong_ind.
  destruct s as [|a r]; [reflexivity|]. cbn [Js.blank Js.trimStart].
  by_white_space IH.
Qed.

Lemma trim_blank (s : string) : Js.blank s = true -> Js.trim s = EmptyString.
Proof. intros H. unfold Js.trim. now rewrite (trimStart_blank _ H). Qed.

(** ** Projections of the world after each primitive step *)

Lemma world_ext (a b : World) :
  view a = view b -> map_current a = map_current b -> console a = console b ->
  fetched a = fetched b -> pending a = pending b -> renders a = renders b ->
  effectMode a = effectMode b -> effectHandler a = effectHandler b -> a = b.
Proof. destruct a, b; simpl; intros; subst; reflexivity. Qed.

Lemma view_updView (f : View -> View) (w : World) : view (updView f w) = f (view w).
Proof. reflexivity. Qed.

Lemma map_current_updView (f : View -> View) (w : World) : map_current (updView f w) = map_current w.
Proof. reflexivity. Qed.

Lemma console_updView (f : View -> View) (w : World) : console (updView f w) = console w.
Proof. reflexivity. Qed.

Lemma fetched_updView (f : View -> View) (w : World) : fetched (updView f w) = fetched w.
Proof. reflexivity. Qed.

Lemma pending_updView (f : View -> View) (w : World) : pending (updView f w) = pending w.
Proof. reflexivity. Qed.

Lemma renders_updView (f : View -> View) (w : World) : renders (updView f w) = renders w.
Proof. reflexivity. Qed.

Lemma effectMode_updView (f : View -> View) (w : World) : effectMode (updView f w) = effectMode w.
Proof. reflexivity. Qed.

Lemma effectHandler_updView (f : View -> View) (w : World) : effectHandler (updView f w) = effectHandler w.
Proof. reflexivity. Qed.

Lemma view_setMap (m : option MapboxMap) (w : World) : view (setMap m w) = view w.
Proof. reflexivity. Qed.

Lemma map_current_setMap (m : option MapboxMap) (w : World) : map_current (setMap m w) = m.
Proof. reflexivity. Qed.

Lemma console_setMap (m : option MapboxMap) (w : World) : console (setMap m w) = console w.
Proof. reflexivity. Qed.

Lemma fetched_setMap (m : option MapboxMap) (w : World) : fetched (setMap m w) = fetched w.
Proof. reflexivity. Qed.

Lemma pending_setMap (m : option MapboxMap) (w : World) : pending (setMap m w) = pending w.
Proof. reflexivity. Qed.

Lemma renders_setMap (m : option MapboxMap) (w : World) : renders (setMap m w) = renders w.
Proof. reflexivity. Qed.

Lemma effectMode_setMap (m : option MapboxMap) (w : World) : effectMode (setMap m w) = effectMode w.
Proof. reflexivity. Qed.

Lemma effectHandler_setMap (m : option MapboxMap) (w : World) : effectHandler (setMap m w) = effectHandler w.
Proof. reflexivity. Qed.

Lemma view_consoleLog (s : string) (w : World) : view (consoleLog s w) = view w.
Proof. reflexivity. Qed.

Lemma map_current_consoleLog (s : string) (w : World) : map_current (consoleLog s w) = map_current w.
Proof. reflexivity. Qed.

Lemma console_consoleLog (s : string) (w : World) : console (consoleLog s w) = (console w ++ [s])%list.
Proof. reflexivity. Qed.

Lemma fetched_consoleLog (s : string) (w : World) : fetched (consoleLog s w) = fetched w.
Proof. reflexivity. Qed.

Lemma pending_consoleLog (s : string) (w : World) : pending (consoleLog s w) = pending w.
Proof. reflexivity. Qed.

Lemma renders_consoleLog (s : string) (w : World) : renders (consoleLog s w) = renders w.
Proof. reflexivity. Qed.

Lemma effectMode_consoleLog (s : string) (w : World) : effectMode (consoleLog s w) = effectMode w.
Proof. reflexivity. Qed.

Lemma effectHandler_consoleLog (s : string) (w : World) : effectHandler (consoleLog s w) = effectHandler w.
Proof. reflexivity. Qed.

Lemma view_fetch (r : SearchRequest) (cap : View) (w : World) : view (fetch r cap w) = view w.
Proof. reflexivity. Qed.

Lemma map_current_fetch (r : SearchRequest) (cap : View) (w : World) : map_current (fetch r cap w) = map_current w.
Proof. reflexivity. Qed.

Lemma console_fetch (r : SearchRequest) (cap : View) (w : World) : console (fetch r cap w) = console w.
Proof. reflexivity. Qed.

Lemma fetched_fetch (r : SearchRequest) (cap : View) (w : World) : fetched (fetch r cap w) = (fetched w ++ [r])%list.
Proof. reflexivity. Qed.

Lemma pending_fetch (r : SearchRequest) (cap : View) (w : World) : pending (fetch r cap w) = Some cap.
Proof. reflexivity. Qed.

Lemma renders_fetch (r : SearchRequest) (cap : View) (w : World) : renders (fetch r cap w) = renders w.
Proof. reflexivity. Qed.

Lemma effectMode_fetch (r : SearchRequest) (cap : View) (w : World) : effectMode (fetch r cap w) = effectMode w.
Proof. reflexivity. Qed.

Lemma effectHandler_fetch (r : SearchRequest) (cap : View) (w : World) : effectHandler (fetch r cap w) = effectHandler w.
Proof. reflexivity. Qed.

Lemma view_settle (w : World) : view (settle w) = view w.
Proof. reflexivity. Qed.

Lemma map_current_settle (w : World) : map_current (settle w) = map_current w.
Proof. reflexivity. Qed.

Lemma console_settle (w : World) : console (settle w) = console w.
Proof. reflexivity. Qed.

Lemma fetched_settle (w : World) : fetched (settle w) = fetched w.
Proof. reflexivity. Qed.

Lemma pending_settle (w : World) : pending (settle w) = None.
Proof. reflexivity. Qed.

Lemma renders_settle (w : World) : renders (settle w) = renders w.
Proof. reflexivity. Qed.

Lemma effectMode_settle (w : World) : effectMode (settle w) = effectMode w.
Proof. reflexivity. Qed.

Lemma effectHandler_settle (w : World) : effectHandler (settle w) = effectHandler w.
Proof. reflexivity. Qed.

Lemma view_setEffect (n : nat) (c : ClickMode) (h : Listener) (w : World) : view (setEffect n c h w) = view w.
Proof. reflexivity. Qed.

Lemma map_current_setEffect (n : nat) (c : ClickMode) (h : Listener) (w : World) : map_current (setEffect n c h w) = map_current w.
Proof. reflexivity. Qed.

Lemma console_setEffect (n : nat) (c : ClickMode) (h : Listener) (w : World) : console (setEffect n c h w) = console w.
Proof. reflexivity. Qed.

Lemma fetched_setEffect (n : nat) (c : ClickMode) (h : Listener) (w : World) : fetched (setEffect n c h w) = fetched w.
Proof. reflexivity. Qed.

Lemma pending_setEffect (n : nat) (c : ClickMode) (h : Listener) (w : World) : pending (setEffect n c h w) = pending w.
Proof. reflexivity. Qed.

Lemma renders_setEffect (n : nat) (c : ClickMode) (h : Listener) (w : World) : renders (setEffect n c h w) = n.
Proof. reflexivity. Qed.

Lemma effectMode_setEffect (n : nat) (c : ClickMode) (h : Listener) (w : World) : effectMode (setEffect n c h w) = c.
Proof. reflexivity. Qed.

Lemma effectHandler_setEffect (n : nat) (c : ClickMode) (h : Listener) (w : World) : effectHandler (setEffect n c h w) = h.
Proof. reflexivity. Qed.

Lemma view_onMap (f : MapboxMap -> MapboxMap) (w : World) : view (onMap f w) = view w.
Proof. unfold onMap; destruct (map_current w) eqn:E; simpl; rewrite ?E; reflexivity. Qed.

Lemma map_current_onMap (f : MapboxMap -> MapboxMap) (w : World) : map_current (onMap f w) = option_map f (map_current w).
Proof. unfold onMap; destruct (map_current w) eqn:E; simpl; rewrite ?E; reflexivity. Qed.

Lemma console_onMap (f : MapboxMap -> MapboxMap) (w : World) : console (onMap f w) = console w.
Proof. unfold onMap; destruct (map_current w) eqn:E; simpl; rewrite ?E; reflexivity. Qed.

Lemma fetched_onMap (f : MapboxMap -> MapboxMap) (w : World) : fetched (onMap f w) = fetched w.
Proof. unfold onMap; destruct (map_current w) eqn:E; simpl; rewrite ?E; reflexivity. Qed.

Lemma pending_onMap (f : MapboxMap -> MapboxMap) (w : World) : pending (onMap f w) = pending w.
Proof. unfold onMap; destruct (map_current w) eqn:E; simpl; rewrite ?E; reflexivity. Qed.

Lemma renders_onMap (f : MapboxMap -> MapboxMap) (w : World) : renders (onMap f w) = renders w.
Proof. unfold onMap; destruct (map_current w) eqn:E; simpl; rewrite ?E; reflexivity. Qed.

Lemma effectMode_onMap (f : MapboxMap -> MapboxMap) (w : World) : effectMode (onMap f w) = effectMode w.
Proof. unfold onMap; destruct (map_current w) eqn:E; simpl; rewrite ?E; reflexivity. Qed.

Lemma effectHandler_onMap (f : MapboxMap -> MapboxMap) (w : World) : effectHandler (onMap f w) = effectHandler w.
Proof. unfold onMap; destruct (map_current w) eqn:E; simpl; rewrite ?E; reflexivity. Qed.

Create Rewrite HintDb world.

#[export] Hint Rewrite
  view_updView map_current_updView console_updView fetched_updView
  pending_updView renders_updView effectMode_updView effectHandler_updView
  view_setMap map_current_setMap console_setMap fetched_setMap
  pending_setMap renders_setMap effectMode_setMap effectHandler_setMap
  view_consoleLog map_current_consoleLog console_consoleLog fetched_consoleLog
  pending_consoleLog renders_consoleLog effectMode_consoleLog effectHandler_consoleLog
  view_fetch map_current_fetch console_fetch fetched_fetch
  pending_fetch renders_fetch effectMode_fetch effectHandler_fetch
  view_settle map_current_settle console_settle fetched_settle
  pending_settle renders_settle effectMode_settle effectHandler_settle
  view_setEffect map_current_setEffect console_setEffect fetched_setEffect
  pending_setEffect renders_setEffect effectMode_setEffect effectHandler_setEffect
  view_onMap map_current_onMap console_onMap fetched_onMap
  pending_onMap renders_onMap effectMode_onMap effectHandler_onMap
  : world.

Lemma view_put {A} (setter : View -> A -> View) (x : A) (w : World) :
  view (put setter x w) = setter (view w) x.
Proof. reflexivity. Qed.

Lemma map_current_put {A} (setter : View -> A -> View) (x : A) (w : World) :
  map_current (put setter x w) = map_current w.
Proof. reflexivity. Qed.

#[export] Hint Rewrite @view_put @map_current_put : world.

(** The steps are kept folded in proofs; their effect is read through the
    projection lemmas above. *)
Ltac world := unfold put; autorewrite with world.

(** ** Renders *)

Lemma rerender_view (w : World) : view (rerender w) = view w.
Proof.
  unfold rerender, clickModeEffect, clickModeCleanup, onMap.
  destruct (ClickMode_eqb _ _); [reflexivity|].
  destruct (map_current w) eqn:E; simpl; rewrite ?E; reflexivity.
Qed.

(** ** Route search: the guard on the endpoint texts *)

(** C3. If the display text of either endpoint is empty or consists of
    white space only, [searchBusRoutes] does nothing but report the
    validation failure on the console: no request is sent to the
    route-search boundary, no fetch is left pending, and the state and
    the map are as before. *)
Theorem searchBusRoutes_blank_endpoint (cap : View) (w : World) :
  Js.blank (startLocation cap) = true \/ Js.blank (endLocation cap) = true ->
  searchBusRoutes_begin cap w
    = consoleLog "Please enter both start and end locations" w
  /\ fetched (searchBusRoutes_begin cap w) = fetched w
  /\ pending (searchBusRoutes_begin cap w) = pending w
  /\ view (searchBusRoutes_begin cap w) = view w
  /\ map_current (searchBusRoutes_begin cap w) = map_current w.
Proof.
  intros H.
  assert (E : searchBusRoutes_begin cap w
              = consoleLog "Please enter both start and end locations" w).
  { unfold searchBusRoutes_begin.
    destruct H as [H|H]; rewrite (trim_blank _ H); simpl.
    - reflexivity.
    - now rewrite orb_true_r. }
  rewrite E. repeat split.
Qed.

(** Scenario A of the specification: start "A", end "". *)
Lemma searchBusRoutes_blank_endpoint_witness :
  let cap := setEndLocation (setStartLocation initialView "A") EmptyString in
  let w := mount (Some (newMap [] [])) in
  fetched (searchBusRoutes_begin cap w) = [] /\
  console (searchBusRoutes_begin cap w) = ["Please enter both start and end locations"].
Proof.
  intros cap w.
  destruct (searchBusRoutes_blank_endpoint cap w) as (E & F & _).
  - right. reflexivity.
  - split.
    + rewrite F. reflexivity.
    + rewrite E. reflexivity.
Defined.

(** The 'Find Routes' button is disabled in the same situation, so the
    click does not even reach [searchBusRoutes]. *)
Lemma findRoutes_disabled_when_blank (w : World) :
  Js.blank (startLocation (view w)) = true \/ Js.blank (endLocation (view w)) = true ->
  dispatch ClickFindRoutes w = w.
Proof.
  intros H. unfold dispatch, findRoutesDisabled.
  destruct H as [H|H]; rewrite (trim_blank _ H); simpl;
    rewrite ?orb_true_r, ?andb_false_r; reflexivity.
Qed.

(** ** The picking buttons *)

(** C6. Requesting the picking mode that is already active toggles back
    to ['none']: for either endpoint, the button's handler run in a render
    whose mode is already picking that endpoint sets the mode to ['none'],
    and so does the whole event when the route panel is shown. *)
Theorem picking_is_a_toggle (k : Endpoint) (cap : View) (w : World) :
  clickMode cap = pickingMode k ->
  clickMode (view (onClickSet k cap w)) = ModeNone
  /\ (view w = cap -> showRoutePanel cap = true ->
      clickMode (view (step w (ClickSet k))) = ModeNone).
Proof.
  intros H. split.
  - destruct k; simpl in *; unfold onClickSetStart, onClickSetEnd; rewrite H; reflexivity.
  - intros <- Hp.
    assert (E : clickMode (view (dispatch (ClickSet k) w)) = ModeNone).
    { destruct k; simpl in *; rewrite Hp;
        unfold onClickSetStart, onClickSetEnd; rewrite H; reflexivity. }
    unfold step. rewrite rerender_view. exact E.
Qed.

Lemma picking_is_a_toggle_witness :
  let w := run [ClickRouteToggle; ClickSetEnd] (mount (Some (newMap [] []))) in
  clickMode (view w) = ModeEnd
  /\ clickMode (view (onClickSet EndPoint (view w) w)) = ModeNone
  /\ clickMode (view (step w (ClickSet EndPoint))) = ModeNone.
Proof.
  intros w.
  assert (H : clickMode (view w) = pickingMode EndPoint) by reflexivity.
  destruct (picking_is_a_toggle EndPoint (view w) w H) as [A B].
  split; [exact H|]. split; [exact A|]. apply B; reflexivity.
Defined.

(** ** Endpoint markers *)

Lemma filter_idem {A} (p : A -> bool) (l : list A) : filter p (filter p l) = filter p l.
Proof.
  induction l as [|a l IH]; simpl; [reflexivity|].
  destruct (p a) eqn:E; simpl; rewrite ?E, IH; reflexivity.
Qed.

Lemma filter_swap {A} (p q : A -> bool) (l : list A) :
  filter p (filter q l) = filter q (filter p l).
Proof.
  induction l as [|a l IH]; simpl; [reflexivity|].
  destruct (p a) eqn:Ep, (q a) eqn:Eq; simpl; rewrite ?Ep, ?Eq, ?IH; reflexivity.
Qed.

Lemma filter_both {A} (p q : A -> bool) (l : list A) :
  filter p (filter q l) = filter (fun x => q x && p x) l.
Proof.
  induction l as [|a l IH]; simpl; [reflexivity|].
  destruct (q a) eqn:Eq; simpl; [destruct (p a)|]; rewrite IH; reflexivity.
Qed.

Lemma filter_none {A} (p : A -> bool) (l : list A) :
  (forall x, p x = false) -> filter p l = [].
Proof. intros H. induction l as [|a l IH]; simpl; [|rewrite H]; auto. Qed.

Lemma removeMarker_idem (a : Marker) (m : MapboxMap) :
  Mapbox.removeMarker a (Mapbox.removeMarker a m) = Mapbox.removeMarker a m.
Proof. unfold Mapbox.removeMarker, Mapbox.setMarkers; simpl. now rewrite filter_idem. Qed.

Lemma removeMarker_absorb (a b : Marker) (m : MapboxMap) :
  Mapbox.removeMarker a (Mapbox.removeMarker b (Mapbox.removeMarker a m))
  = Mapbox.removeMarker b (Mapbox.removeMarker a m).
Proof.
  unfold Mapbox.removeMarker, Mapbox.setMarkers; simpl.
  now rewrite (filter_swap _ (fun x => negb (markerId x =? markerId b)%nat)), filter_idem.
Qed.

(** C9. [clearLocationMarkers] is idempotent.  Called twice in a row from
    the same render (the same closure [cap], whatever it captured) or
    from two consecutive renders (each closure seeing the current state),
    it leaves the state it leaves when called once: endpoint markers on
    the map, marker references, coordinates and display texts. *)
Theorem clearLocationMarkers_idempotent (w : World) :
  (forall cap,
      clearLocationMarkers cap (clearLocationMarkers cap w) = clearLocationMarkers cap w)
  /\ (let once := clearLocationMarkers (view w) w in
      clearLocationMarkers (view once) once = once).
Proof.
  split.
  - intros cap. unfold clearLocationMarkers, markerRemove.
    destruct (startMarker cap) as [a|], (endMarker cap) as [b|]; cbv beta iota zeta;
      apply world_ext; world; try reflexivity;
      destruct (map_current w) as [m|]; simpl; try reflexivity;
      rewrite ?removeMarker_idem, ?removeMarker_absorb; reflexivity.
  - cbv zeta.
    assert (S : startMarker (view (clearLocationMarkers (view w) w)) = None).
    { unfold clearLocationMarkers, markerRemove.
      destruct (startMarker (view w)) eqn:Es, (endMarker (view w)) eqn:Ee;
        cbv beta iota zeta; world; simpl; try reflexivity; assumption. }
    assert (E : endMarker (view (clearLocationMarkers (view w) w)) = None).
    { unfold clearLocationMarkers, markerRemove.
      destruct (startMarker (view w)) eqn:Es, (endMarker (view w)) eqn:Ee;
        cbv beta iota zeta; world; simpl; try reflexivity; assumption. }
    unfold clearLocationMarkers at 1. rewrite S, E. cbv beta iota zeta.
    unfold clearLocationMarkers, markerRemove.
    destruct (startMarker (view w)), (endMarker (view w)); cbv beta iota zeta;
      apply world_ext; world; reflexivity.
Qed.

(** ** Route search: failure and empty results *)

Lemma searchBusRoutes_begin_sends (cap : View) (w : World) :
  Js.truthy (Js.trim (startLocation cap)) = true ->
  Js.truthy (Js.trim (endLocation cap)) = true ->
  searchBusRoutes_begin cap w
  = fetch {| reqStart := startLocation cap; reqEnd := endLocation cap;
             reqMode := "transit" |} cap
          (put setRouteResults [] (put setIsLoadingRoute true w)).
Proof. intros Hs He. unfold searchBusRoutes_begin. rewrite Hs, He. reflexivity. Qed.

(** What the continuation of a failed or empty search does to the state
    it finds when the fetch settles. *)
Lemma searchBusRoutes_resume_failed (cap : View) (res : FetchResult) (w : World) :
  failedOrEmpty res = true ->
  map_current (searchBusRoutes_resume cap res w) = map_current w
  /\ isLoadingRoute (view (searchBusRoutes_resume cap res w)) = false
  /\ pending (searchBusRoutes_resume cap res w) = None
  /\ routeResults (view (searchBusRoutes_resume cap res w))
     = match res with
       | FetchResponse true (Some _) => []
       | _ => routeResults (view w)
       end.
Proof.
  intros H. unfold searchBusRoutes_resume.
  destruct res as [|[|] [[|r rs]|]]; try discriminate H; cbv beta iota zeta;
    world; repeat split.
Qed.

(** C4, as the code has it.  When a route search fails (the fetch
    rejects, the response is not ok, or its body does not parse) or
    returns an empty array, the loading flag is cleared and the map,
    with every route overlay rendered before, is left as it was; the
    stored route results, however, are empty, because the search cleared
    them before sending the request. *)
Theorem failed_search_keeps_overlays (cap : View) (res : FetchResult) (w : World) :
  Js.truthy (Js.trim (startLocation cap)) = true ->
  Js.truthy (Js.trim (endLocation cap)) = true ->
  failedOrEmpty res = true ->
  let w' := searchBusRoutes_resume cap res (searchBusRoutes_begin cap w) in
  isLoadingRoute (view w') = false
  /\ map_current w' = map_current w
  /\ routeResults (view w') = [].
Proof.
  intros Hs He H w'. subst w'.
  destruct (searchBusRoutes_resume_failed cap res (searchBusRoutes_begin cap w) H)
    as (M & L & _ & R).
  rewrite M, L, R, (searchBusRoutes_begin_sends cap w Hs He).
  repeat split. destruct res as [|[|] [[|r rs]|]]; reflexivity.
Qed.

Lemma failed_search_keeps_overlays_witness :
  let w := afterOneSearch in
  let w' := searchBusRoutes_resume (view w) FetchRejected
              (searchBusRoutes_begin (view w) w) in
  option_map routeLayers (map_current w) = Some [layerOf 0]
  /\ isLoadingRoute (view w') = false
  /\ map_current w' = map_current w
  /\ routeResults (view w') = [].
Proof.
  intros w w'. split; [reflexivity|].
  apply (failed_search_keeps_overlays (view w) FetchRejected w); reflexivity.
Defined.

(** C4 as stated fails: after a failed search the previously stored
    results are gone. *)
Lemma failed_search_drops_stored_results :
  let w := afterOneSearch in
  let w' := searchBusRoutes_resume (view w) FetchRejected
              (searchBusRoutes_begin (view w) w) in
  routeResults (view w) = [sampleRoute]
  /\ routeResults (view w') <> routeResults (view w).
Proof. intros w w'. split; [reflexivity|]. vm_compute. discriminate. Qed.

(** ** Clearing route overlays from the engine *)

Lemma onlyCalls_refl (m : MapboxMap) : onlyCalls m m.
Proof. repeat split. Qed.

Lemma onlyCalls_trans (a b c : MapboxMap) : onlyCalls a b -> onlyCalls b c -> onlyCalls a c.
Proof.
  intros (L1 & S1 & H1 & D1 & M1 & N1 & C1) (L2 & S2 & H2 & D2 & M2 & N2 & C2).
  repeat split; congruence.
Qed.

Lemma getLayer_layers (i : string) (m m' : MapboxMap) :
  layers m' = layers m -> Mapbox.getLayer i m' = Mapbox.getLayer i m.
Proof. unfold Mapbox.getLayer. now intros ->. Qed.

Lemma detachRouteHandlers_spec (tracked : list string) (m : MapboxMap) :
  onlyCalls m (detachRouteHandlers tracked m)
  /\ calls (detachRouteHandlers tracked m)
     = calls m ++ flat_map detachCalls (filter (fun i => Mapbox.getLayer i m) tracked).
Proof.
  unfold detachRouteHandlers.
  revert m; induction tracked as [|i tracked IH]; intros m; simpl.
  - split; [apply onlyCalls_refl | now rewrite app_nil_r].
  - set (m1 := detachHandlersOf m i).
    assert (O : onlyCalls m m1)
      by (subst m1; unfold detachHandlersOf; destruct (Mapbox.getLayer i m); repeat split).
    assert (C : calls m1 = calls m ++ (if Mapbox.getLayer i m then detachCalls i else [])).
    { subst m1; unfold detachHandlersOf; destruct (Mapbox.getLayer i m); simpl.
      - now rewrite <- !app_assoc.
      - now rewrite app_nil_r. }
    destruct (IH m1) as [O1 C1]. split.
    + eapply onlyCalls_trans; eassumption.
    + rewrite C1, C. rewrite <- app_assoc. f_equal.
      assert (F : filter (fun j => Mapbox.getLayer j m1) tracked
                  = filter (fun j => Mapbox.getLayer j m) tracked).
      { apply filter_ext. intros j. apply getLayer_layers, O. }
      rewrite F. destruct (Mapbox.getLayer i m); reflexivity.
Qed.

Lemma removeRouteLayers_spec (styleLayers : list Layer) (m : MapboxMap) :
  layers (removeRouteLayers styleLayers m)
  = filter (fun l => negb (existsb (fun s => isRouteLayerId (id s) && String.eqb (id l) (id s))
                                   styleLayers)) (layers m)
  /\ sources (removeRouteLayers styleLayers m) = sources m
  /\ listeners (removeRouteLayers styleLayers m) = listeners m
  /\ markers (removeRouteLayers styleLayers m) = markers m
  /\ markerCount (removeRouteLayers styleLayers m) = markerCount m
  /\ cursor (removeRouteLayers styleLayers m) = cursor m
  /\ exists extra, calls (removeRouteLayers styleLayers m) = calls m ++ extra
                   /\ Forall isRemoveLayerCall extra.
Proof.
  unfold removeRouteLayers.
  revert m; induction styleLayers as [|s rest IH]; intros m; simpl.
  - repeat split.
    + induction (layers m) as [|l ls IHl]; simpl; congruence.
    + exists []. now rewrite app_nil_r.
  - set (m1 := removeIfRouteLayer m s).
    assert (L1 : layers m1
                 = filter (fun l => negb (isRouteLayerId (id s) && String.eqb (id l) (id s)))
                          (layers m)).
    { subst m1. unfold removeIfRouteLayer, isRouteLayerId.
      destruct (Js.truthy (id s) && Js.startsWith (id s) "route-layer-") eqn:R; simpl.
      - destruct (Mapbox.getLayer (id s) m) eqn:G; simpl; [reflexivity|].
        unfold Mapbox.getLayer in G. symmetry. apply forallb_filter_id.
        apply forallb_forall. intros l Hl.
        destruct (String.eqb (id l) (id s)) eqn:E; [|reflexivity].
        exfalso. rewrite <- Bool.not_true_iff_false in G. apply G.
        apply existsb_exists. exists l. split; [exact Hl | exact E].
      - symmetry. apply forallb_filter_id. apply forallb_forall. reflexivity. }
    assert (F : sources m1 = sources m /\ listeners m1 = listeners m
                /\ markers m1 = markers m /\ markerCount m1 = markerCount m
                /\ cursor m1 = cursor m
                /\ exists extra, calls m1 = calls m ++ extra /\ Forall isRemoveLayerCall extra).
    { subst m1. unfold removeIfRouteLayer.
      destruct (Js.truthy (id s) && Js.startsWith (id s) "route-layer-");
        [destruct (Mapbox.getLayer (id s) m)|]; simpl; repeat split;
        try (exists []; now rewrite app_nil_r).
      exists [CallRemoveLayer (id s)]. split; [reflexivity|]. repeat constructor. }
    destruct F as (S1 & H1 & M1 & N1 & C1 & extra1 & E1 & P1).
    destruct (IH m1) as (L & S & H & M & N & C & extra & E & P).
    repeat split; try congruence.
    + rewrite L, L1. rewrite filter_both. apply filter_ext. intros l.
      now rewrite negb_orb.
    + exists (extra1 ++ extra). split.
      * now rewrite E, E1, app_assoc.
      * apply Forall_app; split; assumption.
Qed.

Lemma removeRouteSources_frame (sourceIds : list string) (m : MapboxMap) :
  layers (removeRouteSources sourceIds m) = layers m
  /\ listeners (removeRouteSources sourceIds m) = listeners m
  /\ markers (removeRouteSources sourceIds m) = markers m
  /\ markerCount (removeRouteSources sourceIds m) = markerCount m
  /\ cursor (removeRouteSources sourceIds m) = cursor m
  /\ exists extra, calls (removeRouteSources sourceIds m) = calls m ++ extra
                   /\ Forall isRemoveSourceCall extra.
Proof.
  unfold removeRouteSources.
  revert m; induction sourceIds as [|i rest IH]; intros m; simpl.
  - repeat split. exists []. now rewrite app_nil_r.
  - set (m1 := removeIfRouteSource m i).
    assert (F : layers m1 = layers m /\ listeners m1 = listeners m
                /\ markers m1 = markers m /\ markerCount m1 = markerCount m
                /\ cursor m1 = cursor m
                /\ exists extra, calls m1 = calls m ++ extra /\ Forall isRemoveSourceCall extra).
    { subst m1. unfold removeIfRouteSource, Mapbox.removeSource.
      destruct (Js.startsWith i "route-");
        [destruct (Mapbox.getSource i m);
         [destruct (existsb (fun l => String.eqb (source l) i) (layers m))|]|];
        simpl; repeat split;
        try (exists []; now rewrite app_nil_r);
        (exists [CallRemoveSource i]; split; [reflexivity|repeat constructor]). }
    destruct F as (L1 & H1 & M1 & N1 & C1 & extra1 & E1 & P1).
    destruct (IH m1) as (L & H & M & N & C & extra & E & P).
    repeat split; try congruence.
    exists (extra1 ++ extra). split.
    + now rewrite E, E1, app_assoc.
    + apply Forall_app; split; assumption.
Qed.

(** When no layer draws from a route source, every [removeSource] of the
    loop goes through. *)
Lemma removeRouteSources_sources (sourceIds : list string) (m : MapboxMap) :
  (forall l, In l (layers m) -> isRouteSourceId (source l) = false) ->
  sources (removeRouteSources sourceIds m)
  = filter (fun s => negb (existsb (fun i => isRouteSourceId i && String.eqb (fst s) i)
                                   sourceIds)) (sources m).
Proof.
  unfold removeRouteSources.
  revert m; induction sourceIds as [|i rest IH]; intros m U; simpl.
  - induction (sources m) as [|s ss IHs]; simpl; congruence.
  - set (m1 := removeIfRouteSource m i).
    assert (L1 : layers m1 = layers m).
    { apply (removeRouteSources_frame [i] m). }
    assert (S1 : sources m1
                 = filter (fun s => negb (isRouteSourceId i && String.eqb (fst s) i))
                          (sources m)).
    { subst m1. unfold removeIfRouteSource, isRouteSourceId.
      destruct (Js.startsWith i "route-") eqn:R; simpl.
      - assert (X : existsb (fun l => String.eqb (source l) i) (layers m) = false).
        { apply Bool.not_true_iff_false. intros X.
          apply existsb_exists in X as (l & Hl & El).
          apply String.eqb_eq in El. specialize (U l Hl).
          unfold isRouteSourceId in U. rewrite El in U. congruence. }
        destruct (Mapbox.getSource i m) eqn:G.
        + unfold Mapbox.removeSource. rewrite X. reflexivity.
        + unfold Mapbox.getSource in G. symmetry. apply forallb_filter_id.
          apply forallb_forall. intros s Hs.
          destruct (String.eqb (fst s) i) eqn:E; [|reflexivity].
          exfalso. rewrite <- Bool.not_true_iff_false in G. apply G.
          apply existsb_exists. exists s. split; [exact Hs | exact E].
      - symmetry. apply forallb_filter_id. apply forallb_forall. reflexivity. }
    rewrite (IH m1) by (rewrite L1; exact U).
    rewrite S1, filter_both. apply filter_ext. intros s. now rewrite negb_orb.
Qed.

Lemma isRouteLayer_id (l : Layer) : isRouteLayer l = isRouteLayerId (id l).
Proof. reflexivity. Qed.

Lemma remove_own_layers (ls : list Layer) :
  filter (fun l => negb (existsb (fun s => isRouteLayerId (id s) && String.eqb (id l) (id s)) ls)) ls
  = filter (fun l => negb (isRouteLayer l)) ls.
Proof.
  apply filter_ext_in. intros l Hl. f_equal. rewrite isRouteLayer_id.
  destruct (isRouteLayerId (id l)) eqn:R.
  - apply existsb_exists. exists l. split; [exact Hl|].
    now rewrite R, String.eqb_refl.
  - apply Bool.not_true_iff_false. intros X.
    apply existsb_exists in X as (s & _ & Hs).
    apply andb_true_iff in Hs as [Rs E]. apply String.eqb_eq in E. congruence.
Qed.

Lemma remove_own_sources (ss : list (string * Source)) :
  filter (fun s => negb (existsb (fun i => isRouteSourceId i && String.eqb (fst s) i)
                                 (map fst ss))) ss
  = filter (fun s => negb (isRouteSource s)) ss.
Proof.
  apply filter_ext_in. intros s Hs. f_equal.
  change (isRouteSource s) with (isRouteSourceId (fst s)).
  destruct (isRouteSourceId (fst s)) eqn:R.
  - apply existsb_exists. exists (fst s). split; [now apply in_map|].
    now rewrite R, String.eqb_refl.
  - apply Bool.not_true_iff_false. intros X.
    apply existsb_exists in X as (i & _ & Hi).
    apply andb_true_iff in Hi as [Ri E]. apply String.eqb_eq in E. congruence.
Qed.

(** After the layer loop of a style that is [styleOk], no layer draws
    from a route source any more. *)
Lemma styleOk_after_layers (m : MapboxMap) (l : Layer) :
  styleOk m = true ->
  In l (filter (fun l => negb (isRouteLayer l)) (layers m)) ->
  isRouteSourceId (source l) = false.
Proof.
  unfold styleOk. intros Ok Hl. apply filter_In in Hl as [Hl N].
  rewrite forallb_forall in Ok. specialize (Ok l Hl).
  destruct (isRouteSourceId (source l)); [|reflexivity].
  simpl in Ok. rewrite Ok in N. discriminate.
Qed.

Lemma clearRouteLayersFromMap_none (cap : View) (w : World) :
  map_current w = None -> clearRouteLayersFromMap cap w = w.
Proof. intros H. unfold clearRouteLayersFromMap. now rewrite H. Qed.

(** [clearRouteLayersFromMap] on a live map: what is left on the engine
    and the calls that were made, in their order. *)
Lemma clearRouteLayersFromMap_some (cap : View) (w : World) (m : MapboxMap) :
  map_current w = Some m ->
  exists m',
    clearRouteLayersFromMap cap w = setMap (Some m') (put setActiveRouteHandlers [] w)
    /\ layers m' = filter (fun l => negb (isRouteLayer l)) (layers m)
    /\ (styleOk m = true ->
        sources m' = filter (fun s => negb (isRouteSource s)) (sources m))
    /\ listeners m' = listeners m
    /\ markers m' = markers m
    /\ markerCount m' = markerCount m
    /\ cursor m' = cursor m
    /\ exists removedLayers removedSources,
        calls m' = calls m
                   ++ flat_map detachCalls
                        (filter (fun i => Mapbox.getLayer i m) (activeRouteHandlers cap))
                   ++ removedLayers ++ removedSources
        /\ Forall isRemoveLayerCall removedLayers
        /\ Forall isRemoveSourceCall removedSources.
Proof.
  intros H. unfold clearRouteLayersFromMap. rewrite H. cbv zeta.
  set (m1 := detachRouteHandlers (activeRouteHandlers cap) m).
  set (m2 := removeRouteLayers (layers m1) m1).
  set (m3 := removeRouteSources (map fst (sources m1)) m2).
  destruct (detachRouteHandlers_spec (activeRouteHandlers cap) m)
    as ((L1 & S1 & H1 & _ & M1 & N1 & C1) & T1).
  fold m1 in L1, S1, H1, M1, N1, C1, T1.
  destruct (removeRouteLayers_spec (layers m1) m1)
    as (L2 & S2 & H2 & M2 & N2 & C2 & rls & T2 & P2).
  fold m2 in L2, S2, H2, M2, N2, C2, T2.
  destruct (removeRouteSources_frame (map fst (sources m1)) m2)
    as (L3 & H3 & M3 & N3 & C3 & rss & T3 & P3).
  fold m3 in L3, H3, M3, N3, C3, T3.
  rewrite remove_own_layers, L1 in L2.
  exists m3.
  split; [apply world_ext; reflexivity|].
  split; [congruence|].
  split.
  { intros Ok. subst m3. rewrite removeRouteSources_sources.
    - rewrite S2, <- S1. apply remove_own_sources.
    - intros l Hl. rewrite L2 in Hl. eapply styleOk_after_layers; eassumption. }
  do 4 (split; [congruence|]).
  exists rls, rss. split; [|split; assumption].
  rewrite T3, T2, T1. now rewrite <- !app_assoc.
Qed.

(** ** Renders and the map *)

(** A render touches the picking listeners, the cursor and the trace,
    nothing else on the map. *)
Lemma rerender_map (w : World) :
  onTheMap layers (rerender w) = onTheMap layers w
  /\ onTheMap sources (rerender w) = onTheMap sources w
  /\ onTheMap markers (rerender w) = onTheMap markers w.
Proof.
  unfold rerender, clickModeEffect, clickModeCleanup, onTheMap.
  destruct (ClickMode_eqb _ _); [repeat split|].
  unfold onMap. destruct (map_current w) as [m|] eqn:E; simpl; rewrite ?E; simpl.
  - destruct (picking (clickMode (view w))); repeat split.
  - repeat split.
Qed.

Lemma onTheMap_filter {A} (what : MapboxMap -> list A) (p : A -> bool) (w : World) :
  onTheMap (fun m => filter p (what m)) w = filter p (onTheMap what w).
Proof. unfold onTheMap. destruct (map_current w); reflexivity. Qed.

(** ** The Escape key *)

Lemma handleKeyDown_Escape (cap : View) (w : World) :
  handleKeyDown cap "Escape" w
  = put setClickMode ModeNone
      (put setRouteResults []
         (clearRouteLayersFromMap cap
            (put setShowRoutePanel false (put setShowInfoPanel false w)))).
Proof. reflexivity. Qed.

(** How [clearRouteLayersFromMap] shows through the projections of the
    world, map or no map. *)
Lemma clearRouteLayersFromMap_world (cap : View) (w : World) :
  let w' := clearRouteLayersFromMap cap w in
  (view w' = view w \/ view w' = setActiveRouteHandlers (view w) [])
  /\ onTheMap routeLayers w' = []
  /\ (onTheMap (fun m => [styleOk m]) w = [true] -> onTheMap routeSources w' = [])
  /\ onTheMap markers w' = onTheMap markers w
  /\ onTheMap listeners w' = onTheMap listeners w
  /\ console w' = console w /\ fetched w' = fetched w /\ pending w' = pending w
  /\ renders w' = renders w /\ effectMode w' = effectMode w
  /\ effectHandler w' = effectHandler w.
Proof.
  cbv zeta. destruct (map_current w) as [m|] eqn:E.
  - destruct (clearRouteLayersFromMap_some cap w m E)
      as (m' & -> & L & S & H & M & _ & _ & _).
    unfold onTheMap. world. rewrite E.
    split; [right; reflexivity|].
    split; [|split; [|repeat split; assumption]].
    + unfold routeLayers. rewrite L, filter_both.
      apply filter_none. intros l. apply andb_negb_l.
    + intros Ok. injection Ok as Ok. unfold routeSources. rewrite (S Ok), filter_both.
      apply filter_none. intros s. apply andb_negb_l.
  - rewrite (clearRouteLayersFromMap_none cap w E). unfold onTheMap. rewrite E.
    split; [left; reflexivity|]. repeat split.
Qed.

Lemma routeLayers_onTheMap (w : World) :
  onTheMap routeLayers w = filter isRouteLayer (onTheMap layers w).
Proof. apply (onTheMap_filter layers). Qed.

Lemma routeSources_onTheMap (w : World) :
  onTheMap routeSources w = filter isRouteSource (onTheMap sources w).
Proof. apply (onTheMap_filter sources). Qed.

(** C7, as the code has it.  The Escape key closes both panels, removes
    every route overlay from the map, empties the stored results and
    returns the mode to ['none'].  It does not touch the endpoints: their
    texts, coordinates and markers stay as they are (clearing them is what
    the clear button of the route panel does). *)
Theorem escape_resets_routes_and_mode (w : World) :
  let w' := step w (KeyDown "Escape") in
  (showInfoPanel (view w') = false /\ showRoutePanel (view w') = false
   /\ routeResults (view w') = [] /\ clickMode (view w') = ModeNone)
  /\ onTheMap routeLayers w' = []
  /\ (onTheMap (fun m => [styleOk m]) w = [true] -> onTheMap routeSources w' = [])
  /\ (startLocation (view w') = startLocation (view w)
      /\ endLocation (view w') = endLocation (view w)
      /\ startCoords (view w') = startCoords (view w)
      /\ endCoords (view w') = endCoords (view w)
      /\ startMarker (view w') = startMarker (view w)
      /\ endMarker (view w') = endMarker (view w)
      /\ onTheMap markers w' = onTheMap markers w).
Proof.
  cbv zeta. unfold step.
  change (dispatch (KeyDown "Escape") w) with (handleKeyDown initialView "Escape" w).
  rewrite handleKeyDown_Escape.
  set (w0 := put setShowRoutePanel false (put setShowInfoPanel false w)).
  destruct (clearRouteLayersFromMap_world initialView w0)
    as (V & L & S & M & _).
  set (w1 := clearRouteLayersFromMap initialView w0) in *.
  destruct (rerender_map (put setClickMode ModeNone (put setRouteResults [] w1)))
    as (RL & RS & RM).
  rewrite rerender_view, routeLayers_onTheMap, routeSources_onTheMap, RL, RS, RM.
  rewrite <- routeLayers_onTheMap, <- routeSources_onTheMap.
  split; [|split; [exact L|split; [exact S|]]].
  - world. destruct V as [-> | ->]; repeat split.
  - world. destruct V as [-> | ->]; repeat split; exact M.
Qed.

Lemma escape_resets_routes_and_mode_witness :
  let w := run [ChangeEnd "B"; ClickFindRoutes;
                FetchSettles (FetchResponse true (Some [sampleRoute]))]
               afterPickingStart in
  onTheMap routeSources w = [(sourceIdOf 0, sourceOf 0 sampleRoute
                                {| geometryType := "LineString";
                                   coordinates := Some [(- (63 # 100), 357 # 10)] |})]
  /\ onTheMap routeSources (step w (KeyDown "Escape")) = [].
Proof.
  intros w. split; [reflexivity|].
  apply (escape_resets_routes_and_mode w). reflexivity.
Defined.

(** C7 as stated fails: after Escape the start endpoint still has its
    text, its coordinates and its marker on the map. *)
Lemma escape_keeps_endpoints :
  let w' := step afterPickingStart (KeyDown "Escape") in
  startLocation (view w') = "35.7000, -0.6300"
  /\ startCoords (view w') = Some {| lng := - (63 # 100); lat := 357 # 10 |}
  /\ startMarker (view w') <> None
  /\ length (onTheMap markers w') = 1%nat.
Proof.
  intros w'. split; [reflexivity|]. split; [reflexivity|]. split; [|reflexivity].
  vm_compute. discriminate.
Qed.

(** ** Creating a marker *)

Section CreatingMarkers.
Import Server.

Lemma insertMarkerSchema_fields :
  insertMarkerSchema
  = [ ("title", {| ztype := ZString None; optional := false; nullable := false |});
      ("description", {| ztype := ZString None; optional := true; nullable := true |});
      ("latitude", {| ztype := ZNumber; optional := false; nullable := false |});
      ("longitude", {| ztype := ZNumber; optional := false; nullable := false |});
      ("color", {| ztype := ZString (Some 7%nat); optional := true; nullable := true |}) ].
Proof. reflexivity. Qed.

(** One offending member is enough for a ZodError. *)
Lemma parseMembers_rejects (realRange : Q -> bool) (s : Schema)
      (members : list (string * Json)) (key : string) (f : ZodField) :
  In (key, f) s ->
  match member key members with
  | Some v => accepts realRange f v = false
  | None => optional f = false
  end ->
  parseMembers realRange s members = None.
Proof.
  intros Hin Hbad. induction s as [|[k g] rest IH]; [contradiction|].
  simpl. destruct Hin as [E|Hin].
  - injection E as -> ->.
    destruct (member key members) as [v|]; rewrite Hbad; reflexivity.
  - rewrite (IH Hin).
    destruct (member k members) as [v|]; [destruct (accepts realRange g v)|destruct (optional g)];
      reflexivity.
Qed.

Lemma coordinate_rejected (realRange : Q -> bool) (v : option Json) :
  coordinateOk realRange v = false ->
  match v with
  | Some x => accepts realRange {| ztype := ZNumber; optional := false; nullable := false |} x
              = false
  | None => optional {| ztype := ZNumber; optional := false; nullable := false |} = false
  end.
Proof. destruct v as [[| |q| | |]|]; simpl; auto. Qed.

Lemma parse_needs_coordinates (realRange : Q -> bool) (members : list (string * Json)) :
  coordinateOk realRange (member "latitude" members) = false
  \/ coordinateOk realRange (member "longitude" members) = false ->
  parse realRange insertMarkerSchema (JObj members) = None.
Proof.
  intros [H|H]; unfold parse; rewrite insertMarkerSchema_fields.
  - eapply (parseMembers_rejects realRange _ members "latitude").
    + right; right; left; reflexivity.
    + apply coordinate_rejected, H.
  - eapply (parseMembers_rejects realRange _ members "longitude").
    + right; right; right; left; reflexivity.
    + apply coordinate_rejected, H.
Qed.

(** C8, as the code has it.  The insert schema is the one derived from
    the table: latitude and longitude must be present and be numbers (in
    the range the schema library gives any [real] column); a request that
    fails this is answered 400 and nothing reaches persistence.  The
    schema has no bound at 90 or 180 degrees: a request with a title and
    any two such numbers passes validation.  It is answered 201 with the
    new row, which holds the title and the coordinates as the database
    keeps them, no description and the default colour; or, when the
    database refuses one of the values, 500 with nothing stored. *)
Theorem postMarkers_validates_type_not_range
        (realRange : Q -> bool) (store : ColumnKind -> Json -> option Json) (db : Db) :
  (forall members,
      coordinateOk realRange (member "latitude" members) = false
      \/ coordinateOk realRange (member "longitude" members) = false ->
      postMarkers realRange store (JObj members) db
      = (ReplyError 400 "Invalid marker data", db))
  /\ (forall body, status (fst (postMarkers realRange store body db)) = 400%nat ->
                   snd (postMarkers realRange store body db) = db)
  /\ (forall title la lo,
         realRange la = true -> realRange lo = true ->
         let body := JObj [("title", JStr title); ("latitude", JNum la);
                           ("longitude", JNum lo)] in
         match store PgText (JStr title), store PgReal (JNum la), store PgReal (JNum lo) with
         | Some t, Some x, Some y =>
             exists row,
               fst (postMarkers realRange store body db) = ReplyMarker 201 row
               /\ rows (snd (postMarkers realRange store body db)) = row :: rows db
               /\ rowValues row
                  = [("title", t); ("description", JNull); ("latitude", x);
                     ("longitude", y); ("color", JStr "#3b82f6")]
         | _, _, _ =>
             postMarkers realRange store body db
             = (ReplyError 500 "Failed to create marker", db)
         end).
Proof.
  split; [|split].
  - intros members H. unfold postMarkers.
    now rewrite (parse_needs_coordinates realRange members H).
  - intros body. unfold postMarkers.
    destruct (parse realRange insertMarkerSchema body) as [data|]; [|reflexivity].
    destruct (createMarker store data db) as [[marker db']|]; simpl; discriminate.
  - intros title la lo Hla Hlo body. subst body. unfold postMarkers.
    rewrite insertMarkerSchema_fields.
    cbn [parse parseMembers member find fst snd String.eqb Ascii.eqb Bool.eqb option_map
         optional accepts ztype nullable].
    rewrite Hla, Hlo. cbn [option_map].
    unfold createMarker.
    cbn [dataColumns markers filter existsb negb fst snd String.eqb Ascii.eqb Bool.eqb
         orb insertValues member find option_map written notNull literalDefault kind].
    destruct (store PgText (JStr title)) as [t|]; [|reflexivity].
    destruct (store PgReal (JNum la)) as [x|]; [|reflexivity].
    destruct (store PgReal (JNum lo)) as [y|]; [|reflexivity].
    eexists. repeat split.
Qed.

Lemma postMarkers_validates_type_not_range_witness :
  let db := {| rows := []; inserted := 0; clock := 0 |} in
  postMarkers int24 postgres
              (JObj [("title", JStr "Oran"); ("latitude", JStr "35.5");
                     ("longitude", JNum (- (3 # 4)))]) db
  = (ReplyError 400 "Invalid marker data", db)
  /\ (exists row,
         fst (postMarkers int24 postgres
                (JObj [("title", JStr "Oran"); ("latitude", JNum (71 # 2));
                       ("longitude", JNum (- (3 # 4)))]) db) = ReplyMarker 201 row
         /\ rowValues row
            = [("title", JStr "Oran"); ("description", JNull); ("latitude", JNum (71 # 2));
               ("longitude", JNum (- (3 # 4))); ("color", JStr "#3b82f6")])
  /\ postMarkers int24 postgres
                 (JObj [("title", JStr "Oran"); ("latitude", JNum (71 # 2));
                        ("longitude", JNum tiny)]) db
     = (ReplyError 500 "Failed to create marker", db).
Proof.
  intros db.
  destruct (postMarkers_validates_type_not_range int24 postgres db) as (A & _ & C).
  assert (E1 : postgres PgText (JStr "Oran") = Some (JStr "Oran"))
    by (vm_compute; reflexivity).
  assert (E2 : postgres PgReal (JNum (71 # 2)) = Some (JNum (71 # 2)))
    by (vm_compute; reflexivity).
  assert (E3 : postgres PgReal (JNum (- (3 # 4))) = Some (JNum (- (3 # 4))))
    by (vm_compute; reflexivity).
  assert (E4 : postgres PgReal (JNum tiny) = None) by (vm_compute; reflexivity).
  assert (I : int24 tiny = true) by (vm_compute; reflexivity).
  split; [|split].
  - apply A. left. reflexivity.
  - pose proof (C "Oran" (71 # 2) (- (3 # 4)) eq_refl eq_refl) as H.
    cbv zeta in H. rewrite E1, E2, E3 in H.
    destruct H as (row & R & _ & V). exists row. split; [exact R|exact V].
  - pose proof (C "Oran" (71 # 2) tiny eq_refl I) as H.
    cbv zeta in H. rewrite E1, E2, E4 in H. exact H.
Defined.

(** C8 as stated fails: latitude 91 and longitude 181 pass validation and
    are stored, whichever of the two ranges the library applies. *)
Lemma postMarkers_accepts_out_of_range :
  let db := {| rows := []; inserted := 0; clock := 0 |} in
  let body := JObj [("title", JStr "Nowhere"); ("latitude", JNum (inject_Z 91));
                    ("longitude", JNum (inject_Z 181))] in
  (status (fst (postMarkers anyNumber postgres body db)) = 201%nat
   /\ length (rows (snd (postMarkers anyNumber postgres body db))) = 1%nat)
  /\ (status (fst (postMarkers int24 postgres body db)) = 201%nat
      /\ length (rows (snd (postMarkers int24 postgres body db))) = 1%nat).
Proof. vm_compute. repeat split. Qed.

End CreatingMarkers.

(** ** Routes without a geometry *)

Lemma displayRoute_undrawable (w : World) (entry : nat * Route) :
  drawable (snd entry) = None -> displayRoute w entry = w.
Proof. destruct entry as [i r]. simpl. unfold displayRoute. now intros ->. Qed.

Lemma displayRoutes_undrawable (entries : list (nat * Route)) (w : World) :
  (forall e, In e entries -> drawable (snd e) = None) ->
  fold_left displayRoute entries w = w.
Proof.
  revert w; induction entries as [|e rest IH]; intros w H; simpl; [reflexivity|].
  rewrite displayRoute_undrawable by (apply H; now left).
  apply IH. intros e' He'. apply H. now right.
Qed.

Lemma displayRoutesOnMap_undrawable (cap : View) (routes : list Route) (w : World) :
  (forall r, In r routes -> drawable r = None) ->
  displayRoutesOnMap cap routes w = clearRouteLayersFromMap cap w.
Proof.
  intros H. unfold displayRoutesOnMap.
  destruct (map_current w) eqn:E.
  - apply displayRoutes_undrawable. intros [i r] He. apply H.
    unfold indexed in He. now apply in_combine_r in He.
  - now rewrite clearRouteLayersFromMap_none.
Qed.

Lemma truthy_trim_nonempty (s : string) :
  Js.truthy (Js.trim s) = true -> Nat.leb 1 (String.length s) = true.
Proof. destruct s; [discriminate|reflexivity]. Qed.

(** The server's answer to a request the client's guard lets through:
    the two mocked routes, none of which has a [geometry] member. *)
Lemma backend_mock (r : SearchRequest) :
  Nat.leb 1 (String.length (reqStart r)) = true ->
  Nat.leb 1 (String.length (reqEnd r)) = true ->
  reqMode r = "transit" ->
  backend r
  = FetchResponse true
      (Some (map received
               (Server.mockRoutes {| Server.start := reqStart r; Server.end_ := reqEnd r;
                                     Server.mode := "transit" |}))).
Proof.
  intros Hs He Hm. unfold backend, Server.postRoutesSearch, Server.routeSearchSchema_parse.
  unfold searchBody. rewrite Hm.
  change (Server.member "start" _) with (Some (Server.JStr (reqStart r))).
  change (Server.member "end" _) with (Some (Server.JStr (reqEnd r))).
  change (Server.member "mode" _) with (Some (Server.JStr "transit")).
  cbv beta iota. rewrite Hs, He. reflexivity.
Qed.

Lemma received_undrawable (routes : list Server.RouteResult) (r : Route) :
  In r (map received routes) -> drawable r = None.
Proof. intros H. apply in_map_iff in H as (x & <- & _). reflexivity. Qed.

Lemma mockRoutes_shape (sd : Server.RouteSearchRequest) :
  exists r1 r2,
    map received (Server.mockRoutes sd) = [r1; r2]
    /\ bounds r1 = Some Server.oranBounds.
Proof. do 2 eexists. split; reflexivity. Qed.

(** C10. [displayRoutesOnMap] draws nothing for a route without a
    geometry with coordinates: given only such routes it does what
    [clearRouteLayersFromMap] does.  The routes of this repository's
    /api/routes/search are all of that kind, so a search that succeeds
    against it stores the two mocked routes and leaves no route layer and
    no route source on the map. *)
Theorem mock_search_renders_no_overlay (cap : View) (w : World) :
  Js.truthy (Js.trim (startLocation cap)) = true ->
  Js.truthy (Js.trim (endLocation cap)) = true ->
  let request := {| reqStart := startLocation cap; reqEnd := endLocation cap;
                    reqMode := "transit" |} in
  let w' := searchBusRoutes_resume cap (backend request) (searchBusRoutes_begin cap w) in
  (forall cap' routes w0,
      (forall r, In r routes -> drawable r = None) ->
      displayRoutesOnMap cap' routes w0 = clearRouteLayersFromMap cap' w0)
  /\ fetched (searchBusRoutes_begin cap w) = fetched w ++ [request]
  /\ (exists routes,
         backend request = FetchResponse true (Some routes)
         /\ length routes = 2%nat
         /\ (forall r, In r routes -> drawable r = None)
         /\ routeResults (view w') = routes)
  /\ onTheMap routeLayers w' = []
  /\ (onTheMap (fun m => [styleOk m]) w = [true] -> onTheMap routeSources w' = []).
Proof.
  intros Hs He request w'.
  split; [exact displayRoutesOnMap_undrawable|].
  set (sd := {| Server.start := startLocation cap; Server.end_ := endLocation cap;
                Server.mode := "transit" |}).
  assert (B : backend request = FetchResponse true (Some (map received (Server.mockRoutes sd)))).
  { apply backend_mock; [now apply truthy_trim_nonempty.. | reflexivity]. }
  assert (U : forall r, In r (map received (Server.mockRoutes sd)) -> drawable r = None)
    by apply received_undrawable.
  destruct (mockRoutes_shape sd) as (r1 & r2 & Sh & Bd).
  subst w'. rewrite B, (searchBusRoutes_begin_sends cap w Hs He). fold request.
  set (w0 := fetch request cap (put setRouteResults [] (put setIsLoadingRoute true w))).
  rewrite Sh in *.
  assert (R : searchBusRoutes_resume cap (FetchResponse true (Some [r1; r2])) w0
              = put setIsLoadingRoute false
                  (settle
                     (onMap (Mapbox.fitBounds Server.oranBounds)
                        (clearRouteLayersFromMap cap (put setRouteResults [r1; r2] w0))))).
  { unfold searchBusRoutes_resume. cbv beta iota zeta.
    now rewrite Bd, (displayRoutesOnMap_undrawable cap [r1; r2] _ U). }
  rewrite R. clear R.
  destruct (clearRouteLayersFromMap_world cap (put setRouteResults [r1; r2] w0))
    as (V & L & S & _).
  set (w1 := clearRouteLayersFromMap cap (put setRouteResults [r1; r2] w0)) in *.
  split; [reflexivity|].
  split; [|split].
  - exists [r1; r2]. split; [reflexivity|]. split; [reflexivity|]. split; [exact U|].
    world. destruct V as [-> | ->]; reflexivity.
  - rewrite <- L. unfold onTheMap. world.
    destruct (map_current w1); reflexivity.
  - intros Ok. rewrite <- (S Ok). unfold onTheMap. world.
    destruct (map_current w1); reflexivity.
Qed.

Lemma mock_search_renders_no_overlay_witness :
  let w := afterOneSearch in
  let request := {| reqStart := "A"; reqEnd := "B"; reqMode := "transit" |} in
  let w' := searchBusRoutes_resume (view w) (backend request)
              (searchBusRoutes_begin (view w) w) in
  onTheMap routeLayers w = [layerOf 0]
  /\ onTheMap routeLayers w' = []
  /\ onTheMap routeSources w' = [].
Proof.
  intros w request w'. split; [reflexivity|].
  destruct (mock_search_renders_no_overlay (view w) w) as (_ & _ & _ & L & S);
    try reflexivity.
  split; [exact L | apply S; reflexivity].
Defined.

(** ** The [clickMode] effect *)

Lemma rerender_same (w : World) :
  clickMode (view w) = effectMode w ->
  rerender w = setEffect (S (renders w)) (effectMode w) (effectHandler w) w.
Proof.
  intros E. unfold rerender. rewrite E.
  now destruct (effectMode w).
Qed.

Lemma rerender_nomap (w : World) :
  map_current w = None ->
  map_current (rerender w) = None.
Proof.
  intros E. unfold rerender, clickModeEffect, clickModeCleanup.
  destruct (ClickMode_eqb _ _); world; rewrite ?E; [reflexivity|].
  cbn [option_map]. cbv iota. world. now rewrite E.
Qed.

Lemma rerender_changed (w : World) (m : MapboxMap) :
  map_current w = Some m ->
  ClickMode_eqb (clickMode (view w)) (effectMode w) = false ->
  let h := handlerOf w in
  exists m',
    map_current (rerender w) = Some m'
    /\ listeners m'
       = (let hs := Mapbox.removeFirst h (Mapbox.removeFirst (effectHandler w) (listeners m)) in
          if picking (clickMode (view w)) then hs ++ [h] else hs)
    /\ calls m' = calls m ++ effectCalls (effectHandler w) h
    /\ layers m' = layers m /\ sources m' = sources m
    /\ markers m' = markers m /\ markerCount m' = markerCount m
    /\ effectMode (rerender w) = clickMode (view w)
    /\ effectHandler (rerender w) = h
    /\ renders (rerender w) = S (renders w).
Proof.
  intros E N h. unfold rerender. rewrite N. fold (handlerOf w). fold h.
  unfold clickModeCleanup, clickModeEffect. world. rewrite E. cbv beta iota zeta.
  unfold effectCalls. change (captured h) with (view w).
  destruct (picking (clickMode (view w))); eexists; (split; [reflexivity|]);
    simpl; rewrite <- ?app_assoc; repeat split.
Qed.

(** ** Picking the start endpoint *)

Lemma addStartMarker_some (cap : View) (coordinates : LngLat) (w : World) (m : MapboxMap) :
  map_current w = Some m ->
  exists m',
    addStartMarker cap coordinates w
    = put setStartMarker (Some (startPin m coordinates)) (setMap (Some m') w)
    /\ markers m' = without (startMarker cap) (markers m) ++ [startPin m coordinates]
    /\ markerCount m' = S (markerCount m)
    /\ listeners m' = listeners m /\ layers m' = layers m /\ sources m' = sources m
    /\ calls m' = calls m.
Proof.
  intros E. unfold addStartMarker. rewrite E.
  destruct (startMarker cap) as [old|]; unfold markerRemove;
    rewrite ?map_current_onMap, E; cbn [option_map]; cbv beta iota zeta;
    unfold Mapbox.newMarker; cbv beta iota zeta;
    eexists; (split; [apply world_ext; world; reflexivity|]);
    repeat split.
Qed.

Lemma handleLocationClick_start (cap : View) (coordinates : LngLat) (w : World) :
  clickMode cap = ModeStart ->
  handleLocationClick cap coordinates w
  = put setClickMode ModeNone
      (addStartMarker cap coordinates
         (put setStartLocation (coordsText coordinates)
            (put setStartCoords
               (Some {| lng := lng coordinates; lat := lat coordinates |}) w))).
Proof. intros E. unfold handleLocationClick. now rewrite E. Qed.

(** [toFixed] on a window around a value. *)
Lemma Qfloor_between (y : Q) (n : Z) :
  inject_Z n <= y -> y < inject_Z (n + 1) -> Qfloor y = n.
Proof.
  intros Lo Hi.
  assert (A : (n <= Qfloor y)%Z).
  { rewrite <- (Qfloor_Z n). now apply Qfloor_resp_le. }
  assert (B : (Qfloor y < n + 1)%Z).
  { rewrite Zlt_Qlt. eapply Qle_lt_trans; [apply Qfloor_le|exact Hi]. }
  lia.
Qed.

Lemma toFixed_nonneg (x : Q) (f : nat) (n : Z) :
  0 <= x ->
  inject_Z n <= x * inject_Z (10 ^ Z.of_nat f) + (1 # 2) ->
  x * inject_Z (10 ^ Z.of_nat f) + (1 # 2) < inject_Z (n + 1) ->
  Js.toFixed x f = Js.pointed n f.
Proof.
  intros P Lo Hi. unfold Js.toFixed.
  destruct (Qcompare x 0) eqn:C.
  - cbv zeta. now rewrite (Qfloor_between _ n Lo Hi).
  - apply Qlt_alt in C. lra.
  - cbv zeta. now rewrite (Qfloor_between _ n Lo Hi).
Qed.

Lemma toFixed_neg (x : Q) (f : nat) (n : Z) :
  x < 0 ->
  inject_Z n <= - x * inject_Z (10 ^ Z.of_nat f) + (1 # 2) ->
  - x * inject_Z (10 ^ Z.of_nat f) + (1 # 2) < inject_Z (n + 1) ->
  Js.toFixed x f = ("-" ++ Js.pointed n f)%string.
Proof.
  intros P Lo Hi. unfold Js.toFixed.
  destruct (Qcompare x 0) eqn:C.
  - apply Qeq_alt in C. lra.
  - cbv zeta. now rewrite (Qfloor_between _ n Lo Hi).
  - apply Qgt_alt in C. lra.
Qed.

Lemma coordsText_scenario (c : LngLat) :
  near_35_70 (lat c) -> near_minus_0_63 (lng c) ->
  coordsText c = "35.7000, -0.6300".
Proof.
  intros [A B] [C D]. unfold coordsText.
  rewrite (toFixed_nonneg (lat c) 4 357000), (toFixed_neg (lng c) 4 6300);
    try reflexivity;
    change (inject_Z (10 ^ Z.of_nat 4)) with (10000 # 1);
    unfold inject_Z; simpl Z.add; lra.
Qed.

Lemma removeFirst_self (h : Listener) : Mapbox.removeFirst h [h] = [].
Proof. simpl. unfold Mapbox.sameListener. now rewrite Nat.eqb_refl. Qed.

(** C5. In a world at rest in mode ['none'] (no picking listener bound),
    with the route panel shown, pressing 'Set on map' for the start and
    then clicking the map at a point whose latitude prints as 35.7000 and
    whose longitude prints as -0.6300 (the point lng = -0.63, lat = 35.70
    is one) stores exactly those coordinates, sets the start text to
    "35.7000, -0.6300" (latitude first), and returns the mode to ['none']
    with the picking listener unbound.  The map then carries the markers
    it had, minus the previous start marker, plus one new green marker at
    the clicked point, which the state holds as the start marker; when
    the only green marker before was the previous start marker, it is
    the only green marker now. *)
Theorem picking_start_sets_endpoint (w : World) (m : MapboxMap) (c : LngLat) :
  map_current w = Some m ->
  showRoutePanel (view w) = true ->
  clickMode (view w) = ModeNone ->
  effectMode w = ModeNone ->
  listeners m = [] ->
  near_35_70 (lat c) -> near_minus_0_63 (lng c) ->
  let w' := run [ClickSetStart; MapClick c] w in
  let pin := startPin m c in
  startCoords (view w') = Some {| lng := lng c; lat := lat c |}
  /\ startLocation (view w') = "35.7000, -0.6300"
  /\ clickMode (view w') = ModeNone
  /\ onTheMap listeners w' = []
  /\ startMarker (view w') = Some pin
  /\ color pin = "#10b981" /\ lngLat pin = {| lng := lng c; lat := lat c |}
  /\ onTheMap markers w' = without (startMarker (view w)) (markers m) ++ [pin]
  /\ (filter (fun x => String.eqb (color x) green) (markers m)
      = match startMarker (view w) with Some old => [old] | None => [] end ->
      filter (fun x => String.eqb (color x) green) (onTheMap markers w') = [pin]).
Proof.
  intros E P N EM L Hlat Hlng w' pin.
  (* the button *)
  set (d1 := put setClickMode ModeStart w).
  assert (D1 : dispatch ClickSetStart w = d1).
  { unfold dispatch, onClickSetStart. now rewrite P, N. }
  destruct (rerender_changed d1 m) as (m1 & E1 & L1 & _ & _ & _ & M1 & C1 & EM1 & EH1 & _).
  { exact E. }
  { change (effectMode d1) with (effectMode w). now rewrite EM. }
  change (listeners m1 = Mapbox.removeFirst (handlerOf d1)
                           (Mapbox.removeFirst (effectHandler d1) (listeners m))
                         ++ [handlerOf d1]) in L1.
  rewrite L in L1. simpl in L1.
  set (w1 := rerender d1) in *.
  (* the click *)
  set (cap := view d1).
  set (d2 := put setClickMode ModeNone
               (addStartMarker cap c
                  (put setStartLocation (coordsText c)
                     (put setStartCoords (Some {| lng := lng c; lat := lat c |}) w1)))).
  assert (D2 : dispatch (MapClick c) w1 = d2).
  { unfold dispatch. rewrite E1, L1. simpl fold_left.
    now rewrite handleLocationClick_start. }
  destruct (addStartMarker_some cap c
              (put setStartLocation (coordsText c)
                 (put setStartCoords (Some {| lng := lng c; lat := lat c |}) w1)) m1 E1)
    as (m2 & A & M2 & _ & L2 & _).
  assert (Pin : startPin m1 c = pin) by (unfold pin, startPin; now rewrite C1).
  rewrite Pin, M1 in M2. rewrite Pin in A. rewrite L1 in L2.
  assert (V1 : view w1 = view d1) by apply rerender_view.
  assert (E2 : map_current d2 = Some m2) by (unfold d2; now rewrite A).
  destruct (rerender_changed d2 m2 E2) as (m3 & E3 & L3 & _ & _ & _ & M3 & _).
  { unfold d2. rewrite A. change (ClickMode_eqb ModeNone (effectMode w1) = false).
    now rewrite EM1. }
  assert (EH2 : effectHandler d2 = handlerOf d1) by (unfold d2; now rewrite A).
  assert (CM2 : clickMode (view d2) = ModeNone) by reflexivity.
  rewrite CM2, L2, EH2, removeFirst_self in L3. simpl in L3.
  assert (W : w' = rerender d2).
  { unfold w', run. simpl fold_left. unfold step. rewrite D1. fold w1. now rewrite D2. }
  assert (V : view w' = view d2) by (rewrite W; apply rerender_view).
  assert (Mk : onTheMap markers w' = without (startMarker (view w)) (markers m) ++ [pin]).
  { unfold onTheMap. rewrite W, E3, M3, M2. reflexivity. }
  rewrite V. unfold d2 at 1 2 3 4. rewrite A. world.
  split; [now rewrite V1|]. split; [now apply coordsText_scenario|].
  split; [reflexivity|]. split; [unfold onTheMap; now rewrite W, E3|].
  split; [reflexivity|]. split; [reflexivity|]. split; [reflexivity|].
  split; [exact Mk|].
  intros G. rewrite Mk, filter_app. simpl.
  replace (filter _ (without (startMarker (view w)) (markers m))) with (@nil Marker);
    [reflexivity|].
  unfold without. destruct (startMarker (view w)) as [old|].
  - rewrite filter_swap, G. simpl. now rewrite Nat.eqb_refl.
  - now rewrite G.
Qed.

(** Picking the start again, in a state that already has a start marker:
    the click of Scenario C replaces it. *)
Lemma picking_start_sets_endpoint_witness :
  let w := afterPickingStart in
  let w' := run [ClickSetStart; MapClick scenarioClick] w in
  length (onTheMap markers w) = 1%nat
  /\ startCoords (view w') = Some scenarioClick
  /\ startLocation (view w') = "35.7000, -0.6300"
  /\ clickMode (view w') = ModeNone
  /\ map color (onTheMap markers w') = ["#10b981"].
Proof.
  intros w w'.
  pose (m := match map_current afterPickingStart with
             | Some m => m
             | None => newMap [] []
             end).
  assert (E : map_current w = Some m) by (vm_compute; reflexivity).
  destruct (picking_start_sets_endpoint w m scenarioClick E) as (A & B & C & _ & _ & _ & _ & D & F).
  - vm_compute; reflexivity.
  - vm_compute; reflexivity.
  - vm_compute; reflexivity.
  - vm_compute; reflexivity.
  - split; [vm_compute; discriminate | vm_compute; reflexivity].
  - split; [vm_compute; reflexivity | vm_compute; discriminate].
  - split; [vm_compute; reflexivity|]. split; [exact A|]. split; [exact B|]. split; [exact C|].
    unfold w'. rewrite D. vm_compute. reflexivity.
Defined.

(** ** Route overlays: identifiers *)

Lemma ofNat_inj (i j : nat) : Js.ofNat i = Js.ofNat j -> i = j.
Proof.
  unfold Js.ofNat. intros H.
  apply DecimalNat.Unsigned.to_uint_inj.
  assert (S : Some (Nat.to_uint i) = Some (Nat.to_uint j))
    by (rewrite <- !NilEmpty.usu; now rewrite H).
  now injection S.
Qed.

Lemma sourceIdOf_inj (i j : nat) : sourceIdOf i = sourceIdOf j -> i = j.
Proof. unfold sourceIdOf. simpl. intros H. apply ofNat_inj. now injection H. Qed.

Lemma layerIdOf_inj (i j : nat) : layerIdOf i = layerIdOf j -> i = j.
Proof. unfold layerIdOf. simpl. intros H. apply ofNat_inj. now injection H. Qed.

Lemma prefix_append (p s : string) : String.prefix p (p ++ s)%string = true.
Proof.
  induction p as [|a p IH]; simpl.
  - now destruct s.
  - destruct (ascii_dec a a) as [_|N]; [exact IH|now elim N].
Qed.

Lemma layerIdOf_route (i : nat) : isRouteLayerId (layerIdOf i) = true.
Proof.
  unfold isRouteLayerId, layerIdOf, Js.startsWith. now rewrite prefix_append.
Qed.

Lemma sourceIdOf_route (i : nat) : isRouteSourceId (sourceIdOf i) = true.
Proof. unfold isRouteSourceId, sourceIdOf, Js.startsWith. apply prefix_append. Qed.

Lemma layerOf_route (i : nat) : isRouteLayer (layerOf i) = true.
Proof. apply layerIdOf_route. Qed.

(** ** Route overlays: drawing *)

Lemma setActiveRouteHandlers_same (v : View) :
  setActiveRouteHandlers v (activeRouteHandlers v) = v.
Proof. now destruct v. Qed.

Lemma setActiveRouteHandlers_twice (v : View) (a b : list string) :
  setActiveRouteHandlers (setActiveRouteHandlers v a) b = setActiveRouteHandlers v b.
Proof. reflexivity. Qed.

Lemma activeRouteHandlers_set (v : View) (a : list string) :
  activeRouteHandlers (setActiveRouteHandlers v a) = a.
Proof. reflexivity. Qed.

Lemma track_nil (w : World) : track [] w = w.
Proof.
  unfold track. apply world_ext; world; try reflexivity.
  rewrite app_nil_r. apply setActiveRouteHandlers_same.
Qed.

(** One iteration of the loop for a route with a geometry whose ids are
    free on the map. *)
Lemma displayRoute_drawable (w : World) (m : MapboxMap) (i : nat) (r : Route) (g : Geometry) :
  map_current w = Some m ->
  drawable r = Some g ->
  Mapbox.getSource (sourceIdOf i) m = false ->
  Mapbox.getLayer (layerIdOf i) m = false ->
  exists m',
    displayRoute w (i, r) = track [layerIdOf i] (setMap (Some m') w)
    /\ layers m' = layers m ++ [layerOf i]
    /\ sources m' = sources m ++ [(sourceIdOf i, sourceOf i r g)]
    /\ calls m' = calls m ++ addCalls (i, r, g)
    /\ listeners m' = listeners m /\ markers m' = markers m
    /\ markerCount m' = markerCount m /\ cursor m' = cursor m.
Proof.
  intros E D S L. unfold displayRoute. rewrite D, E, S. cbv beta iota zeta.
  cbn [negb].
  assert (L' : Mapbox.getLayer (layerIdOf i)
                 (Mapbox.addSource (sourceIdOf i) (sourceOf i r g) m) = false)
    by exact L.
  rewrite L'. cbn [negb]. eexists. split; [reflexivity|].
  simpl. rewrite <- !app_assoc. repeat split.
Qed.

Lemma getSource_app (i : string) (m : MapboxMap) (ss extra : list (string * Source)) :
  sources m = ss ++ extra ->
  Mapbox.getSource i m
  = existsb (fun s => String.eqb (fst s) i) ss || existsb (fun s => String.eqb (fst s) i) extra.
Proof. unfold Mapbox.getSource. intros ->. apply existsb_app. Qed.

Lemma getLayer_app (i : string) (m : MapboxMap) (ls extra : list Layer) :
  layers m = ls ++ extra ->
  Mapbox.getLayer i m
  = existsb (fun l => String.eqb (id l) i) ls || existsb (fun l => String.eqb (id l) i) extra.
Proof. unfold Mapbox.getLayer. intros ->. apply existsb_app. Qed.

Lemma eqb_sourceIdOf (i j : nat) : i <> j -> String.eqb (sourceIdOf i) (sourceIdOf j) = false.
Proof. intros N. apply String.eqb_neq. intros E. now apply N, sourceIdOf_inj. Qed.

Lemma eqb_layerIdOf (i j : nat) : i <> j -> String.eqb (layerIdOf i) (layerIdOf j) = false.
Proof. intros N. apply String.eqb_neq. intros E. now apply N, layerIdOf_inj. Qed.

(** The whole loop, for entries with distinct indices whose ids are free
    on the map: one source, one layer and three handlers per route with
    a geometry, in the order of the routes. *)
Lemma displayRoutes_fold (entries : list (nat * Route)) :
  forall (w : World) (m : MapboxMap),
    map_current w = Some m ->
    NoDup (map fst entries) ->
    (forall i, In i (map fst entries) ->
               Mapbox.getSource (sourceIdOf i) m = false
               /\ Mapbox.getLayer (layerIdOf i) m = false) ->
    exists m',
      fold_left displayRoute entries w
      = track (map layerIdOf (map indexOf (drawnOf entries))) (setMap (Some m') w)
      /\ layers m' = layers m ++ map layerFor (drawnOf entries)
      /\ sources m' = sources m ++ map sourceFor (drawnOf entries)
      /\ calls m' = calls m ++ flat_map addCalls (drawnOf entries)
      /\ listeners m' = listeners m /\ markers m' = markers m
      /\ markerCount m' = markerCount m /\ cursor m' = cursor m.
Proof.
  induction entries as [|[i r] rest IH]; intros w m E ND Free.
  - exists m. simpl. rewrite track_nil, !app_nil_r. repeat split.
    apply world_ext; world; try reflexivity. now rewrite E.
  - simpl in ND. apply NoDup_cons_iff in ND as [Ni ND].
    cbn [fold_left]. unfold drawnOf. cbn [flat_map snd fst]. fold (drawnOf rest).
    destruct (drawable r) as [g|] eqn:D.
    + destruct (Free i (or_introl eq_refl)) as [Fs Fl].
      destruct (displayRoute_drawable w m i r g E D Fs Fl)
        as (m1 & -> & L1 & S1 & C1 & H1 & M1 & N1 & K1).
      destruct (IH (track [layerIdOf i] (setMap (Some m1) w)) m1) as
          (m' & -> & L & S & C & H & M & N & K).
      * reflexivity.
      * exact ND.
      * intros j Hj. destruct (Free j (or_intror Hj)) as [Gs Gl].
        assert (Nij : i <> j) by (intros ->; contradiction).
        rewrite (getSource_app _ m1 _ _ S1), (getLayer_app _ m1 _ _ L1).
        fold (Mapbox.getSource (sourceIdOf j) m). fold (Mapbox.getLayer (layerIdOf j) m).
        rewrite Gs, Gl. cbn [existsb orb fst].
        change (id (layerOf i)) with (layerIdOf i).
        now rewrite (eqb_sourceIdOf i j Nij), (eqb_layerIdOf i j Nij).
      * exists m'. split.
        { apply world_ext; unfold track; world; try reflexivity.
          rewrite setActiveRouteHandlers_twice, activeRouteHandlers_set.
          cbn [app map indexOf fst]. rewrite <- app_assoc. reflexivity. }
        cbn [app map]. rewrite L, S, C, L1, S1, C1, <- !app_assoc.
        repeat split; congruence.
    + rewrite displayRoute_undrawable by exact D.
      apply (IH w m E ND). intros j Hj. apply Free. now right.
Qed.

Lemma indexed_indices {A} (l : list A) : map fst (indexed l) = seq 0 (length l).
Proof.
  unfold indexed. generalize 0%nat. induction l as [|a l IH]; intros k; simpl.
  - reflexivity.
  - now rewrite IH.
Qed.

Lemma drawn_indexed (routes : list Route) : drawn routes = drawnOf (indexed routes).
Proof. reflexivity. Qed.

Lemma no_route_source_left (i : nat) (m : MapboxMap) (ss : list (string * Source)) :
  sources m = filter (fun s => negb (isRouteSource s)) ss ->
  Mapbox.getSource (sourceIdOf i) m = false.
Proof.
  intros E. unfold Mapbox.getSource. rewrite E.
  apply Bool.not_true_iff_false. intros X.
  apply existsb_exists in X as (s & Hs & Es).
  apply filter_In in Hs as [_ N]. apply String.eqb_eq in Es.
  change (isRouteSource s) with (isRouteSourceId (fst s)) in N.
  rewrite Es, sourceIdOf_route in N. discriminate.
Qed.

Lemma no_route_layer_left (i : nat) (m : MapboxMap) (ls : list Layer) :
  layers m = filter (fun l => negb (isRouteLayer l)) ls ->
  Mapbox.getLayer (layerIdOf i) m = false.
Proof.
  intros E. unfold Mapbox.getLayer. rewrite E.
  apply Bool.not_true_iff_false. intros X.
  apply existsb_exists in X as (l & Hl & El).
  apply filter_In in Hl as [_ N]. apply String.eqb_eq in El.
  rewrite isRouteLayer_id, El, layerIdOf_route in N. discriminate.
Qed.

(** [displayRoutesOnMap] on a live map whose style is [styleOk]: the
    previous route overlays are gone and one overlay per route with a
    geometry is there; the calls come in the order off, remove layers,
    remove sources, add. *)
Lemma displayRoutesOnMap_some (cap : View) (routes : list Route) (w : World) (m : MapboxMap) :
  map_current w = Some m ->
  styleOk m = true ->
  exists m' removedLayers removedSources,
    displayRoutesOnMap cap routes w
    = setMap (Some m')
        (put setActiveRouteHandlers (map layerIdOf (map indexOf (drawn routes))) w)
    /\ layers m' = filter (fun l => negb (isRouteLayer l)) (layers m)
                   ++ map layerFor (drawn routes)
    /\ sources m' = filter (fun s => negb (isRouteSource s)) (sources m)
                    ++ map sourceFor (drawn routes)
    /\ calls m' = calls m
                  ++ flat_map detachCalls
                       (filter (fun i => Mapbox.getLayer i m) (activeRouteHandlers cap))
                  ++ removedLayers ++ removedSources
                  ++ flat_map addCalls (drawn routes)
    /\ Forall isRemoveLayerCall removedLayers
    /\ Forall isRemoveSourceCall removedSources
    /\ listeners m' = listeners m /\ markers m' = markers m
    /\ markerCount m' = markerCount m /\ cursor m' = cursor m.
Proof.
  intros E Ok. unfold displayRoutesOnMap. rewrite E.
  destruct (clearRouteLayersFromMap_some cap w m E)
    as (mc & -> & Lc & Sc & Hc & Mc & Nc & Kc & rls & rss & Cc & Pl & Ps).
  specialize (Sc Ok).
  destruct (displayRoutes_fold (indexed routes)
              (setMap (Some mc) (put setActiveRouteHandlers [] w)) mc)
    as (m' & -> & L & S & C & H & M & N & K).
  - reflexivity.
  - rewrite indexed_indices. apply seq_NoDup.
  - intros i _. split.
    + eapply no_route_source_left; eassumption.
    + eapply no_route_layer_left; eassumption.
  - exists m', rls, rss. rewrite <- drawn_indexed in *.
    split; [apply world_ext; unfold track; world; reflexivity|].
    split; [congruence|]. split; [congruence|].
    split; [rewrite C, Cc, <- !app_assoc; reflexivity|].
    repeat split; congruence.
Qed.

Lemma filter_all {A} (p : A -> bool) (l : list A) :
  (forall x, In x l -> p x = true) -> filter p l = l.
Proof. intros H. apply forallb_filter_id. now apply forallb_forall. Qed.

Lemma layerFor_route (ds : list (nat * Route * Geometry)) (l : Layer) :
  In l (map layerFor ds) -> isRouteLayer l = true.
Proof. intros H. apply in_map_iff in H as (d & <- & _). apply layerOf_route. Qed.

Lemma sourceFor_route (ds : list (nat * Route * Geometry)) (s : string * Source) :
  In s (map sourceFor ds) -> isRouteSource s = true.
Proof. intros H. apply in_map_iff in H as (d & <- & _). apply sourceIdOf_route. Qed.

(** Route overlays after a redraw over any previous set. *)
Lemma redrawn_layers (base : list Layer) (ds : list (nat * Route * Geometry)) :
  filter isRouteLayer (filter (fun l => negb (isRouteLayer l)) base ++ map layerFor ds)
  = map layerFor ds.
Proof.
  rewrite filter_app, filter_both, filter_none by (intros l; apply andb_negb_l).
  apply filter_all, layerFor_route.
Qed.

Lemma redrawn_sources (base : list (string * Source)) (ds : list (nat * Route * Geometry)) :
  filter isRouteSource (filter (fun s => negb (isRouteSource s)) base ++ map sourceFor ds)
  = map sourceFor ds.
Proof.
  rewrite filter_app, filter_both, filter_none by (intros s; apply andb_negb_l).
  apply filter_all, sourceFor_route.
Qed.

Lemma styleOk_redrawn (m m' : MapboxMap) (ds : list (nat * Route * Geometry)) :
  styleOk m = true ->
  layers m' = filter (fun l => negb (isRouteLayer l)) (layers m) ++ map layerFor ds ->
  styleOk m' = true.
Proof.
  unfold styleOk. intros Ok ->. rewrite forallb_app. apply andb_true_iff. split.
  - apply forallb_forall. intros l Hl. apply filter_In in Hl as [Hl _].
    rewrite forallb_forall in Ok. now apply Ok.
  - apply forallb_forall. intros l Hl. rewrite (layerFor_route ds l Hl).
    now destruct (isRouteSourceId (source l)).
Qed.

Lemma tracked_layers_exist (m : MapboxMap) (base : list Layer)
      (ds : list (nat * Route * Geometry)) :
  layers m = base ++ map layerFor ds ->
  filter (fun i => Mapbox.getLayer i m) (map layerIdOf (map indexOf ds))
  = map layerIdOf (map indexOf ds).
Proof.
  intros E. apply filter_all. intros i Hi.
  apply in_map_iff in Hi as (k & <- & Hk). apply in_map_iff in Hk as (d & <- & Hd).
  unfold Mapbox.getLayer. rewrite E, existsb_app. apply orb_true_iff. right.
  apply existsb_exists. exists (layerFor d). split; [now apply in_map|].
  apply String.eqb_refl.
Qed.

Lemma drawn_length (routes : list Route) :
  (length (drawn routes) <= length routes)%nat
  /\ ((forall r, In r routes -> drawable r <> None) ->
      length (drawn routes) = length routes).
Proof.
  assert (G : forall entries : list (nat * Route),
             (length (drawnOf entries) <= length entries)%nat
             /\ ((forall e, In e entries -> drawable (snd e) <> None) ->
                 length (drawnOf entries) = length entries)).
  { induction entries as [|[i r] rest [IH1 IH2]]; simpl; [split; auto|].
    destruct (drawable r) eqn:D; simpl; split; try lia.
    - intros H. f_equal. apply IH2. intros e He. apply H. now right.
    - intros H. exfalso. apply (H (i, r)); [now left|exact D]. }
  assert (Len : length (indexed routes) = length routes).
  { unfold indexed. rewrite length_combine, length_seq. apply Nat.min_id. }
  rewrite drawn_indexed. destruct (G (indexed routes)) as [G1 G2]. rewrite Len in *.
  split; [exact G1|]. intros H. apply G2. intros [i r] He. apply H.
  unfold indexed in He. now apply in_combine_r in He.
Qed.

(** C2, as the code has it.  On a live map whose base style is
    [styleOk], [displayRoutesOnMap R1] followed, in the next render, by
    [displayRoutesOnMap R2] leaves on the engine exactly one route layer
    and one route source for each route of [R2] that carries a geometry
    with coordinates (named after the route's index), and nothing of
    [R1]; these are |R2| layers and |R2| sources when every route of [R2]
    has a geometry.  During the replacement the route layers are
    removed before the route sources, and both before the new overlays
    are added; the calls [off(event, layerId)] for the layers drawn for
    [R1] are made before any of this. *)
Theorem displayRoutesOnMap_replaces (cap : View) (R1 R2 : list Route)
        (w : World) (m : MapboxMap) :
  map_current w = Some m ->
  styleOk m = true ->
  let w1 := displayRoutesOnMap cap R1 w in
  let w2 := displayRoutesOnMap (view w1) R2 w1 in
  onTheMap routeLayers w2 = map layerFor (drawn R2)
  /\ onTheMap routeSources w2 = map sourceFor (drawn R2)
  /\ length (onTheMap routeLayers w2) = length (drawn R2)
  /\ length (onTheMap routeSources w2) = length (drawn R2)
  /\ ((forall r, In r R2 -> drawable r <> None) ->
      length (onTheMap routeLayers w2) = length R2
      /\ length (onTheMap routeSources w2) = length R2)
  /\ activeRouteHandlers (view w2) = map layerIdOf (map indexOf (drawn R2))
  /\ exists removedLayers removedSources,
      onTheMap calls w2
      = onTheMap calls w1
        ++ flat_map detachCalls (map layerIdOf (map indexOf (drawn R1)))
        ++ removedLayers ++ removedSources
        ++ flat_map addCalls (drawn R2)
      /\ Forall isRemoveLayerCall removedLayers
      /\ Forall isRemoveSourceCall removedSources.
Proof.
  intros E Ok w1 w2.
  destruct (displayRoutesOnMap_some cap R1 w m E Ok)
    as (m1 & rl1 & rs1 & W1 & L1 & S1 & _).
  assert (E1 : map_current w1 = Some m1) by (unfold w1; now rewrite W1).
  assert (Ok1 : styleOk m1 = true) by (eapply styleOk_redrawn; eassumption).
  assert (T1 : activeRouteHandlers (view w1) = map layerIdOf (map indexOf (drawn R1)))
    by (unfold w1; now rewrite W1).
  destruct (displayRoutesOnMap_some (view w1) R2 w1 m1 E1 Ok1)
    as (m2 & rl2 & rs2 & W2 & L2 & S2 & C2 & Pl & Ps & _).
  assert (E2 : map_current w2 = Some m2) by (unfold w2; now rewrite W2).
  assert (RL : onTheMap routeLayers w2 = map layerFor (drawn R2)).
  { unfold onTheMap, routeLayers. rewrite E2, L2. apply redrawn_layers. }
  assert (RS : onTheMap routeSources w2 = map sourceFor (drawn R2)).
  { unfold onTheMap, routeSources. rewrite E2, S2. apply redrawn_sources. }
  split; [exact RL|]. split; [exact RS|].
  rewrite RL, RS, !length_map.
  split; [reflexivity|]. split; [reflexivity|].
  split; [intros A; split; now apply drawn_length|].
  split; [unfold w2; now rewrite W2|].
  exists rl2, rs2. split; [|split; assumption].
  unfold onTheMap. rewrite E2, E1, C2, T1.
  now rewrite (tracked_layers_exist m1 _ (drawn R1) L1).
Qed.

Lemma displayRoutesOnMap_replaces_witness :
  let w := mount (Some baseMap) in
  let w1 := displayRoutesOnMap (view w) [sampleRoute; sampleRoute] w in
  let w2 := displayRoutesOnMap (view w1) [bareRoute; sampleRoute] w1 in
  map id (onTheMap routeLayers w1) = ["route-layer-0"; "route-layer-1"]
  /\ map id (onTheMap routeLayers w2) = ["route-layer-1"]
  /\ map fst (onTheMap routeSources w2) = ["route-1"]
  /\ map id (onTheMap layers w2) = ["land"; "road"; "route-layer-1"].
Proof.
  intros w w1 w2.
  pose (m := match map_current w with Some m => m | None => baseMap end).
  assert (E : map_current w = Some m) by reflexivity.
  destruct (displayRoutesOnMap_replaces (view w) [sampleRoute; sampleRoute]
              [bareRoute; sampleRoute] w m E) as (L & S & _).
  - reflexivity.
  - split; [reflexivity|]. fold w1 in L, S. fold w2 in L, S.
    split; [now rewrite L|]. split; [now rewrite S|]. reflexivity.
Defined.

(** Scenario B of the specification: a search answered with two routes
    that have a geometry and bounds ends with two route overlays and a
    fit to the bounds of the first route as the last call on the engine. *)
Example search_with_two_drawable_routes :
  let b := {| southwest := {| lng := - (65 # 100); lat := 3569 # 100 |};
              northeast := {| lng := - (62 # 100); lat := 35705 # 1000 |} |} in
  let r := {| duration := "45 min"; distance := "12.5 km"; steps := [];
              bounds := Some b; geometry := geometry sampleRoute |} in
  let w := run [ClickRouteToggle; ChangeStart "35.70,-0.63"; ChangeEnd "35.69,-0.65";
                ClickFindRoutes; FetchSettles (FetchResponse true (Some [r; r]))]
               (mount (Some baseMap)) in
  map id (onTheMap routeLayers w) = ["route-layer-0"; "route-layer-1"]
  /\ map fst (onTheMap routeSources w) = ["route-0"; "route-1"]
  /\ last (onTheMap calls w) (CallFlyTo (southwest b) 0) = CallFitBounds b
  /\ routeResults (view w) = [r; r]
  /\ isLoadingRoute (view w) = false.
Proof. repeat split. Qed.

(** C2 as stated fails: a route without a geometry gets no layer and no
    source, so |R2| overlays are not reached. *)
Lemma displayRoutesOnMap_skips_routes_without_geometry :
  let w := mount (Some baseMap) in
  let R1 := [sampleRoute] in
  let R2 := [bareRoute; sampleRoute] in
  let w1 := displayRoutesOnMap (view w) R1 w in
  let w2 := displayRoutesOnMap (view w1) R2 w1 in
  length (onTheMap routeLayers w2) <> length R2
  /\ length (onTheMap routeSources w2) <> length R2.
Proof. vm_compute. split; discriminate. Qed.

(** ** The picking listener: what leaves it alone *)

Lemma quietMap_refl (m : MapboxMap) : quietMap m m.
Proof. split; [reflexivity|]. exists []. now rewrite app_nil_r. Qed.

Lemma quietMap_trans (a b c : MapboxMap) : quietMap a b -> quietMap b c -> quietMap a c.
Proof.
  intros (L1 & x1 & C1 & F1) (L2 & x2 & C2 & F2). split; [congruence|].
  exists (x1 ++ x2). split.
  - now rewrite C2, C1, app_assoc.
  - now apply Forall_app.
Qed.

Lemma quietMap_calls (m m' : MapboxMap) (extra : list Call) :
  listeners m' = listeners m -> calls m' = calls m ++ extra -> Forall quietCall extra ->
  quietMap m m'.
Proof. intros L C F. split; [exact L|]. now exists extra. Qed.

Lemma Quiet_refl (w : World) : Quiet w w.
Proof.
  repeat split. destruct (map_current w); [apply quietMap_refl|exact I].
Qed.

Lemma Quiet_trans (a b c : World) : Quiet a b -> Quiet b c -> Quiet a c.
Proof.
  intros (M1 & H1 & R1 & Q1) (M2 & H2 & R2 & Q2).
  split; [congruence|]. split; [congruence|]. split; [congruence|].
  destruct (map_current a), (map_current b), (map_current c); try contradiction; auto.
  eapply quietMap_trans; eassumption.
Qed.

Lemma Quiet_updView (f : View -> View) (w : World) : Quiet w (updView f w).
Proof.
  repeat split. world. destruct (map_current w); [apply quietMap_refl|exact I].
Qed.

Lemma Quiet_put {A} (setter : View -> A -> View) (x : A) (w : World) :
  Quiet w (put setter x w).
Proof. apply Quiet_updView. Qed.

Lemma Quiet_consoleLog (s : string) (w : World) : Quiet w (consoleLog s w).
Proof.
  repeat split. world. destruct (map_current w); [apply quietMap_refl|exact I].
Qed.

Lemma Quiet_fetch (r : SearchRequest) (cap : View) (w : World) : Quiet w (fetch r cap w).
Proof.
  repeat split. world. destruct (map_current w); [apply quietMap_refl|exact I].
Qed.

Lemma Quiet_settle (w : World) : Quiet w (settle w).
Proof.
  repeat split. world. destruct (map_current w); [apply quietMap_refl|exact I].
Qed.

Lemma Quiet_onMap (f : MapboxMap -> MapboxMap) (w : World) :
  (forall m, quietMap m (f m)) -> Quiet w (onMap f w).
Proof.
  intros H. unfold Quiet. world. do 3 (split; [reflexivity|]).
  destruct (map_current w); simpl; [apply H|exact I].
Qed.

Lemma Quiet_setMap (m m' : MapboxMap) (w : World) :
  map_current w = Some m -> quietMap m m' -> Quiet w (setMap (Some m') w).
Proof. intros E Q. repeat split. world. now rewrite E. Qed.

Lemma quietMap_log (c : Call) (m : MapboxMap) : quietCall c -> quietMap m (Mapbox.log c m).
Proof.
  intros Q. apply (quietMap_calls m _ [c]); [reflexivity|reflexivity|].
  now constructor.
Qed.

Lemma quietMap_removeMarker (mk : Marker) (m : MapboxMap) :
  quietMap m (Mapbox.removeMarker mk m).
Proof. apply (quietMap_calls m _ []); [reflexivity| |constructor]. now rewrite app_nil_r. Qed.

(** Peel the outermost quiet step off the right-hand world. *)
Ltac quiet_step lemma := eapply Quiet_trans; [|apply lemma].

Ltac quiet_basic :=
  repeat first
    [ apply Quiet_refl
    | quiet_step Quiet_updView
    | quiet_step Quiet_consoleLog
    | quiet_step Quiet_fetch
    | quiet_step Quiet_settle ].

Lemma quiet_detachCalls (ids : list string) : Forall quietCall (flat_map detachCalls ids).
Proof. induction ids as [|i ids IH]; simpl; repeat constructor; exact IH. Qed.

Lemma quiet_removeLayerCalls (cs : list Call) : Forall isRemoveLayerCall cs -> Forall quietCall cs.
Proof. apply Forall_impl. now intros []. Qed.

Lemma quiet_removeSourceCalls (cs : list Call) : Forall isRemoveSourceCall cs -> Forall quietCall cs.
Proof. apply Forall_impl. now intros []. Qed.

Lemma Quiet_clearRouteLayersFromMap (cap : View) (w : World) :
  Quiet w (clearRouteLayersFromMap cap w).
Proof.
  destruct (map_current w) as [m|] eqn:E.
  - destruct (clearRouteLayersFromMap_some cap w m E)
      as (m' & -> & _ & _ & L & _ & _ & _ & rls & rss & C & Pl & Ps).
    apply (Quiet_trans w (put setActiveRouteHandlers [] w)); [apply Quiet_put|].
    apply (Quiet_setMap m m'); [exact E|].
    eapply quietMap_calls; [exact L|exact C|].
    apply Forall_app; split; [apply quiet_detachCalls|].
    apply Forall_app; split;
      [now apply quiet_removeLayerCalls | now apply quiet_removeSourceCalls].
  - rewrite clearRouteLayersFromMap_none by exact E. apply Quiet_refl.
Qed.

Lemma quietMap_addSource (i : string) (d : Source) (m : MapboxMap) :
  quietMap m (Mapbox.addSource i d m).
Proof. apply (quietMap_calls m _ [CallAddSource i]); repeat constructor. Qed.

Lemma quietMap_addLayer (l : Layer) (m : MapboxMap) : quietMap m (Mapbox.addLayer l m).
Proof. apply (quietMap_calls m _ [CallAddLayer (id l)]); repeat constructor. Qed.

Lemma quietMap_onLayer (ev : MapEvent) (i : string) (m : MapboxMap) :
  quietMap m (Mapbox.onLayer ev i m).
Proof. apply (quietMap_calls m _ [CallOnLayer ev i]); repeat constructor. Qed.

Lemma Quiet_displayRoute (w : World) (entry : nat * Route) : Quiet w (displayRoute w entry).
Proof.
  destruct entry as [i r]. unfold displayRoute.
  destruct (drawable r) as [g|]; [|apply Quiet_refl].
  destruct (map_current w) as [m|] eqn:E; [|apply Quiet_refl].
  set (m1 := if negb (Mapbox.getSource (sourceIdOf i) m)
             then Mapbox.addSource (sourceIdOf i) (sourceOf i r g) m else m).
  assert (Q1 : quietMap m m1).
  { subst m1. destruct (negb _); [apply quietMap_addSource|apply quietMap_refl]. }
  cbv zeta. destruct (negb (Mapbox.getLayer (layerIdOf i) m1)).
  - quiet_step Quiet_updView.
    apply (Quiet_setMap m _ w E).
    eapply quietMap_trans; [exact Q1|].
    eapply quietMap_trans; [apply quietMap_addLayer|].
    eapply quietMap_trans; [apply quietMap_onLayer|].
    eapply quietMap_trans; apply quietMap_onLayer.
  - now apply (Quiet_setMap m m1 w E).
Qed.

Lemma Quiet_displayRoutes (entries : list (nat * Route)) (w : World) :
  Quiet w (fold_left displayRoute entries w).
Proof.
  revert w; induction entries as [|e rest IH]; intros w; simpl.
  - apply Quiet_refl.
  - eapply Quiet_trans; [apply Quiet_displayRoute|apply IH].
Qed.

Lemma Quiet_displayRoutesOnMap (cap : View) (routes : list Route) (w : World) :
  Quiet w (displayRoutesOnMap cap routes w).
Proof.
  unfold displayRoutesOnMap. destruct (map_current w); [|apply Quiet_refl].
  quiet_step Quiet_displayRoutes. apply Quiet_clearRouteLayersFromMap.
Qed.

Lemma Quiet_searchBusRoutes_begin (cap : View) (w : World) :
  Quiet w (searchBusRoutes_begin cap w).
Proof.
  unfold searchBusRoutes_begin. destruct (_ || _); cbv zeta; quiet_basic.
Qed.

Lemma Quiet_searchBusRoutes_resume (cap : View) (res : FetchResult) (w : World) :
  Quiet w (searchBusRoutes_resume cap res w).
Proof.
  unfold searchBusRoutes_resume. cbv zeta.
  quiet_step @Quiet_put. quiet_step Quiet_settle.
  destruct res as [|[|] [[|first rest]|]]; quiet_basic.
  assert (F : Quiet w (displayRoutesOnMap cap (first :: rest)
                         (put setRouteResults (first :: rest) w))).
  { quiet_step Quiet_displayRoutesOnMap. quiet_basic. }
  destruct (bounds first); [|exact F].
  eapply Quiet_trans; [exact F|].
  apply Quiet_onMap. intros m. now apply quietMap_log.
Qed.

Lemma Quiet_markerRemove (mk : Marker) (w : World) : Quiet w (markerRemove mk w).
Proof. apply Quiet_onMap. intros m. apply quietMap_removeMarker. Qed.

Lemma quietMap_newMarker (c : string) (p : LngLat) (html : string) (m : MapboxMap) :
  quietMap m (snd (Mapbox.newMarker c p html m)).
Proof. apply (quietMap_calls m _ []); [reflexivity| |constructor]. now rewrite app_nil_r. Qed.

Lemma Quiet_addStartMarker (cap : View) (coordinates : LngLat) (w : World) :
  Quiet w (addStartMarker cap coordinates w).
Proof.
  unfold addStartMarker. destruct (map_current w) eqn:E; [|apply Quiet_refl].
  set (w1 := match startMarker cap with Some mk => markerRemove mk w | None => w end).
  assert (Q1 : Quiet w w1).
  { subst w1. destruct (startMarker cap); [apply Quiet_markerRemove|apply Quiet_refl]. }
  cbv zeta. destruct (map_current w1) as [m1|] eqn:E1; [|exact Q1].
  eapply Quiet_trans; [exact Q1|].
  set (pm := Mapbox.newMarker _ _ _ m1).
  assert (Q2 : quietMap m1 (snd pm)) by apply quietMap_newMarker.
  destruct pm as [mk m2]. quiet_step @Quiet_put. now apply (Quiet_setMap m1 m2).
Qed.

Lemma Quiet_addEndMarker (cap : View) (coordinates : LngLat) (w : World) :
  Quiet w (addEndMarker cap coordinates w).
Proof.
  unfold addEndMarker. destruct (map_current w) eqn:E; [|apply Quiet_refl].
  set (w1 := match endMarker cap with Some mk => markerRemove mk w | None => w end).
  assert (Q1 : Quiet w w1).
  { subst w1. destruct (endMarker cap); [apply Quiet_markerRemove|apply Quiet_refl]. }
  cbv zeta. destruct (map_current w1) as [m1|] eqn:E1; [|exact Q1].
  eapply Quiet_trans; [exact Q1|].
  set (pm := Mapbox.newMarker _ _ _ m1).
  assert (Q2 : quietMap m1 (snd pm)) by apply quietMap_newMarker.
  destruct pm as [mk m2]. quiet_step @Quiet_put. now apply (Quiet_setMap m1 m2).
Qed.

Lemma Quiet_clearLocationMarkers (cap : View) (w : World) :
  Quiet w (clearLocationMarkers cap w).
Proof.
  unfold clearLocationMarkers.
  destruct (startMarker cap), (endMarker cap); cbv beta iota zeta;
    repeat first [ apply Quiet_refl | quiet_step @Quiet_put | quiet_step Quiet_markerRemove ].
Qed.

Lemma Quiet_handleLocationClick (cap : View) (coordinates : LngLat) (w : World) :
  Quiet w (handleLocationClick cap coordinates w).
Proof.
  unfold handleLocationClick.
  destruct (clickMode cap); cbv zeta; [apply Quiet_refl | |].
  - quiet_step @Quiet_put. quiet_step Quiet_addStartMarker. quiet_basic.
  - quiet_step @Quiet_put. quiet_step Quiet_addEndMarker. quiet_basic.
Qed.

Lemma Quiet_clicks (coordinates : LngLat) (hs : list Listener) (w : World) :
  Quiet w (fold_left (fun w h => handleLocationClick (captured h) coordinates w) hs w).
Proof.
  revert w; induction hs as [|h hs IH]; intros w; simpl.
  - apply Quiet_refl.
  - eapply Quiet_trans; [apply Quiet_handleLocationClick|apply IH].
Qed.

Lemma Quiet_handleKeyDown (cap : View) (key : string) (w : World) :
  Quiet w (handleKeyDown cap key w).
Proof.
  unfold handleKeyDown.
  set (w1 := if String.eqb key "Escape" then _ else w).
  assert (Q1 : Quiet w w1).
  { subst w1. destruct (String.eqb key "Escape"); [|apply Quiet_refl]. cbv zeta.
    quiet_step @Quiet_put. quiet_step @Quiet_put.
    quiet_step Quiet_clearRouteLayersFromMap. quiet_basic. }
  cbv zeta.
  set (w2 := if String.eqb key "i" || String.eqb key "I" then _ else w1).
  assert (Q2 : Quiet w1 w2).
  { subst w2. destruct (String.eqb key "i" || String.eqb key "I"); quiet_basic. }
  set (w3 := if String.eqb key "b" || String.eqb key "B" then _ else w2).
  assert (Q3 : Quiet w2 w3).
  { subst w3. destruct (String.eqb key "b" || String.eqb key "B"); quiet_basic. }
  apply (Quiet_trans w w1); [exact Q1|].
  apply (Quiet_trans w1 w2); [exact Q2|].
  apply (Quiet_trans w2 w3); [exact Q3|].
  destruct (String.eqb key "r" || String.eqb key "R"); [|apply Quiet_refl].
  apply Quiet_onMap. intros m. now apply quietMap_log.
Qed.

Lemma shown_nil (w : World) : shown [] w = w.
Proof.
  unfold shown, onMap. destruct (map_current w) as [m|] eqn:E; [|reflexivity].
  apply world_ext; world; try reflexivity. rewrite E. f_equal.
  rewrite app_nil_r, Nat.add_0_r. now destruct m.
Qed.

Lemma shown_cons (d : MarkerData) (ds : list MarkerData) (w : World) (m : MapboxMap) :
  map_current w = Some m ->
  shown ds (setMap (Some (snd (Mapbox.newMarker (savedColor d)
                                 {| lng := longitude d; lat := latitude d |}
                                 (savedPopup d) m))) w)
  = shown (d :: ds) w.
Proof.
  intros E. unfold shown, onMap. world. rewrite E.
  apply world_ext; world; try reflexivity. f_equal.
  unfold Mapbox.newMarker, Mapbox.setMarkers. cbn.
  rewrite <- app_assoc. simpl. now rewrite Nat.add_succ_r.
Qed.

Lemma forEachSaved_spec (ds : list MarkerData) (w : World) :
  forEachSaved ds w
  = if warns (MarkersResponse true (Some ds)) w
    then Abrupt (shown (validPrefix ds) w)
    else Normal (shown (validPrefix ds) w).
Proof.
  revert w. induction ds as [|d ds IH]; intros w.
  - cbn [forEachSaved validPrefix warns forallb negb]. rewrite shown_nil.
    now destruct (map_current w).
  - cbn [forEachSaved validPrefix warns forallb]. unfold showSavedMarker.
    destruct (map_current w) as [m|] eqn:E.
    + destruct (validRecord d) eqn:V.
      * rewrite IH. cbn [warns]. world. cbn [andb].
        now rewrite (shown_cons d _ w m E).
      * cbn [andb negb]. now rewrite shown_nil.
    + rewrite IH. cbn [warns]. rewrite E.
      unfold shown, onMap. now rewrite E.
Qed.

Lemma loadMarkers_spec (res : MarkersResult) (w : World) :
  loadMarkers res w
  = if warns res w then consoleLog "Failed to load markers:" (shown (loaded res) w)
    else shown (loaded res) w.
Proof.
  destruct res as [|[|] [ds|]]; cbn [loadMarkers loaded]; rewrite ?forEachSaved_spec;
    try (cbn [warns]; now rewrite shown_nil).
  now destruct (warns _ w).
Qed.

Lemma Quiet_shown (ds : list MarkerData) (w : World) : Quiet w (shown ds w).
Proof.
  apply Quiet_onMap. intros m.
  apply (quietMap_calls m _ []); [reflexivity| |constructor]. now rewrite app_nil_r.
Qed.

Lemma Quiet_loadMarkers (res : MarkersResult) (w : World) : Quiet w (loadMarkers res w).
Proof.
  rewrite loadMarkers_spec. destruct (warns res w); [|apply Quiet_shown].
  eapply Quiet_trans; [apply Quiet_shown|]. quiet_basic.
Qed.

(** No event handler binds or unbinds the picking listener; only the
    effect does. *)
Lemma Quiet_dispatch (ev : Event) (w : World) : Quiet w (dispatch ev w).
Proof.
  destruct ev; unfold dispatch; cbv zeta.
  - quiet_basic.
  - destruct (showRoutePanel (view w)); [|apply Quiet_refl].
    unfold onClickSetStart. quiet_basic.
  - destruct (showRoutePanel (view w)); [|apply Quiet_refl].
    unfold onClickSetEnd. quiet_basic.
  - destruct (showRoutePanel (view w)); quiet_basic.
  - destruct (showRoutePanel (view w)); quiet_basic.
  - destruct (_ && _); [apply Quiet_searchBusRoutes_begin|apply Quiet_refl].
  - destruct (pending w); [apply Quiet_searchBusRoutes_resume|apply Quiet_refl].
  - destruct (showRoutePanel (view w)); [|apply Quiet_refl].
    unfold onClickClear. cbv zeta. quiet_step @Quiet_put. quiet_step @Quiet_put.
    quiet_step Quiet_clearRouteLayersFromMap. apply Quiet_clearLocationMarkers.
  - destruct (showRoutePanel (view w)); [|apply Quiet_refl].
    unfold onClickCloseRoutePanel. cbv zeta. quiet_step @Quiet_put.
    quiet_step Quiet_clearRouteLayersFromMap. quiet_basic.
  - destruct (map_current w); [apply Quiet_clicks|apply Quiet_refl].
  - apply Quiet_handleKeyDown.
  - quiet_basic.
  - destruct (showInfoPanel (view w)); quiet_basic.
  - apply Quiet_onMap. intros m. now apply quietMap_log.
  - apply Quiet_onMap. intros m. now apply quietMap_log.
  - apply Quiet_loadMarkers.
Qed.

(** ** The picking listener: at most one, at any time *)

Lemma boundAfter_app (a b : list Call) :
  boundAfter (a ++ b) = fold_left bind b (boundAfter a).
Proof. unfold boundAfter. apply fold_left_app. Qed.

Lemma bind_quiet (extra : list Call) (hs : list Listener) :
  Forall quietCall extra -> fold_left bind extra hs = hs.
Proof.
  intros F. induction F as [|c extra Q _ IH]; simpl; [reflexivity|].
  destruct c; try contradiction; exact IH.
Qed.

Lemma boundAfter_quiet (cs extra : list Call) :
  Forall quietCall extra -> boundAfter (cs ++ extra) = boundAfter cs.
Proof. intros F. rewrite boundAfter_app. now apply bind_quiet. Qed.

Lemma atMostOne_whole (cs : list Call) : atMostOne cs -> (length (boundAfter cs) <= 1)%nat.
Proof. intros H. apply (H cs []). now rewrite app_nil_r. Qed.

Lemma atMostOne_quiet (cs extra : list Call) :
  atMostOne cs -> Forall quietCall extra -> atMostOne (cs ++ extra).
Proof.
  intros H F p q E. symmetry in E.
  apply app_eq_app in E as [l [[-> ->]|[-> ->]]].
  - apply Forall_app in F as [Fl _]. rewrite boundAfter_quiet by exact Fl.
    now apply atMostOne_whole.
  - apply (H p l). reflexivity.
Qed.

Lemma atMostOne_snoc (cs : list Call) (c : Call) :
  atMostOne cs -> (length (boundAfter (cs ++ [c])) <= 1)%nat -> atMostOne (cs ++ [c]).
Proof.
  intros H L p q E. symmetry in E.
  apply app_eq_app in E as [l [[-> E]|[-> _]]].
  - destruct l as [|x l].
    + rewrite app_nil_r. now apply atMostOne_whole.
    + injection E as -> E. symmetry in E. apply app_eq_nil in E as [-> _]. exact L.
  - apply (H p l). reflexivity.
Qed.

Lemma removeFirst_settled (old : Listener) (b : bool) :
  Mapbox.removeFirst old (if b then [old] else []) = [].
Proof. destruct b; [apply removeFirst_self|reflexivity]. Qed.

Lemma ClickMode_eqb_eq (a b : ClickMode) : ClickMode_eqb a b = true -> a = b.
Proof. destruct a, b; simpl; intros H; try reflexivity; discriminate H. Qed.

Lemma settled_mount (m0 : option MapboxMap) :
  (forall m, m0 = Some m -> listeners m = [] /\ calls m = []) ->
  settled (mount m0).
Proof.
  intros H0. unfold mount, clickModeEffect. cbn [map_current captured clickMode initialView picking].
  destruct m0 as [m|].
  - destruct (H0 m eq_refl) as [L C].
    split; [reflexivity|]. split; [reflexivity|].
    intros m' E. cbn [map_current setMap] in E. injection E as <-.
    cbn [effectMode setMap picking]. simpl listeners. simpl calls. rewrite L, C. simpl.
    split; [reflexivity|]. split; [reflexivity|].
    intros p q E. destruct p as [|c p]; [simpl; lia|].
    injection E as <- E. destruct p; [simpl; lia|discriminate].
  - split; [reflexivity|]. split; [reflexivity|]. intros m' E. discriminate.
Qed.

(** The one place where listeners change: the render after an event. *)
Lemma settled_step (w : World) (ev : Event) : settled w -> settled (step w ev).
Proof.
  intros (I1 & I2 & I3). unfold step.
  destruct (Quiet_dispatch ev w) as (QM & QH & _ & QQ).
  set (d := dispatch ev w) in *.
  destruct (ClickMode_eqb (clickMode (view d)) (effectMode d)) eqn:N.
  - (* the mode the effect ran with is still current *)
    assert (Eq : clickMode (view d) = effectMode d) by now apply ClickMode_eqb_eq.
    rewrite (rerender_same d Eq). unfold settled. world.
    split; [now rewrite Eq|]. split; [congruence|].
    intros md Ed. rewrite Ed in QQ.
    destruct (map_current w) as [m|]; [|contradiction].
    destruct QQ as (L & extra & C & F).
    destruct (I3 m eq_refl) as (J1 & J2 & J3).
    rewrite L, C, QM, QH. split; [exact J1|]. split.
    + rewrite boundAfter_quiet by exact F. exact J2.
    + now apply atMostOne_quiet.
  - (* cleanup of the old handler, then the effect of the new render *)
    destruct (map_current d) as [md|] eqn:Ed.
    + destruct (rerender_changed d md Ed N)
        as (m' & E' & L' & C' & _ & _ & _ & _ & EM' & EH' & _).
      destruct (map_current w) as [m|]; [|contradiction].
      destruct QQ as (L & extra & C & F).
      destruct (I3 m eq_refl) as (J1 & J2 & J3).
      unfold settled. rewrite rerender_view, EM', EH'.
      split; [reflexivity|]. split; [reflexivity|].
      intros m'' E''. rewrite E' in E''. injection E'' as <-.
      cbv zeta in L'. rewrite L, J1, QH, removeFirst_settled in L'. simpl in L'.
      assert (B0 : boundAfter (calls md) = listeners m).
      { rewrite C, boundAfter_quiet by exact F. now rewrite J2. }
      assert (A0 : atMostOne (calls md)) by (rewrite C; now apply atMostOne_quiet).
      assert (B1 : boundAfter (calls md ++ [CallOff (effectHandler d)]) = []).
      { rewrite boundAfter_app, B0, J1, QH. simpl. apply removeFirst_settled. }
      assert (B2 : boundAfter ((calls md ++ [CallOff (effectHandler d)])
                               ++ [CallOff (handlerOf d)]) = []).
      { rewrite boundAfter_app, B1. reflexivity. }
      assert (A2 : atMostOne ((calls md ++ [CallOff (effectHandler d)])
                              ++ [CallOff (handlerOf d)])).
      { apply atMostOne_snoc; [apply atMostOne_snoc; [exact A0|]|].
        - rewrite B1. simpl. lia.
        - rewrite B2. simpl. lia. }
      unfold effectCalls in C'. change (captured (handlerOf d)) with (view d) in C'.
      split; [exact L'|].
      destruct (picking (clickMode (view d))).
      * assert (C'' : calls m' = ((calls md ++ [CallOff (effectHandler d)])
                                  ++ [CallOff (handlerOf d)]) ++ [CallOn (handlerOf d)])
          by (rewrite C', <- !app_assoc; reflexivity).
        assert (B3 : boundAfter (calls m') = [handlerOf d]).
        { rewrite C'', boundAfter_app, B2. reflexivity. }
        split; [now rewrite B3|].
        rewrite C''. apply atMostOne_snoc; [exact A2|].
        rewrite <- C'', B3. simpl. lia.
      * assert (C'' : calls m' = (calls md ++ [CallOff (effectHandler d)])
                                 ++ [CallOff (handlerOf d)])
          by (rewrite C', <- !app_assoc; reflexivity).
        rewrite C''. split; [now rewrite B2|exact A2].
    + assert (X : map_current (rerender d) = None) by now apply rerender_nomap.
      unfold settled. rewrite rerender_view, X.
      unfold rerender. rewrite N. world.
      split; [reflexivity|]. split; [reflexivity|].
      intros m'' E''. discriminate.
Qed.

Lemma settled_run (evs : list Event) (w : World) : settled w -> settled (run evs w).
Proof.
  revert w. induction evs as [|ev evs IH]; intros w S; [exact S|].
  apply (IH (step w ev)). now apply settled_step.
Qed.

Lemma settled_mounted (style : option (list Layer * list (string * Source))) :
  settled (mounted style).
Proof.
  apply settled_mount. intros m E. destruct style as [s|]; [|discriminate].
  injection E as <-. split; reflexivity.
Qed.

(** C1. Whatever the user does (picking buttons, map clicks, typing,
    searches and their answers, clearing, keys), at most one picking
    click handler is bound to the engine, at every point of the sequence
    of calls made on it, and what is bound is what those calls say.
    Going straight from picking the start to picking the end makes three
    calls: the old handler is taken off, the new one is taken off (it was
    never on), and only then the new one is put on. *)
Theorem one_picking_handler (style : option (list Layer * list (string * Source)))
        (evs : list Event) :
  let w := run evs (mounted style) in
  (forall p q, onTheMap calls w = p ++ q -> (length (boundAfter p) <= 1)%nat)
  /\ onTheMap listeners w = boundAfter (onTheMap calls w)
  /\ (length (onTheMap listeners w) <= 1)%nat
  /\ (clickMode (view w) = ModeStart ->
      showRoutePanel (view w) = true ->
      map_current w <> None ->
      exists old new,
        onTheMap listeners w = [old]
        /\ clickMode (view (step w ClickSetEnd)) = ModeEnd
        /\ onTheMap calls (step w ClickSetEnd)
           = onTheMap calls w ++ [CallOff old; CallOff new; CallOn new]
        /\ boundAfter (onTheMap calls w ++ [CallOff old]) = []
        /\ onTheMap listeners (step w ClickSetEnd) = [new]
        /\ clickMode (captured new) = ModeEnd).
Proof.
  intros w.
  assert (S : settled w) by (apply settled_run, settled_mounted).
  destruct S as (I1 & I2 & I3).
  unfold onTheMap. destruct (map_current w) as [m|] eqn:E.
  - destruct (I3 m eq_refl) as (J1 & J2 & J3).
    split; [exact J3|]. split; [exact J2|].
    split; [rewrite J2; now apply atMostOne_whole|].
    intros Ms Pn _.
    set (d := put setClickMode ModeEnd w).
    assert (D : dispatch ClickSetEnd w = d).
    { unfold dispatch, onClickSetEnd. now rewrite Pn, Ms. }
    destruct (rerender_changed d m) as (m' & E' & L' & C' & _).
    { exact E. }
    { change (ClickMode_eqb ModeEnd (effectMode w) = false). now rewrite I1, Ms. }
    rewrite I1, Ms in J1. simpl in J1.
    unfold step. rewrite D, rerender_view, E'.
    exists (effectHandler w), (handlerOf d).
    split; [exact J1|]. split; [reflexivity|]. split; [exact C'|].
    split.
    { rewrite boundAfter_app, <- J2, J1. simpl. apply removeFirst_self. }
    split; [|reflexivity].
    cbv zeta in L'. change (effectHandler d) with (effectHandler w) in L'.
    rewrite J1, removeFirst_self in L'. exact L'.
  - split; [|split; [reflexivity|split; [simpl; lia|]]].
    + intros p q Epq. symmetry in Epq. apply app_eq_nil in Epq as [-> _]. simpl. lia.
    + intros _ _ N. now elim N.
Qed.

Lemma one_picking_handler_witness :
  let w := run [ClickRouteToggle; ClickSetStart] (mounted (Some ([], []))) in
  clickMode (view w) = ModeStart
  /\ exists old new,
      onTheMap listeners w = [old]
      /\ clickMode (view (step w ClickSetEnd)) = ModeEnd
      /\ onTheMap calls (step w ClickSetEnd)
         = onTheMap calls w ++ [CallOff old; CallOff new; CallOn new]
      /\ boundAfter (onTheMap calls w ++ [CallOff old]) = []
      /\ onTheMap listeners (step w ClickSetEnd) = [new]
      /\ clickMode (captured new) = ModeEnd.
Proof.
  intros w. split; [reflexivity|].
  destruct (one_picking_handler (Some ([], [])) [ClickRouteToggle; ClickSetStart])
    as (_ & _ & _ & H).
  apply H; [reflexivity|reflexivity|discriminate].
Defined.

(** * Further properties: the marker routes *)

Section MarkerRoutes.
Import Server.
Import Crud.

Variable realRange : Q -> bool.
Variable store : ColumnKind -> Json -> option Json.

(** ** Validation keeps the schema's members *)

Lemma member_cons (key k : string) (v : Json) (rest : list (string * Json)) :
  member key ((k, v) :: rest) = if String.eqb k key then Some v else member key rest.
Proof. unfold member. simpl. now destruct (String.eqb k key). Qed.

Lemma member_absent (key : string) (ms : list (string * Json)) :
  ~ In key (map fst ms) -> member key ms = None.
Proof.
  induction ms as [|[k v] rest IH]; intros N; [reflexivity|].
  rewrite member_cons. destruct (String.eqb k key) eqn:E.
  - apply String.eqb_eq in E. elim N. now left.
  - apply IH. intros H. apply N. now right.
Qed.

Lemma parseMembers_keys (s : Schema) (members out : list (string * Json)) :
  parseMembers realRange s members = Some out ->
  incl (map fst out) (map fst s).
Proof.
  revert out. induction s as [|[k f] rest IH]; intros out H; simpl in H.
  - injection H as <-. intros x [].
  - destruct (member k members) as [v|].
    + destruct (accepts realRange f v); [|discriminate].
      destruct (parseMembers realRange rest members) as [o|]; [|discriminate].
      injection H as <-. simpl. intros x [<-|Hx]; [now left|right; now apply (IH o)].
    + destruct (optional f); [|discriminate].
      intros x Hx. right. now apply (IH out).
Qed.

(** What [parse] returns for each key, given a schema with distinct keys. *)
Lemma parseMembers_member (s : Schema) (members out : list (string * Json)) :
  NoDup (map fst s) ->
  parseMembers realRange s members = Some out ->
  forall key, member key out
              = if existsb (String.eqb key) (map fst s) then member key members else None.
Proof.
  revert out. induction s as [|[k f] rest IH]; intros out ND H key; simpl in H.
  - injection H as <-. reflexivity.
  - apply NoDup_cons_iff in ND as [Nk ND]. cbn [map fst existsb].
    destruct (member k members) as [v|] eqn:M.
    + destruct (accepts realRange f v); [|discriminate].
      destruct (parseMembers realRange rest members) as [o|] eqn:P; [|discriminate].
      injection H as <-. rewrite member_cons.
      rewrite (String.eqb_sym key k).
      destruct (String.eqb k key) eqn:E.
      * apply String.eqb_eq in E. subst key. simpl. now rewrite M.
      * simpl. now apply IH.
    + destruct (optional f); [|discriminate].
      rewrite (String.eqb_sym key k).
      destruct (String.eqb k key) eqn:E.
      * apply String.eqb_eq in E. subst key. simpl. rewrite M.
        apply member_absent. intros Hin. apply Nk.
        now apply (parseMembers_keys rest members out H).
      * simpl. now apply IH.
Qed.

Lemma parseMembers_accepted (s : Schema) (members out : list (string * Json)) :
  parseMembers realRange s members = Some out ->
  forall k v, In (k, v) out ->
              exists f, In (k, f) s /\ accepts realRange f v = true.
Proof.
  revert out. induction s as [|[k f] rest IH]; intros out H k' v' Hin; simpl in H.
  - injection H as <-. contradiction.
  - destruct (member k members) as [v|].
    + destruct (accepts realRange f v) eqn:A; [|discriminate].
      destruct (parseMembers realRange rest members) as [o|] eqn:P; [|discriminate].
      injection H as <-. destruct Hin as [E|Hin].
      * injection E as <- <-. exists f. split; [now left|exact A].
      * destruct (IH o eq_refl k' v' Hin) as (g & Hg & Ag). exists g. split; [now right|exact Ag].
    + destruct (optional f); [|discriminate].
      destruct (IH out H k' v' Hin) as (g & Hg & Ag). exists g. split; [now right|exact Ag].
Qed.

Lemma insertUserSchema_fields :
  insertUserSchema
  = [ ("username", {| ztype := ZString None; optional := false; nullable := false |});
      ("password", {| ztype := ZString None; optional := false; nullable := false |}) ].
Proof. reflexivity. Qed.

Lemma parseMembers_NoDup (s : Schema) (members out : list (string * Json)) :
  NoDup (map fst s) ->
  parseMembers realRange s members = Some out ->
  NoDup (map fst out).
Proof.
  revert out. induction s as [|[k f] rest IH]; intros out ND H; simpl in H.
  - injection H as <-. constructor.
  - apply NoDup_cons_iff in ND as [Nk ND].
    destruct (member k members) as [v|].
    + destruct (accepts realRange f v); [|discriminate].
      destruct (parseMembers realRange rest members) as [o|] eqn:P; [|discriminate].
      injection H as <-. simpl. constructor; [|now apply IH].
      intros Hin. apply Nk. now apply (parseMembers_keys rest members o P).
    + destruct (optional f); [|discriminate]. now apply IH.
Qed.

(** ** Storage *)

Lemma marker_id_inj (j k : nat) :
  ("marker-" ++ Js.ofNat j)%string = ("marker-" ++ Js.ofNat k)%string -> j = k.
Proof. intros H. simpl in H. injection H as H. now apply ofNat_inj. Qed.

(** *** [ORDER BY createdAt] *)

Lemma insertByCreatedAt_perm (r : Row) (l : list Row) :
  Permutation (insertByCreatedAt r l) (r :: l).
Proof.
  induction l as [|x l IH]; simpl; [reflexivity|].
  destruct (Nat.leb (rowCreatedAt r) (rowCreatedAt x)); [reflexivity|].
  rewrite IH. apply perm_swap.
Qed.

Lemma orderByCreatedAt_perm (l : list Row) : Permutation (orderByCreatedAt l) l.
Proof.
  induction l as [|r l IH]; simpl; [reflexivity|].
  unfold orderByCreatedAt in *. simpl. rewrite insertByCreatedAt_perm. now constructor.
Qed.

Lemma insertByCreatedAt_sorted (r : Row) (l : list Row) :
  StronglySorted byCreatedAt l -> StronglySorted byCreatedAt (insertByCreatedAt r l).
Proof.
  induction 1 as [|x l S IH F]; simpl.
  - constructor; constructor.
  - destruct (Nat.leb_spec (rowCreatedAt r) (rowCreatedAt x)) as [L|L].
    + constructor; [now constructor|].
      constructor; [exact L|].
      rewrite Forall_forall in *. intros y Hy. specialize (F y Hy).
      unfold byCreatedAt in *. lia.
    + constructor; [exact IH|].
      rewrite Forall_forall in *. intros y Hy.
      apply (Permutation_in _ (insertByCreatedAt_perm r l)) in Hy.
      destruct Hy as [<-|Hy]; [unfold byCreatedAt; lia|now apply F].
Qed.

Lemma orderByCreatedAt_sorted (l : list Row) :
  StronglySorted byCreatedAt (orderByCreatedAt l).
Proof.
  induction l as [|r l IH]; [constructor|].
  unfold orderByCreatedAt in *. simpl. now apply insertByCreatedAt_sorted.
Qed.

Lemma insertByCreatedAt_first (r : Row) (l : list Row) :
  Forall (byCreatedAt r) l -> insertByCreatedAt r l = r :: l.
Proof.
  destruct l as [|x l]; [reflexivity|]. intros F. inversion F as [|? ? Hx _]; subst.
  simpl. unfold byCreatedAt in Hx.
  destruct (Nat.leb_spec (rowCreatedAt r) (rowCreatedAt x)); [reflexivity|lia].
Qed.

Lemma insertByCreatedAt_last (r : Row) (l : list Row) :
  Forall (fun x => (rowCreatedAt x < rowCreatedAt r)%nat) l ->
  insertByCreatedAt r l = l ++ [r].
Proof.
  induction 1 as [|x l Hx F IH]; simpl; [reflexivity|].
  destruct (Nat.leb_spec (rowCreatedAt r) (rowCreatedAt x)); [lia|]. now rewrite IH.
Qed.

(** The row created last is listed last, wherever the table keeps it. *)
Lemma orderByCreatedAt_new (r : Row) (l : list Row) :
  Forall (fun x => (rowCreatedAt x < rowCreatedAt r)%nat) l ->
  orderByCreatedAt (r :: l) = orderByCreatedAt l ++ [r].
Proof.
  intros F. change (orderByCreatedAt (r :: l)) with (insertByCreatedAt r (orderByCreatedAt l)).
  apply insertByCreatedAt_last.
  rewrite Forall_forall in *. intros x Hx. apply F.
  now apply (Permutation_in _ (orderByCreatedAt_perm l)).
Qed.

Lemma insertByCreatedAt_filter (p : Row -> bool) (r : Row) (l : list Row) :
  StronglySorted byCreatedAt l ->
  filter p (insertByCreatedAt r l)
  = if p r then insertByCreatedAt r (filter p l) else filter p l.
Proof.
  induction 1 as [|x l S IH F]; simpl.
  - now destruct (p r).
  - destruct (Nat.leb_spec (rowCreatedAt r) (rowCreatedAt x)) as [L|L]; simpl.
    + destruct (p r) eqn:Pr; [|reflexivity].
      symmetry. apply insertByCreatedAt_first.
      assert (G : Forall (byCreatedAt r) (x :: l)).
      { constructor; [exact L|]. rewrite Forall_forall in *. intros y Hy.
        specialize (F y Hy). unfold byCreatedAt in *. lia. }
      change (Forall (byCreatedAt r) (filter p (x :: l))).
      rewrite Forall_forall in *. intros y Hy. apply filter_In in Hy as [Hy _]. now apply G.
    + rewrite IH. destruct (p x) eqn:Px; destruct (p r) eqn:Pr; try reflexivity.
      simpl. destruct (Nat.leb_spec (rowCreatedAt r) (rowCreatedAt x)); [lia|reflexivity].
Qed.

Lemma orderByCreatedAt_filter (p : Row -> bool) (l : list Row) :
  orderByCreatedAt (filter p l) = filter p (orderByCreatedAt l).
Proof.
  induction l as [|r l IH]; [reflexivity|].
  change (orderByCreatedAt (r :: l)) with (insertByCreatedAt r (orderByCreatedAt l)).
  rewrite insertByCreatedAt_filter by apply orderByCreatedAt_sorted.
  simpl. destruct (p r); [|exact IH].
  change (orderByCreatedAt (r :: filter p l))
    with (insertByCreatedAt r (orderByCreatedAt (filter p l))).
  now rewrite IH.
Qed.

Lemma map_filter_NoDup {A B} (g : A -> B) (p : A -> bool) (l : list A) :
  NoDup (map g l) -> NoDup (map g (filter p l)).
Proof.
  induction l as [|a l IH]; intros ND; simpl; [constructor|].
  simpl in ND. apply NoDup_cons_iff in ND as [Na ND].
  destruct (p a); [|now apply IH]. simpl. constructor; [|now apply IH].
  intros Hin. apply Na. apply in_map_iff in Hin as (x & Hx & Hin).
  apply filter_In in Hin as [Hin _]. apply in_map_iff. now exists x.
Qed.

Lemma Forall_filter {A} (P : A -> Prop) (p : A -> bool) (l : list A) :
  Forall P l -> Forall P (filter p l).
Proof.
  rewrite !Forall_forall. intros H x Hx. apply filter_In in Hx as [Hx _]. now apply H.
Qed.

Lemma rowId_setValues (data : list (string * Json)) (r : Row) :
  rowId (setValues data r) = rowId r.
Proof. reflexivity. Qed.

Lemma rowCreatedAt_setValues (data : list (string * Json)) (r : Row) :
  rowCreatedAt (setValues data r) = rowCreatedAt r.
Proof. reflexivity. Qed.

Lemma withRows_same (db : Db) : withRows (rows db) db = db.
Proof. now destruct db. Qed.

(** *** The invariant of the table *)

Lemma dbOk_empty : dbOk emptyDb.
Proof. repeat split; simpl; constructor. Qed.

Lemma fresh_id (db : Db) :
  dbOk db -> ~ In ("marker-" ++ Js.ofNat (inserted db))%string (map rowId (rows db)).
Proof.
  intros (H & _) Hin. apply in_map_iff in Hin as (r & Hr & Hin).
  rewrite Forall_forall in H. destruct (H r Hin) as (k & Hk & E).
  rewrite E in Hr. apply marker_id_inj in Hr. lia.
Qed.

Lemma createMarker_some (data : list (string * Json)) (db : Db) (marker : Row) (db' : Db) :
  createMarker store data db = Some (marker, db') ->
  insertValues store dataColumns data = Some (rowValues marker)
  /\ rowId marker = ("marker-" ++ Js.ofNat (inserted db))%string
  /\ rowCreatedAt marker = clock db
  /\ rows db' = marker :: rows db
  /\ inserted db' = S (inserted db)
  /\ clock db' = S (clock db).
Proof.
  unfold createMarker. destruct (insertValues store dataColumns data) as [values|];
    [|discriminate].
  intros H. injection H as <- <-. now repeat split.
Qed.

Lemma dbOk_createMarker (data : list (string * Json)) (db : Db) (marker : Row) (db' : Db) :
  createMarker store data db = Some (marker, db') -> dbOk db -> dbOk db'.
Proof.
  intros Cr Ok. pose proof (fresh_id db Ok) as Fresh.
  destruct (createMarker_some _ _ _ _ Cr) as (_ & Id & At & R & I & C).
  destruct Ok as (H & ND & T). unfold dbOk. rewrite R.
  split; [|split].
  - constructor.
    + exists (inserted db). split; [rewrite I; lia|exact Id].
    + rewrite Forall_forall in *. intros r Hr. destruct (H r Hr) as (k & Hk & E).
      exists k. split; [rewrite I; lia|exact E].
  - simpl. constructor; [now rewrite Id|exact ND].
  - rewrite C. constructor; [rewrite At; lia|].
    rewrite Forall_forall in *. intros r Hr. specialize (T r Hr). lia.
Qed.

Lemma dbOk_filter (p : Row -> bool) (db : Db) :
  dbOk db -> dbOk (withRows (filter p (rows db)) db).
Proof.
  intros (H & ND & C). unfold dbOk. simpl.
  split; [|split].
  - now apply Forall_filter.
  - now apply map_filter_NoDup.
  - now apply Forall_filter.
Qed.

Lemma dbOk_update (f : Row -> Row) (db : Db) :
  (forall r, rowId (f r) = rowId r) ->
  (forall r, rowCreatedAt (f r) = rowCreatedAt r) ->
  dbOk db -> dbOk (withRows (map f (rows db)) db).
Proof.
  intros Hid Hat (H & ND & C). unfold dbOk. simpl.
  rewrite !map_map.
  rewrite (map_ext _ rowId Hid).
  split; [|split]; try assumption.
  - rewrite Forall_forall in *. intros r Hr. apply in_map_iff in Hr as (x & <- & Hx).
    destruct (H x Hx) as (k & Hk & E). exists k. split; [exact Hk|]. now rewrite Hid.
  - rewrite Forall_forall in *. intros r Hr. apply in_map_iff in Hr as (x & <- & Hx).
    rewrite Hat. now apply C.
Qed.

Lemma map_find_none (i : string) (f : Row -> Row) (l : list Row) :
  find (fun r => String.eqb (rowId r) i) l = None ->
  map (fun r => if String.eqb (rowId r) i then f r else r) l = l.
Proof.
  induction l as [|a l IH]; simpl; [reflexivity|].
  destruct (String.eqb (rowId a) i); [discriminate|]. intros H. now rewrite IH.
Qed.

(** The three ways [updateMarker] goes. *)
Lemma updateMarker_cases (i : string) (updateData : list (string * Json)) (db : Db) :
  (updateMarker store i updateData db = Thrown
   /\ (updateData = [] \/ updateValues store updateData = None))
  \/ (exists values,
         updateData <> [] /\ updateValues store updateData = Some values
         /\ find (fun r => String.eqb (rowId r) i) (rows db) = None
         /\ updateMarker store i updateData db = Done (None, db))
  \/ (exists values old,
         updateData <> [] /\ updateValues store updateData = Some values
         /\ find (fun r => String.eqb (rowId r) i) (rows db) = Some old
         /\ updateMarker store i updateData db
            = Done (Some (setValues values old),
                    withRows (map (fun r => if String.eqb (rowId r) i
                                            then setValues values r else r)
                                  (rows db)) db)).
Proof.
  unfold updateMarker. destruct updateData as [|kv rest]; [left; split; [reflexivity|now left]|].
  destruct (updateValues store (kv :: rest)) as [values|] eqn:U;
    [|left; split; [reflexivity|now right]].
  right. destruct (find (fun r => String.eqb (rowId r) i) (rows db)) as [old|] eqn:F.
  - right. exists values, old. repeat split; discriminate || reflexivity.
  - left. exists values. split; [discriminate|]. split; [reflexivity|]. split; [reflexivity|].
    simpl. now rewrite (map_find_none i _ _ F), withRows_same.
Qed.

Lemma dbOk_serve (db : Db) (r : Request) :
  dbOk db -> dbOk (snd (serve realRange store db r)).
Proof.
  intros Ok. destruct r as [|i|body|i body|i]; simpl; try exact Ok.
  - unfold postApiMarkers, postMarkers.
    destruct (parse realRange insertMarkerSchema body) as [data|]; [|exact Ok].
    destruct (createMarker store data db) as [[marker db']|] eqn:Cr; [|exact Ok].
    exact (dbOk_createMarker data db marker db' Cr Ok).
  - unfold putApiMarker.
    destruct (parse realRange (partial insertMarkerSchema) body) as [data|]; [|exact Ok].
    destruct (updateMarker_cases i data db)
      as [[-> _]|[(values & _ & _ & _ & ->)|(values & old & _ & _ & _ & ->)]];
      try exact Ok.
    simpl. apply dbOk_update; [| |exact Ok]; intros r; now destruct (String.eqb (rowId r) i).
  - unfold deleteApiMarker, deleteMarker.
    pose proof (dbOk_filter (fun r => negb (String.eqb (rowId r) i)) db Ok) as Ok'.
    destruct (Nat.ltb 0 (length (filter (fun r => String.eqb (rowId r) i) (rows db))));
      exact Ok'.
Qed.

Lemma dbOk_after (requests : list Request) (db : Db) :
  dbOk db -> dbOk (after realRange store requests db).
Proof.
  revert db. induction requests as [|r rest IH]; intros db Ok; [exact Ok|].
  simpl. apply IH. now apply dbOk_serve.
Qed.

Lemma find_unique (i : string) (l : list Row) (r : Row) :
  NoDup (map rowId l) ->
  (find (fun x => String.eqb (rowId x) i) l = Some r <-> In r l /\ rowId r = i).
Proof.
  induction l as [|a l IH]; intros ND; simpl.
  - split; [discriminate|intros [[] _]].
  - simpl in ND. apply NoDup_cons_iff in ND as [Na ND].
    destruct (String.eqb (rowId a) i) eqn:E.
    + apply String.eqb_eq in E. split.
      * intros H. injection H as <-. split; [now left|exact E].
      * intros [[->|Hin] Hi]; [reflexivity|].
        elim Na. apply in_map_iff. exists r. split; [congruence|exact Hin].
    + apply String.eqb_neq in E. rewrite (IH ND). split.
      * intros [Hin Hi]. split; [now right|exact Hi].
      * intros [[->|Hin] Hi]; [contradiction|]. now split.
Qed.

Lemma find_absent (i : string) (l : list Row) :
  find (fun x => String.eqb (rowId x) i) l = None <-> ~ In i (map rowId l).
Proof.
  induction l as [|a l IH]; simpl; [split; [intros _ []|reflexivity]|].
  destruct (String.eqb_spec (rowId a) i) as [E|E].
  - split; [discriminate|]. intros N. elim N. now left.
  - rewrite IH. split; [intros N [H|H]; contradiction|].
    intros N H. apply N. now right.
Qed.

(** X1. Whatever order the table keeps its rows in, GET /api/markers
    returns all of them, each as often as the table holds it, in
    ascending order of creation time.  GET /api/markers/:id answers 404
    exactly for an id that no listed marker has and, ids being distinct
    as the primary key makes them, 200 with a marker exactly when that is
    the listed marker with the id. *)
Theorem getMarkers_lists_by_creation_time (db : Db) :
  Permutation (getMarkers db) (rows db)
  /\ StronglySorted byCreatedAt (getMarkers db)
  /\ (forall i, getApiMarker i db = AnswerError 404 "Marker not found"
                <-> ~ In i (map rowId (getMarkers db)))
  /\ (NoDup (map rowId (rows db)) ->
      forall i marker,
        getApiMarker i db = AnswerMarker 200 marker
        <-> In marker (getMarkers db) /\ rowId marker = i).
Proof.
  pose proof (orderByCreatedAt_perm (rows db)) as P.
  split; [exact P|]. split; [apply orderByCreatedAt_sorted|]. split.
  - intros i. unfold getApiMarker, getMarker.
    assert (E : In i (map rowId (getMarkers db)) <-> In i (map rowId (rows db))).
    { split; apply Permutation_in; [|symmetry]; now apply Permutation_map. }
    rewrite E, <- find_absent.
    destruct (find (fun r => String.eqb (rowId r) i) (rows db)); split;
      discriminate || reflexivity.
  - intros ND i marker.
    assert (E : In marker (getMarkers db) <-> In marker (rows db)).
    { split; apply Permutation_in; [|symmetry]; exact P. }
    rewrite E, <- (find_unique i (rows db) marker ND).
    unfold getApiMarker, getMarker.
    destruct (find (fun x => String.eqb (rowId x) i) (rows db)).
    + split; intros H; now injection H as <-.
    + split; discriminate.
Qed.

(** *** What an insert writes *)

Lemma insertValues_keys (columns : list (string * Column))
      (data values : list (string * Json)) :
  insertValues store columns data = Some values -> map fst values = map fst columns.
Proof.
  revert values. induction columns as [|[k c] rest IH]; intros values H; simpl in H.
  - now injection H as <-.
  - destruct (written store c (member k data)) as [v|]; [|discriminate].
    destruct (insertValues store rest data) as [vs|]; [|discriminate].
    injection H as <-. simpl. f_equal. now apply IH.
Qed.

Lemma insertValues_member (columns : list (string * Column))
      (data values : list (string * Json)) :
  NoDup (map fst columns) ->
  insertValues store columns data = Some values ->
  forall key c, In (key, c) columns ->
                member key values = written store c (member key data).
Proof.
  revert values. induction columns as [|[k c] rest IH]; intros values ND H key c' Hin;
    [contradiction|].
  simpl in ND. apply NoDup_cons_iff in ND as [Nk ND]. simpl in H.
  destruct (written store c (member k data)) as [v|] eqn:W; [|discriminate].
  destruct (insertValues store rest data) as [vs|] eqn:I; [|discriminate].
  injection H as <-. rewrite member_cons. destruct Hin as [E|Hin].
  - injection E as <- <-. now rewrite String.eqb_refl.
  - destruct (String.eqb_spec k key) as [E|_]; [|now apply (IH vs ND eq_refl)].
    subst key. elim Nk. apply in_map_iff. now exists (k, c').
Qed.

Lemma insertValues_some (columns : list (string * Column)) (data : list (string * Json)) :
  (forall key c, In (key, c) columns -> written store c (member key data) <> None) ->
  exists values, insertValues store columns data = Some values.
Proof.
  induction columns as [|[k c] rest IH]; intros H; simpl; [now eexists|].
  destruct (written store c (member k data)) as [v|] eqn:W;
    [|now elim (H k c (or_introl eq_refl))].
  destruct IH as [vs ->]; [intros key c' Hin; apply H; now right|]. now eexists.
Qed.

Lemma insertValues_none (columns : list (string * Column)) (data : list (string * Json)) :
  (exists key c, In (key, c) columns /\ written store c (member key data) = None) ->
  insertValues store columns data = None.
Proof.
  intros (key & c & Hin & W). induction columns as [|[k c'] rest IH]; [contradiction|].
  simpl. destruct Hin as [E|Hin].
  - injection E as -> ->. now rewrite W.
  - rewrite (IH Hin). now destruct (written store c' (member k data)).
Qed.

Lemma dataColumns_keys :
  map fst dataColumns = ["title"; "description"; "latitude"; "longitude"; "color"].
Proof. reflexivity. Qed.

Lemma dataColumns_NoDup : NoDup (map fst dataColumns).
Proof.
  rewrite dataColumns_keys.
  repeat (constructor; [simpl; intuition discriminate|]). constructor.
Qed.

(** X2. POST /api/markers with a body that passes validation, on a table
    in any order whose ids the database has handed out: when the
    database takes every value, the answer is 201 with a new marker under
    an id no marker has; each of its columns title, description,
    latitude, longitude and color holds what the database keeps of the
    validated member, or the column's default (no description, the
    colour #3b82f6) for a member left out.  That marker is then what GET
    /api/markers/:id returns for its id and the last entry of GET
    /api/markers, after the markers listed before; every other id is
    answered as before.  When the database refuses a value, the answer
    is 500 and the table is as it was. *)
Theorem created_marker_is_served
        (body : Json) (data : list (string * Json)) (db : Db) :
  dbOk db ->
  parse realRange insertMarkerSchema body = Some data ->
  ((forall key c, In (key, c) dataColumns -> written store c (member key data) <> None) ->
   exists marker db',
     postApiMarkers realRange store body db = (AnswerMarker 201 marker, db')
     /\ map fst (rowValues marker)
        = ["title"; "description"; "latitude"; "longitude"; "color"]
     /\ (forall key c, In (key, c) dataColumns ->
                       member key (rowValues marker) = written store c (member key data))
     /\ ~ In (rowId marker) (map rowId (getMarkers db))
     /\ getApiMarker (rowId marker) db' = AnswerMarker 200 marker
     /\ getApiMarkers db' = AnswerMarkers 200 (getMarkers db ++ [marker])
     /\ (forall i, i <> rowId marker -> getApiMarker i db' = getApiMarker i db)
     /\ dbOk db')
  /\ ((exists key c, In (key, c) dataColumns /\ written store c (member key data) = None) ->
      postApiMarkers realRange store body db
      = (AnswerError 500 "Failed to create marker", db)).
Proof.
  intros Ok P. split.
  - intros W. destruct (insertValues_some dataColumns data W) as [values I].
    assert (Cr : exists marker db', createMarker store data db = Some (marker, db'))
      by (unfold createMarker; rewrite I; now do 2 eexists).
    destruct Cr as (marker & db' & Cr).
    destruct (createMarker_some _ _ _ _ Cr) as (V & Id & At & R & _ & _).
    pose proof (fresh_id db Ok) as Fresh. rewrite <- Id in Fresh.
    exists marker, db'.
    split; [unfold postApiMarkers, postMarkers; now rewrite P, Cr|].
    split; [rewrite (insertValues_keys _ _ _ V); apply dataColumns_keys|].
    split; [exact (insertValues_member _ _ _ dataColumns_NoDup V)|].
    split.
    { intros Hin. apply Fresh. revert Hin. apply Permutation_in.
      apply Permutation_map, orderByCreatedAt_perm. }
    split; [|split; [|split]].
    + unfold getApiMarker, getMarker. rewrite R. simpl. now rewrite String.eqb_refl.
    + unfold getApiMarkers, getMarkers. rewrite R. f_equal.
      apply orderByCreatedAt_new.
      destruct Ok as (_ & _ & T). rewrite At. exact T.
    + intros i Hi. unfold getApiMarker, getMarker. rewrite R. simpl.
      destruct (String.eqb_spec (rowId marker) i) as [E|_]; [|reflexivity].
      now elim Hi.
    + exact (dbOk_createMarker data db marker db' Cr Ok).
  - intros N. unfold postApiMarkers, postMarkers, createMarker.
    now rewrite P, (insertValues_none dataColumns data N).
Qed.

Lemma filter_find_none (i : string) (l : list Row) :
  find (fun r => String.eqb (rowId r) i) l = None ->
  filter (fun r => String.eqb (rowId r) i) l = []
  /\ filter (fun r => negb (String.eqb (rowId r) i)) l = l.
Proof.
  induction l as [|a l IH]; simpl; [now split|].
  destruct (String.eqb (rowId a) i); [discriminate|]. intros H.
  destruct (IH H) as [-> ->]. now split.
Qed.

Lemma filter_find_some (i : string) (l : list Row) (r : Row) :
  find (fun r => String.eqb (rowId r) i) l = Some r ->
  (0 <? length (filter (fun r => String.eqb (rowId r) i) l))%nat = true.
Proof.
  induction l as [|a l IH]; simpl; [discriminate|].
  destruct (String.eqb (rowId a) i); [reflexivity|]. exact IH.
Qed.

Lemma find_filter_out (i : string) (l : list Row) :
  find (fun r => String.eqb (rowId r) i)
       (filter (fun r => negb (String.eqb (rowId r) i)) l) = None.
Proof.
  induction l as [|a l IH]; simpl; [reflexivity|].
  destruct (String.eqb (rowId a) i) eqn:E; simpl; [exact IH|]. now rewrite E.
Qed.

Lemma find_filter_other (i j : string) (l : list Row) :
  j <> i ->
  find (fun r => String.eqb (rowId r) j)
       (filter (fun r => negb (String.eqb (rowId r) i)) l)
  = find (fun r => String.eqb (rowId r) j) l.
Proof.
  intros N. induction l as [|a l IH]; simpl; [reflexivity|].
  destruct (String.eqb_spec (rowId a) i) as [E|E]; simpl.
  - destruct (String.eqb_spec (rowId a) j) as [F|F]; [congruence|exact IH].
  - now rewrite IH.
Qed.

(** X3. Whatever requests the marker routes have served since the table
    was empty, DELETE /api/markers/:id for an id the table does not hold
    answers 404 and leaves the table as it was.  For an id it holds the
    answer is 204, the marker is gone from both GET routes while every
    other marker is served as before, and deleting the same id again
    answers 404. *)
Theorem deleted_marker_is_gone (requests : list Request) (i : string) :
  let db := after realRange store requests emptyDb in
  match getMarker i db with
  | None => deleteApiMarker i db = (AnswerError 404 "Marker not found", db)
  | Some marker =>
      exists db',
        deleteApiMarker i db = (AnswerEmpty 204, db')
        /\ getApiMarker i db' = AnswerError 404 "Marker not found"
        /\ getMarkers db' = filter (fun r => negb (String.eqb (rowId r) i)) (getMarkers db)
        /\ (forall j, j <> i -> getApiMarker j db' = getApiMarker j db)
        /\ deleteApiMarker i db' = (AnswerError 404 "Marker not found", db')
  end.
Proof.
  intros db. clearbody db. unfold getMarker.
  destruct (find (fun r => String.eqb (rowId r) i) (rows db)) as [marker|] eqn:F.
  - set (db' := withRows (filter (fun r => negb (String.eqb (rowId r) i)) (rows db)) db)
      in *.
    exists db'.
    split; [unfold deleteApiMarker, deleteMarker; now rewrite (filter_find_some i _ _ F)|].
    assert (N : find (fun r => String.eqb (rowId r) i) (rows db') = None)
      by apply find_filter_out.
    split; [unfold getApiMarker, getMarker; now rewrite N|].
    split; [|split].
    + unfold getMarkers. apply orderByCreatedAt_filter.
    + intros j Hj. unfold getApiMarker, getMarker. simpl. now rewrite find_filter_other.
    + unfold deleteApiMarker, deleteMarker.
      destruct (filter_find_none i _ N) as [E1 E2]. rewrite E1, E2.
      change (0 <? length (@nil Row))%nat with false. cbv iota.
      now rewrite withRows_same.
  - unfold deleteApiMarker, deleteMarker.
    destruct (filter_find_none i _ F) as [-> ->]. simpl. now rewrite withRows_same.
Qed.

(** *** What an update writes *)

Lemma member_assign (key k : string) (v : Json) (values : list (string * Json)) :
  member key (assign k v values)
  = if String.eqb k key then Some v else member key values.
Proof.
  induction values as [|[k' x] rest IH]; simpl.
  - rewrite member_cons. now destruct (String.eqb k key).
  - destruct (String.eqb_spec k' k) as [E|E].
    + subst k'. rewrite !member_cons. now destruct (String.eqb k key).
    + rewrite !member_cons, IH.
      destruct (String.eqb_spec k' key) as [F|F]; [|reflexivity].
      destruct (String.eqb_spec k key) as [G|G]; [congruence|reflexivity].
Qed.

Lemma member_setValues (key : string) (data values : list (string * Json)) :
  NoDup (map fst data) ->
  member key (fold_left (fun values kv => assign (fst kv) (snd kv) values) data values)
  = match member key data with Some v => Some v | None => member key values end.
Proof.
  revert values. induction data as [|[k v] rest IH]; intros values ND; [reflexivity|].
  simpl in ND. apply NoDup_cons_iff in ND as [Nk ND].
  simpl. rewrite (IH _ ND), member_assign, member_cons.
  destruct (String.eqb_spec k key) as [E|E]; [|reflexivity].
  subst key. now rewrite (member_absent k rest Nk).
Qed.

Lemma find_map_update (i j : string) (f : Row -> Row) (l : list Row) :
  (forall r, rowId (f r) = rowId r) ->
  find (fun r => String.eqb (rowId r) j)
       (map (fun r => if String.eqb (rowId r) i then f r else r) l)
  = option_map (fun r => if String.eqb (rowId r) i then f r else r)
               (find (fun r => String.eqb (rowId r) j) l).
Proof.
  intros Hid. induction l as [|a l IH]; simpl; [reflexivity|].
  assert (E : rowId (if String.eqb (rowId a) i then f a else a) = rowId a)
    by (destruct (String.eqb (rowId a) i); [apply Hid|reflexivity]).
  rewrite E. destruct (String.eqb (rowId a) j); [reflexivity|exact IH].
Qed.

Lemma find_hit (i : string) (l : list Row) (r : Row) :
  find (fun r => String.eqb (rowId r) i) l = Some r -> rowId r = i.
Proof.
  intros H. apply find_some in H as [_ H]. now apply String.eqb_eq.
Qed.

Lemma partial_keys (s : Schema) : map fst (partial s) = map fst s.
Proof. unfold partial. rewrite map_map. reflexivity. Qed.

Lemma insertMarkerSchema_keys :
  map fst insertMarkerSchema = ["title"; "description"; "latitude"; "longitude"; "color"].
Proof. reflexivity. Qed.

Lemma insertMarkerSchema_NoDup : NoDup (map fst insertMarkerSchema).
Proof.
  rewrite insertMarkerSchema_keys.
  repeat (constructor; [simpl; intuition discriminate|]). constructor.
Qed.

(** The column an update writes a key to. *)
Lemma dataColumns_find (key : string) (c : Column) :
  In (key, c) dataColumns ->
  find (fun kc => String.eqb (fst kc) key) markers = Some (key, c).
Proof.
  intros H. simpl in H.
  repeat (destruct H as [H|H]; [injection H as <- <-; reflexivity|]). contradiction.
Qed.

Lemma dataColumns_column (key : string) :
  In key (map fst dataColumns) -> exists c, In (key, c) dataColumns.
Proof.
  intros H. apply in_map_iff in H as ([k c] & <- & H). now exists c.
Qed.

Lemma updateValues_keys (updateData values : list (string * Json)) :
  updateValues store updateData = Some values -> map fst values = map fst updateData.
Proof.
  revert values. induction updateData as [|[k v] rest IH]; intros values H; cbn [updateValues] in H.
  - now injection H as <-.
  - destruct (find (fun kc => String.eqb (fst kc) k) markers) as [[k' c]|]; [|discriminate].
    destruct (written store c (Some v)) as [x|]; [|discriminate].
    destruct (updateValues store rest) as [vs|]; [|discriminate].
    injection H as <-. simpl. f_equal. now apply IH.
Qed.

Lemma updateValues_member (updateData values : list (string * Json)) :
  updateValues store updateData = Some values ->
  forall key c v, In (key, c) dataColumns -> member key updateData = Some v ->
                  member key values = written store c (Some v).
Proof.
  revert values. induction updateData as [|[k v] rest IH]; intros values H key c v' Hin M;
    [discriminate|].
  cbn [updateValues] in H.
  destruct (find (fun kc => String.eqb (fst kc) k) markers) as [[k' c']|] eqn:F;
    [|discriminate].
  destruct (written store c' (Some v)) as [x|] eqn:W; [|discriminate].
  destruct (updateValues store rest) as [vs|] eqn:U; [|discriminate].
  injection H as <-. rewrite member_cons in *.
  destruct (String.eqb_spec k key) as [E|_]; [|now apply (IH vs eq_refl key c v')].
  subst k. injection M as ->. rewrite (dataColumns_find key c Hin) in F.
  injection F as _ <-. now rewrite W.
Qed.

Lemma updateValues_some (updateData : list (string * Json)) :
  incl (map fst updateData) (map fst dataColumns) ->
  (forall key c v, In (key, c) dataColumns -> In (key, v) updateData ->
                   written store c (Some v) <> None) ->
  exists values, updateValues store updateData = Some values.
Proof.
  induction updateData as [|[k v] rest IH]; intros K H; cbn [updateValues]; [now eexists|].
  destruct (dataColumns_column k) as [c Hc]; [apply K; now left|].
  rewrite (dataColumns_find k c Hc).
  destruct (written store c (Some v)) as [x|] eqn:W;
    [|now elim (H k c v Hc (or_introl eq_refl))].
  destruct IH as [vs ->].
  - intros x' Hx. apply K. now right.
  - intros key c' v' Hin Hv. apply (H key c' v' Hin). now right.
  - now eexists.
Qed.

Lemma updateValues_none (updateData : list (string * Json)) :
  (exists key c v, In (key, c) dataColumns /\ In (key, v) updateData
                   /\ written store c (Some v) = None) ->
  updateValues store updateData = None.
Proof.
  intros (key & c & v & Hc & Hin & W).
  induction updateData as [|[k v'] rest IH]; [contradiction|].
  cbn [updateValues]. destruct Hin as [E|Hin].
  - injection E as -> ->. now rewrite (dataColumns_find key c Hc), W.
  - rewrite (IH Hin).
    destruct (find (fun kc => String.eqb (fst kc) k) markers) as [[k' c']|]; [|reflexivity].
    now destruct (written store c' (Some v')).
Qed.

Lemma member_In (key : string) (v : Json) (l : list (string * Json)) :
  NoDup (map fst l) -> (member key l = Some v <-> In (key, v) l).
Proof.
  induction l as [|[k x] rest IH]; intros ND; [split; [discriminate|intros []]|].
  simpl in ND. apply NoDup_cons_iff in ND as [Nk ND]. rewrite member_cons.
  destruct (String.eqb_spec k key) as [E|E].
  - subst k. split.
    + intros H. injection H as ->. now left.
    + intros [H|H]; [now injection H as ->|].
      elim Nk. apply in_map_iff. now exists (key, v).
  - rewrite (IH ND). split; [now right|]. intros [H|H]; [|exact H].
    injection H as -> _. now elim E.
Qed.

Lemma member_none (key : string) (l : list (string * Json)) :
  member key l = None <-> ~ In key (map fst l).
Proof.
  induction l as [|[k x] rest IH]; [split; [intros _ []|reflexivity]|].
  rewrite member_cons. simpl. destruct (String.eqb_spec k key) as [E|E].
  - split; [discriminate|]. intros N. elim N. now left.
  - rewrite IH. split; [intros N [H|H]; contradiction|]. intros N H. apply N. now right.
Qed.

Lemma parse_partial_data (body : Json) (updateData : list (string * Json)) :
  parse realRange (partial insertMarkerSchema) body = Some updateData ->
  NoDup (map fst updateData) /\ incl (map fst updateData) (map fst dataColumns).
Proof.
  intros P. destruct body as [| | | | |members]; try discriminate.
  change (parseMembers realRange (partial insertMarkerSchema) members = Some updateData) in P.
  split.
  - apply (parseMembers_NoDup _ _ _ (eq_ind_r (@NoDup string) insertMarkerSchema_NoDup
                                              (partial_keys insertMarkerSchema)) P).
  - pose proof (parseMembers_keys _ _ _ P) as K.
    now rewrite partial_keys, insertMarkerSchema_keys, <- dataColumns_keys in K.
Qed.

(** X4. PUT /api/markers/:id with a body that validates to at least one
    member.  When the database takes every value given, the answer is
    404 for an unknown id, with the table as it was, and for a known id
    200 with the marker under the same id and creation time: a column
    the body gave holds what the database keeps of the validated member,
    every other column what it held; that marker is what the id is
    served with afterwards, and every other id is served as before.
    When the database refuses a value given, the answer is 500 and the
    table is as it was, whether the id is known or not. *)
Theorem updated_marker_is_merged
        (i : string) (body : Json) (updateData : list (string * Json)) (db : Db) :
  parse realRange (partial insertMarkerSchema) body = Some updateData ->
  updateData <> [] ->
  ((forall key c v, In (key, c) dataColumns -> member key updateData = Some v ->
                    written store c (Some v) <> None) ->
   match getMarker i db with
   | None => putApiMarker realRange store i body db
             = (AnswerError 404 "Marker not found", db)
   | Some old =>
       exists marker db',
         putApiMarker realRange store i body db = (AnswerMarker 200 marker, db')
         /\ rowId marker = i
         /\ rowCreatedAt marker = rowCreatedAt old
         /\ (forall key c v, In (key, c) dataColumns -> member key updateData = Some v ->
                             member key (rowValues marker) = written store c (Some v))
         /\ (forall key, member key updateData = None ->
                         member key (rowValues marker) = member key (rowValues old))
         /\ getApiMarker i db' = AnswerMarker 200 marker
         /\ (forall j, j <> i -> getApiMarker j db' = getApiMarker j db)
   end)
  /\ ((exists key c v, In (key, c) dataColumns /\ member key updateData = Some v
                       /\ written store c (Some v) = None) ->
      putApiMarker realRange store i body db
      = (AnswerError 500 "Failed to update marker", db)).
Proof.
  intros P NE. destruct (parse_partial_data body updateData P) as [ND K]. split.
  - intros W.
    destruct (updateValues_some updateData K) as [values U].
    { intros key c v Hc Hv. apply (W key c v Hc). now apply member_In. }
    pose proof (updateValues_keys _ _ U) as Ks.
    assert (NDv : NoDup (map fst values)) by now rewrite Ks.
    unfold getMarker, putApiMarker. rewrite P.
    destruct (updateMarker_cases i updateData db)
      as [[_ [E|E]]|[(values' & _ & U' & F & ->)|(values' & old & _ & U' & F & ->)]];
      [contradiction|congruence| |].
    + now rewrite F.
    + rewrite F. rewrite U in U'. injection U' as <-.
      eexists. eexists. split; [reflexivity|].
      split; [simpl; now apply (find_hit i (rows db))|].
      split; [reflexivity|]. split; [|split; [|split]].
      * intros key c v Hc Hv. cbn [rowValues setValues].
        rewrite (member_setValues key values _ NDv).
        rewrite (updateValues_member _ _ U key c v Hc Hv).
        destruct (written store c (Some v)) eqn:Wv; [reflexivity|].
        now elim (W key c v Hc Hv).
      * intros key Hn. simpl. rewrite (member_setValues key values _ NDv).
        assert (N : member key values = None).
        { apply member_none. rewrite Ks. now apply member_none. }
        now rewrite N.
      * unfold getApiMarker, getMarker. simpl.
        rewrite (find_map_update i i (setValues values) _ (rowId_setValues values)).
        rewrite F. simpl. rewrite (find_hit i _ _ F), String.eqb_refl. reflexivity.
      * intros j Hj. unfold getApiMarker, getMarker. simpl.
        rewrite (find_map_update i j (setValues values) _ (rowId_setValues values)).
        destruct (find (fun r => String.eqb (rowId r) j) (rows db)) as [x|] eqn:G;
          [|reflexivity].
        simpl. destruct (String.eqb_spec (rowId x) i) as [E|E]; [|reflexivity].
        elim Hj. now rewrite <- (find_hit j _ _ G).
  - intros (key & c & v & Hc & Hv & W).
    assert (U : updateValues store updateData = None).
    { apply updateValues_none. exists key, c, v. split; [exact Hc|].
      split; [now apply member_In|exact W]. }
    unfold putApiMarker, updateMarker. rewrite P, U. now destruct updateData.
Qed.

(** X5. A request to the marker routes that is answered with an error
    status (400, 404 or 500) leaves the table exactly as it was. *)
Theorem refused_request_changes_nothing (db : Db) (r : Request) :
  (400 <= statusOf (fst (serve realRange store db r)))%nat ->
  snd (serve realRange store db r) = db.
Proof.
  destruct r as [|i|body|i body|i]; simpl; try reflexivity.
  - unfold postApiMarkers, postMarkers.
    destruct (parse realRange insertMarkerSchema body) as [data|]; [|reflexivity].
    destruct (createMarker store data db) as [[marker db']|]; simpl; [lia|reflexivity].
  - unfold putApiMarker.
    destruct (parse realRange (partial insertMarkerSchema) body) as [data|]; [|reflexivity].
    destruct (updateMarker_cases i data db)
      as [[-> _]|[(values & _ & _ & _ & ->)|(values & old & _ & _ & _ & ->)]];
      simpl; try reflexivity. lia.
  - unfold deleteApiMarker, deleteMarker.
    destruct (Nat.ltb 0 (length (filter (fun r => String.eqb (rowId r) i) (rows db))))
      eqn:E; simpl; [lia|].
    intros _. destruct (find (fun r => String.eqb (rowId r) i) (rows db)) eqn:F.
    + now rewrite (filter_find_some i _ _ F) in E.
    + destruct (filter_find_none i _ F) as [_ ->]. apply withRows_same.
Qed.

(** X6. Validation against a schema with distinct keys returns the
    body's members at the schema's keys and nothing else, each accepted
    by its field: a member under any other key, such as an id or a
    creation time sent with a marker, never reaches the storage. *)
Theorem parse_keeps_schema_members
        (s : Schema) (members out : list (string * Json)) :
  NoDup (map fst s) ->
  parse realRange s (JObj members) = Some out ->
  (forall key, member key out
               = if existsb (String.eqb key) (map fst s) then member key members else None)
  /\ (forall k v, In (k, v) out -> exists f, In (k, f) s /\ accepts realRange f v = true).
Proof.
  intros ND P. simpl in P. split.
  - now apply parseMembers_member.
  - now apply (parseMembers_accepted s members).
Qed.

(** X7. The user schema accepts exactly the objects with a string under
    username and a string under password, and returns those two members
    only: the id column is no part of it. *)
Theorem insertUserSchema_accepts (body : Json) (out : list (string * Json)) :
  parse realRange insertUserSchema body = Some out
  <-> exists members u p,
        body = JObj members
        /\ member "username" members = Some (JStr u)
        /\ member "password" members = Some (JStr p)
        /\ out = [("username", JStr u); ("password", JStr p)].
Proof.
  rewrite insertUserSchema_fields. split.
  - destruct body as [| | | | |members]; try discriminate.
    unfold parse, parseMembers, accepts. cbn [ztype optional nullable].
    destruct (member "username" members) as [[| | |u| |]|] eqn:U; try discriminate.
    destruct (member "password" members) as [[| | |p| |]|] eqn:W; try discriminate.
    intros H. injection H as <-. now exists members, u, p.
  - intros (members & u & p & -> & U & W & ->).
    unfold parse, parseMembers, accepts. cbn [ztype optional nullable].
    now rewrite U, W.
Qed.

End MarkerRoutes.

Lemma getMarkers_lists_by_creation_time_witness :
  map Server.rowId (Server.rows twoMarkers) = ["marker-1"; "marker-0"]
  /\ map Server.rowId (Crud.getMarkers twoMarkers) = ["marker-0"; "marker-1"]
  /\ StronglySorted Crud.byCreatedAt (Crud.getMarkers twoMarkers)
  /\ Crud.getApiMarker "marker-7" twoMarkers = Crud.AnswerError 404 "Marker not found".
Proof.
  destruct (getMarkers_lists_by_creation_time twoMarkers) as (_ & S & N & _).
  split; [vm_compute; reflexivity|]. split; [vm_compute; reflexivity|].
  split; [exact S|]. apply N. vm_compute. intuition discriminate.
Defined.

Lemma created_marker_is_served_witness :
  let body := Server.JObj [("title", Server.JStr "Quay");
                           ("latitude", Server.JNum (inject_Z 36));
                           ("longitude", Server.JNum (- (1 # 4)))] in
  let data := [("title", Server.JStr "Quay"); ("latitude", Server.JNum (inject_Z 36));
               ("longitude", Server.JNum (- (1 # 4)))] in
  Crud.dbOk twoMarkers
  /\ Server.parse Server.anyNumber Server.insertMarkerSchema body = Some data
  /\ exists marker db',
       Crud.postApiMarkers Server.anyNumber Server.postgres body twoMarkers
       = (Crud.AnswerMarker 201 marker, db')
       /\ Server.member "latitude" (Server.rowValues marker)
          = Some (Server.JNum (inject_Z 36))
       /\ Server.member "description" (Server.rowValues marker) = Some Server.JNull
       /\ Server.member "color" (Server.rowValues marker) = Some (Server.JStr "#3b82f6")
       /\ Crud.getApiMarker (Server.rowId marker) db' = Crud.AnswerMarker 200 marker
       /\ Crud.getApiMarkers db'
          = Crud.AnswerMarkers 200 (Crud.getMarkers twoMarkers ++ [marker]).
Proof.
  intros body data.
  assert (Ok : Crud.dbOk twoMarkers)
    by (apply dbOk_after; exact dbOk_empty).
  split; [exact Ok|]. split; [reflexivity|].
  destruct (created_marker_is_served Server.anyNumber Server.postgres body data twoMarkers
                                     Ok eq_refl) as [H _].
  destruct H as (marker & db' & A & _ & V & _ & G & L & _).
  { intros key c Hin. simpl in Hin.
    repeat (destruct Hin as [Hin|Hin];
            [injection Hin as <- <-; vm_compute; discriminate|]).
    contradiction. }
  exists marker, db'. split; [exact A|].
  split; [|split; [|split; [|split; [exact G|exact L]]]].
  - apply (eq_trans (V "latitude" (columnOf "latitude" Server.PgReal true None)
                       ltac:(vm_compute; tauto))).
    vm_compute. reflexivity.
  - apply (eq_trans (V "description" (columnOf "description" Server.PgText false None)
                       ltac:(vm_compute; tauto))).
    vm_compute. reflexivity.
  - apply (eq_trans (V "color" (columnOf "color" (Server.PgVarchar (Some 7%nat)) false
                                         (Some (Server.JStr "#3b82f6")))
                       ltac:(vm_compute; tauto))).
    vm_compute. reflexivity.
Defined.

Lemma deleted_marker_is_gone_witness :
  exists db',
    Crud.deleteApiMarker "marker-0" twoMarkers = (Crud.AnswerEmpty 204, db')
    /\ Crud.getApiMarker "marker-0" db' = Crud.AnswerError 404 "Marker not found"
    /\ Crud.getMarkers db'
       = filter (fun r => negb (String.eqb (Server.rowId r) "marker-0"))
                (Crud.getMarkers twoMarkers).
Proof.
  pose proof (deleted_marker_is_gone Server.anyNumber Server.postgres
                                     [Crud.PostMarker port; Crud.PostMarker pier]
                                     "marker-0") as H.
  cbv zeta in H. fold twoMarkers in H.
  assert (G : exists marker, Crud.getMarker "marker-0" twoMarkers = Some marker)
    by (vm_compute; eexists; reflexivity).
  destruct G as [marker G]. rewrite G in H.
  destruct H as (db' & A & B & C & _).
  exists db'. split; [exact A|]. split; [exact B|exact C].
Defined.

Lemma updated_marker_is_merged_witness :
  let body := Server.JObj [("title", Server.JStr "Harbour");
                           ("latitude", Server.JNum (145 # 4))] in
  let updateData := [("title", Server.JStr "Harbour");
                     ("latitude", Server.JNum (145 # 4))] in
  let refused := Server.JObj [("latitude", Server.JNum Server.huge)] in
  Server.parse Server.anyNumber (Crud.partial Server.insertMarkerSchema) body
  = Some updateData
  /\ updateData <> []
  /\ (exists marker db',
         Crud.putApiMarker Server.anyNumber Server.postgres "marker-0" body twoMarkers
         = (Crud.AnswerMarker 200 marker, db')
         /\ Server.member "title" (Server.rowValues marker) = Some (Server.JStr "Harbour")
         /\ Server.member "latitude" (Server.rowValues marker)
            = Some (Server.JNum (145 # 4))
         /\ Server.member "longitude" (Server.rowValues marker)
            = Some (Server.JNum (- (3 # 4))))
  /\ Crud.putApiMarker Server.anyNumber Server.postgres "marker-9" refused twoMarkers
     = (Crud.AnswerError 500 "Failed to update marker", twoMarkers).
Proof.
  intros body updateData refused. split; [reflexivity|]. split; [discriminate|].
  split.
  - destruct (updated_marker_is_merged Server.anyNumber Server.postgres "marker-0" body
                                       updateData twoMarkers eq_refl ltac:(discriminate))
      as [H _].
    assert (G : exists old, Crud.getMarker "marker-0" twoMarkers = Some old
                            /\ Server.member "longitude" (Server.rowValues old)
                               = Some (Server.JNum (- (3 # 4))))
      by (vm_compute; eexists; split; reflexivity).
    destruct G as (old & G & Lo). rewrite G in H.
    destruct H as (marker & db' & A & _ & _ & V & K & _).
    { intros key c v Hin M. simpl in Hin.
      repeat (destruct Hin as [Hin|Hin];
              [injection Hin as <- <-; vm_compute in M;
               first [discriminate M | injection M as <-; vm_compute; discriminate]|]).
      contradiction. }
    exists marker, db'. split; [exact A|]. split; [|split].
    + apply (eq_trans (V "title" (columnOf "title" Server.PgText true None) _
                         ltac:(vm_compute; tauto) eq_refl)).
      vm_compute. reflexivity.
    + apply (eq_trans (V "latitude" (columnOf "latitude" Server.PgReal true None) _
                         ltac:(vm_compute; tauto) eq_refl)).
      vm_compute. reflexivity.
    + rewrite (K "longitude" eq_refl). exact Lo.
  - destruct (updated_marker_is_merged
                Server.anyNumber Server.postgres "marker-9" refused
                [("latitude", Server.JNum Server.huge)] twoMarkers
                eq_refl ltac:(discriminate)) as [_ H].
    apply H. exists "latitude", (columnOf "latitude" Server.PgReal true None),
               (Server.JNum Server.huge).
    split; [vm_compute; tauto|]. split; [reflexivity|]. vm_compute. reflexivity.
Defined.

Lemma refused_request_changes_nothing_witness :
  (400 <= Crud.statusOf
            (fst (Crud.serve Server.anyNumber Server.postgres twoMarkers
                             (Crud.PostMarker
                                (Server.JObj [("title", Server.JStr "Far");
                                              ("latitude", Server.JNum Server.huge);
                                              ("longitude", Server.JNum 0)])))))%nat
  /\ snd (Crud.serve Server.anyNumber Server.postgres twoMarkers
                     (Crud.PostMarker
                        (Server.JObj [("title", Server.JStr "Far");
                                      ("latitude", Server.JNum Server.huge);
                                      ("longitude", Server.JNum 0)])))
     = twoMarkers.
Proof.
  assert (H : (400 <= Crud.statusOf
                        (fst (Crud.serve Server.anyNumber Server.postgres twoMarkers
                                (Crud.PostMarker
                                   (Server.JObj [("title", Server.JStr "Far");
                                                 ("latitude", Server.JNum Server.huge);
                                                 ("longitude", Server.JNum 0)])))))%nat)
    by (vm_compute; lia).
  split; [exact H|].
  exact (refused_request_changes_nothing Server.anyNumber Server.postgres twoMarkers _ H).
Defined.

Lemma parse_keeps_schema_members_witness :
  let members := [("id", Server.JStr "mine"); ("title", Server.JStr "Port");
                  ("latitude", Server.JNum (357 # 10));
                  ("longitude", Server.JNum (- (63 # 100)))] in
  let out := [("title", Server.JStr "Port"); ("latitude", Server.JNum (357 # 10));
              ("longitude", Server.JNum (- (63 # 100)))] in
  NoDup (map fst Server.insertMarkerSchema)
  /\ Server.parse Server.anyNumber Server.insertMarkerSchema (Server.JObj members)
     = Some out
  /\ Server.member "id" out = None
  /\ Server.member "title" out = Some (Server.JStr "Port").
Proof.
  intros members out. split; [exact insertMarkerSchema_NoDup|]. split; [reflexivity|].
  destruct (parse_keeps_schema_members Server.anyNumber Server.insertMarkerSchema
                                       members out insertMarkerSchema_NoDup eq_refl)
    as [A _].
  split; [exact (A "id")|exact (A "title")].
Defined.

(** * Further properties: searching routes *)

(** ** The server's validation *)

Lemma leb_1_length (s : string) : Nat.leb 1 (String.length s) = negb (String.eqb s EmptyString).
Proof. now destruct s. Qed.

(** X8. POST /api/routes/search answers with routes exactly for an
    object whose start and end are non-empty strings and whose mode is
    missing or one of driving, walking, transit, bicycling; any other
    body gets 400.  The routes are the two mocked ones, which mention of
    the request only its end; white space counts as text here. *)
Theorem route_search_validation (body : Server.Json) (routes : list Server.RouteResult) :
  Server.postRoutesSearch body = Server.SearchOk routes
  <-> exists members s e,
        body = Server.JObj members
        /\ Server.member "start" members = Some (Server.JStr s) /\ s <> EmptyString
        /\ Server.member "end" members = Some (Server.JStr e) /\ e <> EmptyString
        /\ modeOk (Server.member "mode" members) = true
        /\ routes = Server.mockRoutes {| Server.start := EmptyString; Server.end_ := e;
                                         Server.mode := EmptyString |}.
Proof.
  unfold Server.postRoutesSearch, Server.routeSearchSchema_parse. split.
  - destruct body as [| | | | |members]; try discriminate.
    destruct (Server.member "start" members) as [[| | |s| |]|] eqn:S; try discriminate.
    destruct (Server.member "end" members) as [[| | |e| |]|] eqn:E; try discriminate.
    rewrite !leb_1_length.
    destruct (String.eqb_spec s EmptyString) as [|Ns]; [discriminate|].
    destruct (String.eqb_spec e EmptyString) as [|Ne]; [discriminate|].
    cbn [negb andb]. intros H. exists members, s, e.
    split; [reflexivity|]. split; [exact S|]. split; [exact Ns|].
    split; [exact E|]. split; [exact Ne|].
    unfold modeOk.
    destruct (Server.member "mode" members) as [[| | |m| |]|]; try discriminate.
    + destruct (existsb (String.eqb m) ["driving"; "walking"; "transit"; "bicycling"]);
        [|discriminate].
      split; [reflexivity|]. now injection H as <-.
    + split; [reflexivity|]. now injection H as <-.
  - intros (members & s & e & -> & S & Ns & E & Ne & M & ->).
    rewrite S, E, !leb_1_length.
    destruct (String.eqb_spec s EmptyString) as [|_]; [contradiction|].
    destruct (String.eqb_spec e EmptyString) as [|_]; [contradiction|].
    cbn [negb andb]. unfold modeOk in M.
    destruct (Server.member "mode" members) as [[| | |m| |]|]; try discriminate.
    + now rewrite M.
    + reflexivity.
Qed.

(** ** The client's guard *)

Lemma blank_trimStart (s : string) : Js.blank (Js.trimStart s) = Js.blank s.
Proof.
  induction s as [s IH] using string_strong_ind.
  destruct s as [|a r]; [reflexivity|]. cbn [Js.trimStart].
  destruct (Js.isWhiteSpace1 a) eqn:W1.
  { cbn [Js.blank]. rewrite W1. apply IH. simpl. lia. }
  destruct r as [|b r]; [reflexivity|].
  destruct (Js.isWhiteSpace2 a b) eqn:W2.
  { cbn [Js.blank]. rewrite W1, W2. apply IH. simpl. lia. }
  destruct r as [|c r]; [reflexivity|].
  destruct (Js.isWhiteSpace3 a b c) eqn:W3; [|reflexivity].
  cbn [Js.blank]. rewrite W1, W2, W3. apply IH. simpl. lia.
Qed.

Lemma truthy_trimEnd (s : string) : Js.truthy (Js.trimEnd s) = negb (Js.blank s).
Proof.
  destruct s as [|a r]; [reflexivity|]. cbn [Js.trimEnd].
  now destruct (Js.blank (String a r)).
Qed.

Lemma truthy_trim (s : string) : Js.truthy (Js.trim s) = negb (Js.blank s).
Proof. unfold Js.trim. now rewrite truthy_trimEnd, blank_trimStart. Qed.

Lemma solid_1 c : Js.solid c = true -> Js.isWhiteSpace1 c = false.
Proof. unfold Js.solid. intros H. apply andb_true_iff in H as [_ H]. now destruct (Js.isWhiteSpace1 c). Qed.

Lemma solid_2 a c : Js.solid c = true -> Js.isWhiteSpace2 a c = false /\ Js.isWhiteSpace2 c a = false.
Proof.
  unfold Js.solid, Js.isWhiteSpace2. intros H. apply andb_true_iff in H as [H _].
  apply Nat.ltb_lt in H.
  split.
  - destruct (Nat.eqb_spec (nat_of_ascii c) 160); [lia|apply andb_false_r].
  - destruct (Nat.eqb_spec (nat_of_ascii c) 194); [lia|reflexivity].
Qed.

Lemma solid_3 a b c :
  Js.solid c = true ->
  Js.isWhiteSpace3 c a b = false /\ Js.isWhiteSpace3 a c b = false
  /\ Js.isWhiteSpace3 a b c = false.
Proof.
  unfold Js.solid, Js.isWhiteSpace3. intros H. apply andb_true_iff in H as [H _].
  apply Nat.ltb_lt in H. cbv zeta.
  repeat split.
  - repeat match goal with
           | |- context [Nat.eqb (nat_of_ascii c) ?k] =>
               destruct (Nat.eqb_spec (nat_of_ascii c) k); [lia|]
           end. reflexivity.
  - repeat match goal with
           | |- context [Nat.eqb (nat_of_ascii c) ?k] =>
               destruct (Nat.eqb_spec (nat_of_ascii c) k); [lia|]
           end. now rewrite !andb_false_r.
  - repeat match goal with
           | |- context [Nat.eqb (nat_of_ascii c) ?k] =>
               destruct (Nat.eqb_spec (nat_of_ascii c) k); [lia|]
           end.
    destruct (Nat.leb_spec 128 (nat_of_ascii c)); [lia|].
    cbn [andb orb]. now rewrite !andb_false_r.
Qed.

Lemma blank_solid (a : string) (c : ascii) (b : string) :
  Js.solid c = true -> Js.blank (a ++ String c b) = false.
Proof.
  intros S. induction a as [a IH] using string_strong_ind.
  destruct a as [|x a].
  { cbn [append Js.blank]. rewrite (solid_1 _ S).
    destruct b as [|y b]; [reflexivity|].
    rewrite (proj2 (solid_2 y _ S)).
    destruct b as [|z b]; [reflexivity|].
    now rewrite (proj1 (solid_3 y z _ S)). }
  cbn [append Js.blank].
  destruct (Js.isWhiteSpace1 x); [apply IH; simpl; lia|].
  destruct a as [|y a].
  { cbn [append]. rewrite (proj1 (solid_2 x _ S)).
    destruct b as [|z b]; [reflexivity|].
    now rewrite (proj1 (proj2 (solid_3 x z _ S))). }
  cbn [append].
  destruct (Js.isWhiteSpace2 x y); [apply IH; simpl; lia|].
  destruct a as [|z a].
  { cbn [append]. now rewrite (proj2 (proj2 (solid_3 x y _ S))). }
  cbn [append].
  destruct (Js.isWhiteSpace3 x y z); [apply IH; simpl; lia|reflexivity].
Qed.

Lemma findRoutesDisabled_blank (v : View) :
  showRoutePanel v && negb (findRoutesDisabled v) = ready v.
Proof.
  unfold findRoutesDisabled, ready. rewrite !truthy_trim, !negb_involutive.
  now rewrite !negb_orb, !andb_assoc.
Qed.

(** X9. A click on 'Find Routes' sends a request exactly when the route
    panel is shown, no search is running and both endpoint texts contain
    something other than white space.  The request then carries the two
    texts as typed, untrimmed, with mode transit; the search is marked as
    loading and the stored results are emptied, the map being left alone.
    Otherwise the click does nothing at all. *)
Theorem find_routes_sends_when_ready (w : World) :
  let v := view w in
  let w' := dispatch ClickFindRoutes w in
  (ready v = false -> w' = w)
  /\ (ready v = true ->
      fetched w' = fetched w ++ [{| reqStart := startLocation v; reqEnd := endLocation v;
                                    reqMode := "transit" |}]
      /\ pending w' = Some v
      /\ view w' = setRouteResults (setIsLoadingRoute v true) []
      /\ map_current w' = map_current w
      /\ console w' = console w).
Proof.
  cbv zeta. unfold dispatch. rewrite findRoutesDisabled_blank.
  destruct (ready (view w)) eqn:R.
  - split; [discriminate|]. intros _.
    unfold ready in R. apply andb_true_iff in R as [R Be].
    apply andb_true_iff in R as [_ Bs].
    rewrite searchBusRoutes_begin_sends by (rewrite truthy_trim; assumption).
    world. repeat split.
  - split; [reflexivity|discriminate].
Qed.

Lemma find_routes_sends_when_ready_witness :
  let w := run [ClickRouteToggle; ChangeStart " Oran "; ChangeEnd "Es Senia"]
               (mount (Some (newMap [] []))) in
  ready (view w) = true
  /\ fetched (dispatch ClickFindRoutes w)
     = [{| reqStart := " Oran "; reqEnd := "Es Senia"; reqMode := "transit" |}].
Proof.
  intros w. split; [reflexivity|].
  destruct (find_routes_sends_when_ready w) as [_ H].
  destruct (H eq_refl) as (F & _). exact F.
Defined.

(** * Further properties: states the component can reach *)

(** ** A search in flight *)

Lemma searchState_updView (f : View -> View) (w : World) :
  isLoadingRoute (f (view w)) = isLoadingRoute (view w) ->
  searchState (updView f w) = searchState w.
Proof. intros H. unfold searchState. world. now rewrite H. Qed.

Lemma searchState_onMap (f : MapboxMap -> MapboxMap) (w : World) :
  searchState (onMap f w) = searchState w.
Proof. unfold searchState. now world. Qed.

Lemma searchState_setMap (m : option MapboxMap) (w : World) :
  searchState (setMap m w) = searchState w.
Proof. reflexivity. Qed.

Lemma searchState_consoleLog (s : string) (w : World) :
  searchState (consoleLog s w) = searchState w.
Proof. reflexivity. Qed.

Ltac search_frame :=
  repeat first
    [ rewrite searchState_updView by reflexivity
    | rewrite searchState_onMap
    | rewrite searchState_setMap
    | rewrite searchState_consoleLog
    | progress unfold put ].

Lemma searchState_clearLocationMarkers (cap : View) (w : World) :
  searchState (clearLocationMarkers cap w) = searchState w.
Proof.
  unfold clearLocationMarkers, markerRemove.
  destruct (startMarker cap), (endMarker cap); cbv zeta; search_frame; reflexivity.
Qed.

Lemma searchState_clearRouteLayersFromMap (cap : View) (w : World) :
  searchState (clearRouteLayersFromMap cap w) = searchState w.
Proof.
  destruct (map_current w) as [m|] eqn:E.
  - destruct (clearRouteLayersFromMap_some cap w m E) as (m' & -> & _).
    now search_frame.
  - now rewrite clearRouteLayersFromMap_none.
Qed.

Lemma searchState_addStartMarker (cap : View) (c : LngLat) (w : World) :
  searchState (addStartMarker cap c w) = searchState w.
Proof.
  destruct (map_current w) as [m|] eqn:E.
  - destruct (addStartMarker_some cap c w m E) as (m' & -> & _). now search_frame.
  - unfold addStartMarker. now rewrite E.
Qed.

Lemma addEndMarker_some (cap : View) (coordinates : LngLat) (w : World) (m : MapboxMap) :
  map_current w = Some m ->
  exists m',
    addEndMarker cap coordinates w
    = put setEndMarker (Some (endPin m coordinates)) (setMap (Some m') w)
    /\ markers m' = without (endMarker cap) (markers m) ++ [endPin m coordinates]
    /\ markerCount m' = S (markerCount m)
    /\ listeners m' = listeners m /\ layers m' = layers m /\ sources m' = sources m
    /\ calls m' = calls m.
Proof.
  intros E. unfold addEndMarker. rewrite E.
  destruct (endMarker cap) as [old|]; unfold markerRemove;
    rewrite ?map_current_onMap, E; cbn [option_map]; cbv beta iota zeta;
    unfold Mapbox.newMarker; cbv beta iota zeta;
    eexists; (split; [apply world_ext; world; reflexivity|]);
    repeat split.
Qed.

Lemma searchState_addEndMarker (cap : View) (c : LngLat) (w : World) :
  searchState (addEndMarker cap c w) = searchState w.
Proof.
  destruct (map_current w) as [m|] eqn:E.
  - destruct (addEndMarker_some cap c w m E) as (m' & -> & _). now search_frame.
  - unfold addEndMarker. now rewrite E.
Qed.

Lemma searchState_handleLocationClick (cap : View) (c : LngLat) (w : World) :
  searchState (handleLocationClick cap c w) = searchState w.
Proof.
  unfold handleLocationClick. destruct (clickMode cap); cbv zeta; [reflexivity| |];
    repeat first [ rewrite searchState_addStartMarker | rewrite searchState_addEndMarker
                 | progress search_frame ];
    reflexivity.
Qed.

Lemma searchState_clicks (c : LngLat) (hs : list Listener) (w : World) :
  searchState (fold_left (fun w h => handleLocationClick (captured h) c w) hs w)
  = searchState w.
Proof.
  revert w. induction hs as [|h hs IH]; intros w; simpl; [reflexivity|].
  now rewrite IH, searchState_handleLocationClick.
Qed.

Lemma searchState_handleKeyDown (cap : View) (key : string) (w : World) :
  searchState (handleKeyDown cap key w) = searchState w.
Proof.
  unfold handleKeyDown, resetView. cbv zeta.
  destruct (String.eqb key "r" || String.eqb key "R");
    destruct (String.eqb key "b" || String.eqb key "B");
    destruct (String.eqb key "i" || String.eqb key "I");
    destruct (String.eqb key "Escape");
    repeat first [ rewrite searchState_clearRouteLayersFromMap | progress search_frame ];
    reflexivity.
Qed.

Lemma searchState_loadMarkers (res : MarkersResult) (w : World) :
  searchState (loadMarkers res w) = searchState w.
Proof.
  rewrite loadMarkers_spec. unfold shown. destruct (warns res w); now search_frame.
Qed.

Lemma searchState_rerender (w : World) : searchState (rerender w) = searchState w.
Proof.
  unfold searchState. rewrite rerender_view. unfold rerender.
  destruct (ClickMode_eqb (clickMode (view w)) (effectMode w)); world; [reflexivity|].
  unfold clickModeEffect, clickModeCleanup.
  destruct (map_current (onMap (Mapbox.off (effectHandler w)) w)); now world.
Qed.

Lemma searchState_dispatch (ev : Event) (w : World) :
  match ev with ClickFindRoutes | FetchSettles _ => False | _ => True end ->
  searchState (dispatch ev w) = searchState w.
Proof.
  destruct ev; intros H; try contradiction; unfold dispatch; cbv zeta;
    unfold onClickSetStart, onClickSetEnd, onClickClear, onClickCloseRoutePanel,
           resetView, geolocated;
    try destruct (showRoutePanel (view w));
    try destruct (showInfoPanel (view w));
    cbv zeta;
    repeat first [ rewrite searchState_clearRouteLayersFromMap
                 | rewrite searchState_clearLocationMarkers
                 | rewrite searchState_handleKeyDown
                 | rewrite searchState_loadMarkers
                 | progress search_frame ];
    try reflexivity.
  all: destruct (map_current w); [apply searchState_clicks|reflexivity].
Qed.

(** The [finally] block of [searchBusRoutes]. *)
Lemma resume_finally (cap : View) (res : FetchResult) (w : World) :
  pending (searchBusRoutes_resume cap res w) = None
  /\ isLoadingRoute (view (searchBusRoutes_resume cap res w)) = false.
Proof. unfold searchBusRoutes_resume. cbv zeta. now world. Qed.


Lemma searching_dispatch (ev : Event) (w : World) : searching w -> searching (dispatch ev w).
Proof.
  intros I.
  assert (N : searchState (dispatch ev w) = searchState w -> searching (dispatch ev w)).
  { unfold searchState, searching. intros E. injection E as -> -> ->. exact I. }
  destruct ev; try (apply N; now apply searchState_dispatch).
  - (* Find Routes *)
    unfold dispatch. rewrite findRoutesDisabled_blank.
    destruct (ready (view w)) eqn:R; [|exact I].
    unfold ready in R. apply andb_true_iff in R as [R Be].
    apply andb_true_iff in R as [_ Bs].
    rewrite searchBusRoutes_begin_sends by (rewrite truthy_trim; assumption).
    unfold searching. world. split; [reflexivity|]. now exists (fetched w).
  - (* the answer *)
    unfold dispatch. destruct (pending w) as [cap|] eqn:P; [|exact I].
    destruct (resume_finally cap res w) as [A B].
    unfold searching. now rewrite A, B.
Qed.

Lemma searching_step (w : World) (ev : Event) : searching w -> searching (step w ev).
Proof.
  intros I. apply (searching_dispatch ev) in I. unfold step.
  pose proof (searchState_rerender (dispatch ev w)) as E.
  unfold searchState, searching in *. injection E as -> -> ->. exact I.
Qed.

Lemma searching_run (evs : list Event) (w : World) : searching w -> searching (run evs w).
Proof.
  revert w. induction evs as [|ev evs IH]; intros w I; [exact I|].
  simpl. apply IH. now apply searching_step.
Qed.

Lemma searching_mount (m : option MapboxMap) : searching (mount m).
Proof.
  unfold searching, mount, clickModeEffect. cbn [map_current].
  destruct m; reflexivity.
Qed.

(** ** The endpoint pins *)

Lemma pinState_updView (f : View -> View) (w : World) :
  startMarker (f (view w)) = startMarker (view w) ->
  endMarker (f (view w)) = endMarker (view w) ->
  pinState (updView f w) = pinState w.
Proof. intros A B. unfold pinState. world. now rewrite A, B. Qed.

Lemma pinState_onMap (f : MapboxMap -> MapboxMap) (w : World) :
  (forall m, markers (f m) = markers m /\ markerCount (f m) = markerCount m) ->
  pinState (onMap f w) = pinState w.
Proof.
  intros H. unfold pinState. world. destruct (map_current w) as [m|]; [|reflexivity].
  simpl. now destruct (H m) as [-> ->].
Qed.

Lemma pinState_setMap (m m' : MapboxMap) (w : World) :
  map_current w = Some m ->
  markers m' = markers m -> markerCount m' = markerCount m ->
  pinState (setMap (Some m') w) = pinState w.
Proof. intros E A B. unfold pinState. world. rewrite E. simpl. now rewrite A, B. Qed.

Lemma pinState_consoleLog (s : string) (w : World) : pinState (consoleLog s w) = pinState w.
Proof. reflexivity. Qed.

Lemma pinState_fetch (r : SearchRequest) (cap : View) (w : World) :
  pinState (fetch r cap w) = pinState w.
Proof. reflexivity. Qed.

Lemma pinState_settle (w : World) : pinState (settle w) = pinState w.
Proof. reflexivity. Qed.

Lemma pinState_setEffect (n : nat) (c : ClickMode) (h : Listener) (w : World) :
  pinState (setEffect n c h w) = pinState w.
Proof. reflexivity. Qed.

Ltac pin_frame :=
  repeat first
    [ rewrite pinState_updView by reflexivity
    | rewrite pinState_onMap by (intros; split; reflexivity)
    | rewrite pinState_consoleLog
    | rewrite pinState_fetch
    | rewrite pinState_settle
    | rewrite pinState_setEffect
    | progress unfold put ].

Lemma pinState_clearRouteLayersFromMap (cap : View) (w : World) :
  pinState (clearRouteLayersFromMap cap w) = pinState w.
Proof.
  destruct (map_current w) as [m|] eqn:E.
  - destruct (clearRouteLayersFromMap_some cap w m E) as (m' & -> & _ & _ & _ & A & B & _).
    rewrite (pinState_setMap m m'); [now pin_frame|now world|exact A|exact B].
  - now rewrite clearRouteLayersFromMap_none.
Qed.

Lemma pinState_displayRoute (w : World) (entry : nat * Route) :
  pinState (displayRoute w entry) = pinState w.
Proof.
  destruct entry as [i r]. unfold displayRoute.
  destruct (drawable r) as [g|]; [|reflexivity].
  destruct (map_current w) as [m|] eqn:E; [|reflexivity].
  cbv zeta.
  destruct (negb (Mapbox.getSource (sourceIdOf i) m));
    match goal with |- context [if ?b then _ else _] => destruct b end;
    unfold pinState; world; rewrite E; reflexivity.
Qed.

Lemma pinState_displayRoutesOnMap (cap : View) (routes : list Route) (w : World) :
  pinState (displayRoutesOnMap cap routes w) = pinState w.
Proof.
  unfold displayRoutesOnMap. destruct (map_current w); [|reflexivity].
  rewrite <- (pinState_clearRouteLayersFromMap cap w).
  generalize (clearRouteLayersFromMap cap w). generalize (indexed routes).
  intros es. induction es as [|e es IH]; intros w0; simpl; [reflexivity|].
  now rewrite IH, pinState_displayRoute.
Qed.

Lemma pinState_searchBusRoutes_begin (cap : View) (w : World) :
  pinState (searchBusRoutes_begin cap w) = pinState w.
Proof.
  unfold searchBusRoutes_begin.
  match goal with |- context [if ?b then _ else _] => destruct b end;
    cbv zeta; now pin_frame.
Qed.

Lemma pinState_searchBusRoutes_resume (cap : View) (res : FetchResult) (w : World) :
  pinState (searchBusRoutes_resume cap res w) = pinState w.
Proof.
  unfold searchBusRoutes_resume. cbv zeta.
  destruct res as [|[|] [[|first rest]|]]; pin_frame; try reflexivity.
  destruct (bounds first);
    repeat first [ rewrite pinState_displayRoutesOnMap | progress pin_frame ]; reflexivity.
Qed.

Lemma pinState_handleKeyDown (cap : View) (key : string) (w : World) :
  pinState (handleKeyDown cap key w) = pinState w.
Proof.
  unfold handleKeyDown, resetView. cbv zeta.
  destruct (String.eqb key "r" || String.eqb key "R");
    destruct (String.eqb key "b" || String.eqb key "B");
    destruct (String.eqb key "i" || String.eqb key "I");
    destruct (String.eqb key "Escape");
    repeat first [ rewrite pinState_clearRouteLayersFromMap | progress pin_frame ];
    reflexivity.
Qed.

Lemma pinState_rerender (w : World) : pinState (rerender w) = pinState w.
Proof.
  unfold rerender.
  destruct (ClickMode_eqb (clickMode (view w)) (effectMode w)); pin_frame; [reflexivity|].
  unfold clickModeEffect, clickModeCleanup.
  rewrite map_current_onMap.
  destruct (map_current w) as [m|] eqn:E; cbn [option_map]; cbv zeta.
  - unfold pinState. world. rewrite E. cbn [option_map].
    match goal with |- context [if ?b then _ else _] => destruct b end; reflexivity.
  - unfold onMap. now rewrite E.
Qed.

(** What the three functions that touch markers do to them. *)

Lemma pinState_clearLocationMarkers (w : World) :
  pinState (clearLocationMarkers (view w) w)
  = (option_map (fun m => (without (endMarker (view w))
                             (without (startMarker (view w)) (markers m)),
                           markerCount m))
                (map_current w),
     None, None).
Proof.
  unfold clearLocationMarkers, markerRemove, pinState. cbv zeta.
  destruct (startMarker (view w)) as [s|] eqn:S, (endMarker (view w)) as [e|] eqn:E;
    world; rewrite ?S, ?E; destruct (map_current w); cbn; rewrite ?S, ?E; reflexivity.
Qed.

Lemma savedMarkers_app (n : nat) (a b : list MarkerData) :
  savedMarkers n (a ++ b) = savedMarkers n a ++ savedMarkers (n + length a)%nat b.
Proof.
  revert n. induction a as [|d a IH]; intros n; simpl.
  - now rewrite Nat.add_0_r.
  - rewrite IH. now rewrite Nat.add_succ_r.
Qed.

Lemma pinState_loadMarkers (res : MarkersResult) (w : World) :
  pinState (loadMarkers res w)
  = (option_map (fun m => (markers m ++ savedMarkers (markerCount m) (loaded res),
                           (markerCount m + length (loaded res))%nat))
                (map_current w),
     startMarker (view w), endMarker (view w)).
Proof.
  rewrite loadMarkers_spec.
  assert (S : pinState (shown (loaded res) w)
              = (option_map (fun m => (markers m ++ savedMarkers (markerCount m) (loaded res),
                                       (markerCount m + length (loaded res))%nat))
                            (map_current w),
                 startMarker (view w), endMarker (view w))).
  { unfold shown, onMap, pinState. destruct (map_current w) as [m|] eqn:E; world;
      [reflexivity|now rewrite E]. }
  destruct (warns res w); [now rewrite pinState_consoleLog|exact S].
Qed.

Lemma handleLocationClick_end (cap : View) (coordinates : LngLat) (w : World) :
  clickMode cap = ModeEnd ->
  handleLocationClick cap coordinates w
  = put setClickMode ModeNone
      (addEndMarker cap coordinates
         (put setEndLocation (coordsText coordinates)
            (put setEndCoords
               (Some {| lng := lng coordinates; lat := lat coordinates |}) w))).
Proof. intros E. unfold handleLocationClick. now rewrite E. Qed.

Lemma handleLocationClick_pick (k : Endpoint) (cap : View) (c : LngLat) (w : World)
      (m : MapboxMap) :
  map_current w = Some m ->
  clickMode cap = pickingMode k ->
  exists m',
    handleLocationClick cap c w
    = setMap (Some m') (updView (picked k c (pinOf k m c)) w)
    /\ markers m' = without (markerOf k cap) (markers m) ++ [pinOf k m c]
    /\ markerCount m' = S (markerCount m)
    /\ listeners m' = listeners m /\ layers m' = layers m /\ sources m' = sources m
    /\ calls m' = calls m.
Proof.
  intros E M. destruct k; simpl in M.
  - rewrite (handleLocationClick_start cap c w M).
    destruct (addStartMarker_some cap c
                (put setStartLocation (coordsText c)
                   (put setStartCoords (Some {| lng := lng c; lat := lat c |}) w)) m E)
      as (m' & -> & H).
    exists m'. split; [reflexivity|exact H].
  - rewrite (handleLocationClick_end cap c w M).
    destruct (addEndMarker_some cap c
                (put setEndLocation (coordsText c)
                   (put setEndCoords (Some {| lng := lng c; lat := lat c |}) w)) m E)
      as (m' & -> & H).
    exists m'. split; [reflexivity|exact H].
Qed.

(** The pins are told apart as intended. *)
Lemma isPinOf_pinOf (k : Endpoint) (m : MapboxMap) (c : LngLat) :
  isPinOf k (pinOf k m c) = true /\ isPinOf (other k) (pinOf k m c) = false.
Proof.
  unfold isPinOf, isPin, Js.startsWith.
  destruct k; cbn [pinOf startPin endPin popupHTML color other]; unfold pinPopup;
    rewrite prefix_append; split; reflexivity.
Qed.

Lemma isPinOf_saved (k : Endpoint) (n : nat) (d : MarkerData) :
  isPinOf k (savedMarker n d) = false.
Proof. reflexivity. Qed.

Lemma isPinOf_other (k : Endpoint) (a : Marker) :
  isPinOf k a = true -> isPinOf (other k) a = false.
Proof.
  unfold isPinOf. intros H. apply andb_true_iff in H as [_ H].
  apply String.eqb_eq in H. rewrite H. destruct k; simpl; apply andb_false_r.
Qed.

Lemma markerId_pinOf (k : Endpoint) (m : MapboxMap) (c : LngLat) :
  markerId (pinOf k m c) = markerCount m.
Proof. now destruct k. Qed.

Lemma ids_inj (ms : list Marker) (a b : Marker) :
  NoDup (map markerId ms) -> In a ms -> In b ms -> markerId a = markerId b -> a = b.
Proof.
  induction ms as [|x ms IH]; intros ND A B E; [contradiction|].
  simpl in ND. apply NoDup_cons_iff in ND as [Nx ND].
  destruct A as [->|A], B as [->|B]; try reflexivity.
  - elim Nx. rewrite E. now apply in_map.
  - elim Nx. rewrite <- E. now apply in_map.
  - now apply IH.
Qed.

Lemma filter_without (p : Marker -> bool) (o : option Marker) (ms : list Marker) :
  filter p (without o ms) = without o (filter p ms).
Proof. destruct o; [apply filter_swap|reflexivity]. Qed.

Lemma without_own (o : option Marker) : without o (optlist o) = [].
Proof. destruct o; simpl; [now rewrite Nat.eqb_refl|reflexivity]. Qed.

Lemma without_NoDup (o : option Marker) (ms : list Marker) :
  NoDup (map markerId ms) -> NoDup (map markerId (without o ms)).
Proof. destruct o; [apply map_filter_NoDup|trivial]. Qed.

Lemma without_Forall (P : Marker -> Prop) (o : option Marker) (ms : list Marker) :
  Forall P ms -> Forall P (without o ms).
Proof. destruct o; [apply Forall_filter|trivial]. Qed.

Lemma without_foreign (o : option Marker) (ms : list Marker) (p q : Marker -> bool)
      (e : option Marker) :
  NoDup (map markerId ms) ->
  filter p ms = optlist o -> filter q ms = optlist e ->
  (forall a, p a = true -> q a = false) ->
  without o (optlist e) = optlist e.
Proof.
  intros ND Hp Hq D. destruct o as [a|], e as [b|]; try reflexivity. simpl.
  assert (Ia : In a (filter p ms)) by (rewrite Hp; now left).
  assert (Ib : In b (filter q ms)) by (rewrite Hq; now left).
  apply filter_In in Ia as [Ia Pa]. apply filter_In in Ib as [Ib Qb].
  destruct (Nat.eqb_spec (markerId b) (markerId a)) as [E|_]; [|reflexivity].
  apply (ids_inj ms b a ND Ib Ia) in E. subst b. rewrite (D a Pa) in Qb. discriminate.
Qed.

Lemma pinsOk_cleared (ms : list Marker) (n : nat) (s e : option Marker) :
  pinsOk (Some (ms, n), s, e) ->
  pinsOk (Some (without e (without s ms), n), None, None).
Proof.
  unfold pinsOk. cbn [fst snd]. intros (ND & F & P).
  split; [now apply without_NoDup, without_NoDup|].
  split; [now apply without_Forall, without_Forall|].
  intros k. rewrite !filter_without, (P k).
  destruct k.
  - rewrite without_own. now destruct e.
  - rewrite (without_foreign s ms (isPinOf StartPoint) (isPinOf EndPoint) e ND
                             (P StartPoint) (P EndPoint) (isPinOf_other StartPoint)).
    apply without_own.
Qed.

Lemma filter_saved (k : Endpoint) (n : nat) (ds : list MarkerData) :
  filter (isPinOf k) (savedMarkers n ds) = [].
Proof. revert n. induction ds as [|d ds IH]; intros n; simpl; [reflexivity|apply IH]. Qed.

Lemma ids_saved (n : nat) (ds : list MarkerData) :
  map markerId (savedMarkers n ds) = seq n (length ds).
Proof. revert n. induction ds as [|d ds IH]; intros n; simpl; [reflexivity|now rewrite IH]. Qed.

Lemma pinsOk_loaded (ms : list Marker) (n : nat) (s e : option Marker)
      (ds : list MarkerData) :
  pinsOk (Some (ms, n), s, e) ->
  pinsOk (Some (ms ++ savedMarkers n ds, (n + length ds)%nat), s, e).
Proof.
  unfold pinsOk. cbn [fst snd]. intros (ND & F & P).
  split; [|split].
  - rewrite map_app, ids_saved. apply NoDup_app; [exact ND|apply seq_NoDup|].
    intros x Hx Hs. apply in_seq in Hs. apply in_map_iff in Hx as (a & <- & Ha).
    rewrite Forall_forall in F. specialize (F a Ha). lia.
  - apply Forall_app. split.
    + rewrite Forall_forall in *. intros a Ha. specialize (F a Ha). lia.
    + rewrite Forall_forall. intros a Ha.
      assert (I : In (markerId a) (map markerId (savedMarkers n ds))) by now apply in_map.
      rewrite ids_saved in I. apply in_seq in I. lia.
  - intros k. rewrite filter_app, filter_saved, app_nil_r. apply P.
Qed.

Lemma pinsOk_picked (k : Endpoint) (ms : list Marker) (n : nat) (s e : option Marker)
      (pin : Marker) :
  pinsOk (Some (ms, n), s, e) ->
  markerId pin = n ->
  isPinOf k pin = true -> isPinOf (other k) pin = false ->
  pinsOk (Some (without (match k with StartPoint => s | EndPoint => e end) ms ++ [pin], S n),
          match k with StartPoint => Some pin | EndPoint => s end,
          match k with StartPoint => e | EndPoint => Some pin end).
Proof.
  unfold pinsOk. cbn [fst snd]. intros (ND & F & P) Hid Hk Ho.
  set (old := match k with StartPoint => s | EndPoint => e end).
  split; [|split].
  - rewrite map_app. simpl. apply NoDup_app; [now apply without_NoDup| |].
    + constructor; [intros []|constructor].
    + intros x Hx [<-|[]]. apply in_map_iff in Hx as (a & Ea & Ha).
      assert (Hin : In a ms) by (unfold old in Ha; destruct k, s, e; simpl in Ha;
                                 try apply filter_In in Ha as [Ha _]; exact Ha).
      rewrite Forall_forall in F. specialize (F a Hin). lia.
  - apply Forall_app. split.
    + apply without_Forall. rewrite Forall_forall in *. intros a Ha.
      specialize (F a Ha). lia.
    + constructor; [lia|constructor].
  - intros j. rewrite filter_app, filter_without, (P j). simpl.
    destruct k, j; simpl in Ho; unfold old; rewrite ?Hk, ?Ho.
    + now rewrite without_own.
    + rewrite (without_foreign s ms (isPinOf StartPoint) (isPinOf EndPoint) e ND
                               (P StartPoint) (P EndPoint) (isPinOf_other StartPoint)).
      apply app_nil_r.
    + rewrite (without_foreign e ms (isPinOf EndPoint) (isPinOf StartPoint) s ND
                               (P EndPoint) (P StartPoint) (isPinOf_other EndPoint)).
      apply app_nil_r.
    + now rewrite without_own.
Qed.

Lemma pinState_dispatch (ev : Event) (w : World) :
  match ev with ClickClear | MapClick _ | MapLoad _ => False | _ => True end ->
  pinState (dispatch ev w) = pinState w.
Proof.
  destruct ev; intros H; try contradiction; unfold dispatch; cbv zeta;
    unfold onClickSetStart, onClickSetEnd, onClickCloseRoutePanel, resetView, geolocated;
    try destruct (showRoutePanel (view w));
    try destruct (showInfoPanel (view w));
    try match goal with |- context [if ?b then _ else _] => destruct b end;
    try match goal with |- context [match pending w with _ => _ end] =>
                          destruct (pending w) end;
    cbv zeta;
    repeat first [ rewrite pinState_clearRouteLayersFromMap
                 | rewrite pinState_handleKeyDown
                 | rewrite pinState_searchBusRoutes_begin
                 | rewrite pinState_searchBusRoutes_resume
                 | progress pin_frame ];
    reflexivity.
Qed.

Lemma pinned_rerender (d : World) :
  pinsOk (pinState d) ->
  (clickMode (view d) = effectMode d ->
   picking (clickMode (view d)) = true ->
   forall k, markerOf k (captured (effectHandler d)) = markerOf k (view d)) ->
  pinned (rerender d).
Proof.
  intros A B. unfold pinned. rewrite pinState_rerender, rerender_view.
  split; [exact A|]. intros P k. unfold rerender.
  destruct (ClickMode_eqb (clickMode (view d)) (effectMode d)) eqn:C; world.
  - apply B; [now apply ClickMode_eqb_eq|exact P].
  - reflexivity.
Qed.

Lemma pinned_kept (w d : World) :
  settled w -> pinned w ->
  effectMode d = effectMode w -> effectHandler d = effectHandler w ->
  pinsOk (pinState d) ->
  startMarker (view d) = startMarker (view w) ->
  endMarker (view d) = endMarker (view w) ->
  pinned (rerender d).
Proof.
  intros (S1 & _) (_ & P3) EM EH Ok Hs He. apply pinned_rerender; [exact Ok|].
  intros C P k. rewrite EH. rewrite C, EM, S1 in P. rewrite (P3 P k).
  destruct k; simpl; congruence.
Qed.

Lemma pinned_reset (d : World) :
  pinsOk (pinState d) -> clickMode (view d) = ModeNone -> pinned (rerender d).
Proof.
  intros Ok N. apply pinned_rerender; [exact Ok|]. rewrite N. discriminate.
Qed.

Lemma pinState_parts (w d : World) :
  pinState d = pinState w ->
  startMarker (view d) = startMarker (view w) /\ endMarker (view d) = endMarker (view w).
Proof. unfold pinState. intros E. injection E as _ A B. now split. Qed.

Lemma pinned_step (w : World) (ev : Event) :
  settled w -> pinned w -> pinned (step w ev).
Proof.
  intros S P. unfold step.
  destruct (Quiet_dispatch ev w) as (EM & EH & _ & _).
  assert (Same : pinned (rerender w)).
  { apply (pinned_kept w w S P); try reflexivity. apply P. }
  assert (N : pinState (dispatch ev w) = pinState w -> pinned (rerender (dispatch ev w))).
  { intros E. destruct (pinState_parts _ _ E) as [A B].
    apply (pinned_kept w _ S P EM EH); [|exact A|exact B]. rewrite E. apply P. }
  destruct ev as [| | |v|v| |res| | |coords|key| | | |p|res];
    try (apply N; now apply pinState_dispatch).
  - (* the clear button *)
    unfold dispatch. cbv zeta.
    destruct (showRoutePanel (view w)); [|exact Same].
    apply pinned_reset; [|reflexivity].
    unfold onClickClear. cbv zeta. pin_frame.
    rewrite pinState_clearRouteLayersFromMap, pinState_clearLocationMarkers.
    destruct P as (Ok & _). unfold pinState in Ok.
    destruct (map_current w) as [m|]; cbn [option_map] in *.
    + now apply (pinsOk_cleared _ _ _ _ Ok).
    + now split.
  - (* a click on the map *)
    unfold dispatch. destruct (map_current w) as [m|] eqn:E; [|exact Same].
    destruct S as (S1 & S2 & S3). destruct (S3 m E) as (L & _). rewrite L.
    destruct (picking (effectMode w)) eqn:Pk; [|exact Same].
    cbn [fold_left].
    assert (K : exists k, clickMode (captured (effectHandler w)) = pickingMode k).
    { rewrite S2. destruct (effectMode w); [discriminate|now exists StartPoint
                                            |now exists EndPoint]. }
    destruct K as (k & K).
    destruct (handleLocationClick_pick k _ coords w m E K)
      as (m' & -> & Mk & Mc & _).
    apply pinned_reset; [|now destruct k].
    destruct P as (Ok & P3). rewrite S1 in Pk. specialize (P3 Pk).
    unfold pinState in *. world. rewrite E in Ok. cbn [option_map] in *.
    rewrite Mk, Mc, (P3 k).
    pose proof (isPinOf_pinOf k m coords) as [Ik Io].
    pose proof (pinsOk_picked k _ _ _ _ (pinOf k m coords) Ok
                              (markerId_pinOf k m coords) Ik Io) as Ok'.
    destruct k; exact Ok'.
  - (* the saved markers arrive *)
    assert (V : startMarker (view (dispatch (MapLoad res) w)) = startMarker (view w)
                /\ endMarker (view (dispatch (MapLoad res) w)) = endMarker (view w)).
    { pose proof (pinState_loadMarkers res w) as E. unfold pinState in E at 1.
      injection E as _ A B. now split. }
    destruct V as [A B].
    apply (pinned_kept w _ S P EM EH); [|exact A|exact B].
    unfold dispatch. rewrite pinState_loadMarkers.
    destruct P as (Ok & _). unfold pinState in Ok.
    destruct (map_current w) as [m|]; cbn [option_map] in *.
    + now apply pinsOk_loaded.
    + exact Ok.
Qed.

(** ** The route overlays *)

Lemma overlayState_updView (f : View -> View) (w : World) :
  activeRouteHandlers (f (view w)) = activeRouteHandlers (view w) ->
  overlayState (updView f w) = overlayState w.
Proof. intros A. unfold overlayState. world. now rewrite A. Qed.

Lemma overlayState_onMap (f : MapboxMap -> MapboxMap) (w : World) :
  (forall m, layers (f m) = layers m /\ sources (f m) = sources m) ->
  overlayState (onMap f w) = overlayState w.
Proof.
  intros H. unfold overlayState. world. destruct (map_current w) as [m|]; [|reflexivity].
  simpl. now destruct (H m) as [-> ->].
Qed.

Lemma overlayState_setMap (m m' : MapboxMap) (w : World) :
  map_current w = Some m ->
  layers m' = layers m -> sources m' = sources m ->
  overlayState (setMap (Some m') w) = overlayState w.
Proof. intros E A B. unfold overlayState. world. rewrite E. simpl. now rewrite A, B. Qed.

Lemma overlayState_consoleLog (s : string) (w : World) :
  overlayState (consoleLog s w) = overlayState w.
Proof. reflexivity. Qed.

Lemma overlayState_fetch (r : SearchRequest) (cap : View) (w : World) :
  overlayState (fetch r cap w) = overlayState w.
Proof. reflexivity. Qed.

Lemma overlayState_settle (w : World) : overlayState (settle w) = overlayState w.
Proof. reflexivity. Qed.

Lemma overlayState_setEffect (n : nat) (c : ClickMode) (h : Listener) (w : World) :
  overlayState (setEffect n c h w) = overlayState w.
Proof. reflexivity. Qed.

Ltac overlay_frame :=
  repeat first
    [ rewrite overlayState_updView by reflexivity
    | rewrite overlayState_onMap by (intros; split; reflexivity)
    | rewrite overlayState_consoleLog
    | rewrite overlayState_fetch
    | rewrite overlayState_settle
    | rewrite overlayState_setEffect
    | progress unfold put ].

Lemma overlayState_clearLocationMarkers (cap : View) (w : World) :
  overlayState (clearLocationMarkers cap w) = overlayState w.
Proof.
  unfold clearLocationMarkers, markerRemove.
  destruct (startMarker cap), (endMarker cap); cbv zeta; overlay_frame; reflexivity.
Qed.

Lemma overlayState_handleLocationClick (cap : View) (c : LngLat) (w : World) :
  overlayState (handleLocationClick cap c w) = overlayState w.
Proof.
  destruct (map_current w) as [m|] eqn:E.
  - destruct (clickMode cap) eqn:M.
    + unfold handleLocationClick. now rewrite M.
    + destruct (handleLocationClick_pick StartPoint cap c w m E M)
        as (m' & -> & _ & _ & _ & A & B & _).
      rewrite (overlayState_setMap m m'); [now overlay_frame|now world|exact A|exact B].
    + destruct (handleLocationClick_pick EndPoint cap c w m E M)
        as (m' & -> & _ & _ & _ & A & B & _).
      rewrite (overlayState_setMap m m'); [now overlay_frame|now world|exact A|exact B].
  - unfold handleLocationClick, addStartMarker, addEndMarker.
    destruct (clickMode cap); world; rewrite ?E; now overlay_frame.
Qed.

Lemma overlayState_clicks (c : LngLat) (hs : list Listener) (w : World) :
  overlayState (fold_left (fun w h => handleLocationClick (captured h) c w) hs w)
  = overlayState w.
Proof.
  revert w. induction hs as [|h hs IH]; intros w; simpl; [reflexivity|].
  now rewrite IH, overlayState_handleLocationClick.
Qed.

Lemma overlayState_loadMarkers (res : MarkersResult) (w : World) :
  overlayState (loadMarkers res w) = overlayState w.
Proof.
  rewrite loadMarkers_spec. unfold shown. destruct (warns res w); now overlay_frame.
Qed.

Lemma overlayState_searchBusRoutes_begin (cap : View) (w : World) :
  overlayState (searchBusRoutes_begin cap w) = overlayState w.
Proof.
  unfold searchBusRoutes_begin.
  match goal with |- context [if ?b then _ else _] => destruct b end;
    cbv zeta; now overlay_frame.
Qed.

Lemma overlayState_rerender (w : World) : overlayState (rerender w) = overlayState w.
Proof.
  unfold rerender.
  destruct (ClickMode_eqb (clickMode (view w)) (effectMode w)); overlay_frame;
    [reflexivity|].
  unfold clickModeEffect, clickModeCleanup.
  rewrite map_current_onMap.
  destruct (map_current w) as [m|] eqn:E; cbn [option_map]; cbv zeta.
  - unfold overlayState. world. rewrite E. cbn [option_map].
    match goal with |- context [if ?b then _ else _] => destruct b end; reflexivity.
  - unfold onMap. now rewrite E.
Qed.

Lemma overlaid_same (w d : World) :
  overlayState d = overlayState w -> overlaid w -> overlaid d.
Proof.
  unfold overlayState, overlaid, styleOk, routeLayers, routeSources. intros E.
  destruct (map_current d) as [m'|], (map_current w) as [m|]; try discriminate;
    simpl in E.
  - injection E as -> -> ->. trivial.
  - injection E as ->. trivial.
Qed.

(** Clearing, on a map in order. *)
Lemma overlaid_cleared (cap : View) (w : World) :
  overlaid w -> overlaid (clearRouteLayersFromMap cap w).
Proof.
  unfold overlaid at 1. intros O. destruct (map_current w) as [m|] eqn:E.
  - destruct O as (Ok & _).
    destruct (clearRouteLayersFromMap_some cap w m E) as (m' & -> & L & S & _).
    specialize (S Ok). unfold overlaid. world.
    split.
    + apply (styleOk_redrawn m m' [] Ok). simpl. now rewrite app_nil_r.
    + exists []. unfold routeLayers, routeSources. rewrite L, S. simpl.
      pose proof (redrawn_layers (layers m) []) as RL.
      pose proof (redrawn_sources (sources m) []) as RS.
      simpl in RL, RS. rewrite app_nil_r in RL, RS. now rewrite RL, RS.
  - rewrite clearRouteLayersFromMap_none by exact E. unfold overlaid. now rewrite E.
Qed.

Lemma overlaid_displayed (cap : View) (routes : list Route) (w : World) :
  overlaid w -> overlaid (displayRoutesOnMap cap routes w).
Proof.
  unfold overlaid at 1. intros O. destruct (map_current w) as [m|] eqn:E.
  - destruct O as (Ok & _).
    destruct (displayRoutesOnMap_some cap routes w m E Ok)
      as (m' & rl & rs & -> & L & S & _).
    unfold overlaid. world. split.
    + now apply (styleOk_redrawn m m' (drawn routes) Ok).
    + exists (drawn routes). unfold routeLayers, routeSources. rewrite L, S.
      now rewrite redrawn_layers, redrawn_sources.
  - unfold displayRoutesOnMap. rewrite E. unfold overlaid. now rewrite E.
Qed.

Lemma overlaid_searchBusRoutes_resume (cap : View) (res : FetchResult) (w : World) :
  overlaid w -> overlaid (searchBusRoutes_resume cap res w).
Proof.
  intros O. unfold searchBusRoutes_resume. cbv zeta.
  apply (overlaid_same (match res with
                        | FetchResponse true (Some (first :: rest)) =>
                            displayRoutesOnMap cap (first :: rest)
                                               (put setRouteResults (first :: rest) w)
                        | _ => w
                        end)).
  - destruct res as [|[|] [[|first rest]|]]; overlay_frame; try reflexivity.
    destruct (bounds first); overlay_frame; reflexivity.
  - destruct res as [|[|] [[|first rest]|]]; try exact O.
    apply overlaid_displayed. apply (overlaid_same w); [now overlay_frame|exact O].
Qed.

Lemma overlaid_handleKeyDown (cap : View) (key : string) (w : World) :
  overlaid w -> overlaid (handleKeyDown cap key w).
Proof.
  intros O. unfold handleKeyDown, resetView. cbv zeta.
  apply (overlaid_same (if String.eqb key "Escape"
                        then clearRouteLayersFromMap cap
                               (put setShowRoutePanel false (put setShowInfoPanel false w))
                        else w)).
  - destruct (String.eqb key "r" || String.eqb key "R");
      destruct (String.eqb key "b" || String.eqb key "B");
      destruct (String.eqb key "i" || String.eqb key "I");
      destruct (String.eqb key "Escape");
      overlay_frame; reflexivity.
  - destruct (String.eqb key "Escape"); [|exact O].
    apply overlaid_cleared. apply (overlaid_same w); [now overlay_frame|exact O].
Qed.

Lemma overlaid_dispatch (ev : Event) (w : World) : overlaid w -> overlaid (dispatch ev w).
Proof.
  intros O.
  assert (N : overlayState (dispatch ev w) = overlayState w -> overlaid (dispatch ev w)).
  { intros E. now apply (overlaid_same w). }
  destruct ev; unfold dispatch in *; cbv zeta in *;
    unfold onClickSetStart, onClickSetEnd, resetView, geolocated in *;
    try (apply N;
         try destruct (showRoutePanel (view w));
         try destruct (showInfoPanel (view w));
         try match goal with |- context [if ?b then _ else _] => destruct b end;
         repeat first [ rewrite overlayState_searchBusRoutes_begin
                      | rewrite overlayState_loadMarkers
                      | progress overlay_frame ];
         reflexivity).
  - destruct (pending w); [now apply overlaid_searchBusRoutes_resume|exact O].
  - destruct (showRoutePanel (view w)); [|exact O].
    unfold onClickClear. cbv zeta.
    apply (overlaid_same (clearRouteLayersFromMap (view w)
                                                  (clearLocationMarkers (view w) w)));
      [now overlay_frame|].
    apply overlaid_cleared.
    apply (overlaid_same w); [apply overlayState_clearLocationMarkers|exact O].
  - destruct (showRoutePanel (view w)); [|exact O].
    unfold onClickCloseRoutePanel. cbv zeta.
    apply (overlaid_same (clearRouteLayersFromMap (view w)
                                                  (put setShowRoutePanel false w)));
      [now overlay_frame|].
    apply overlaid_cleared. apply (overlaid_same w); [now overlay_frame|exact O].
  - apply N. destruct (map_current w); [apply overlayState_clicks|reflexivity].
  - now apply overlaid_handleKeyDown.
Qed.

Lemma overlaid_step (w : World) (ev : Event) : overlaid w -> overlaid (step w ev).
Proof.
  intros O. unfold step. apply (overlaid_same (dispatch ev w)).
  - apply overlayState_rerender.
  - now apply overlaid_dispatch.
Qed.

Lemma overlaid_run (evs : list Event) (w : World) : overlaid w -> overlaid (run evs w).
Proof.
  revert w. induction evs as [|ev evs IH]; intros w O; [exact O|].
  simpl. apply IH. now apply overlaid_step.
Qed.

Lemma plainStyle_routeLayers (ls : list Layer) :
  forallb (fun l => negb (isRouteLayer l) && negb (isRouteSourceId (source l))) ls = true ->
  filter isRouteLayer ls = []
  /\ forallb (fun l => implb (isRouteSourceId (source l)) (isRouteLayer l)) ls = true.
Proof.
  induction ls as [|l ls IH]; simpl; [now split|].
  intros H. apply andb_true_iff in H as [Hl H]. destruct (IH H) as [A B].
  apply andb_true_iff in Hl as [L S].
  apply negb_true_iff in L, S. rewrite L, S, B. now split.
Qed.

Lemma plainStyle_routeSources (ss : list (string * Source)) :
  forallb (fun s => negb (isRouteSource s)) ss = true -> filter isRouteSource ss = [].
Proof.
  induction ss as [|s ss IH]; simpl; [reflexivity|].
  intros H. apply andb_true_iff in H as [Hs H]. apply negb_true_iff in Hs.
  rewrite Hs. now apply IH.
Qed.

Lemma overlaid_mounted (style : option (list Layer * list (string * Source))) :
  match style with Some s => plainStyle s = true | None => True end ->
  overlaid (mounted style).
Proof.
  intros H. unfold mounted, mount, clickModeEffect. cbn [map_current].
  destruct style as [[ls ss]|]; cbn [option_map]; [|reflexivity].
  unfold plainStyle in H. apply andb_true_iff in H as [L S]. cbn [fst snd] in L, S.
  destruct (plainStyle_routeLayers ls L) as [A B].
  unfold overlaid. world. cbv zeta. cbn [picking clickMode captured initialView].
  split; [exact B|]. exists []. unfold routeLayers, routeSources. simpl.
  rewrite A, (plainStyle_routeSources ss S). now split.
Qed.

(** ** Reachable states *)

Lemma pinned_mounted (style : option (list Layer * list (string * Source))) :
  pinned (mounted style).
Proof.
  unfold mounted, mount, clickModeEffect. cbn [map_current].
  destruct style as [[ls ss]|]; cbn [option_map]; unfold pinned, pinState; world;
    cbv zeta; (split; [|discriminate]).
  - unfold pinsOk. simpl. split; [constructor|]. split; [constructor|]. now intros [].
  - now split.
Qed.

Lemma pinned_run (evs : list Event) (w : World) :
  settled w -> pinned w -> pinned (run evs w).
Proof.
  revert w. induction evs as [|ev evs IH]; intros w S P; [exact P|].
  simpl. apply IH; [now apply settled_step|now apply pinned_step].
Qed.

Lemma run_snoc (evs : list Event) (ev : Event) (w : World) :
  run (evs ++ [ev]) w = step (run evs w) ev.
Proof. unfold run. now rewrite fold_left_app. Qed.

(** X10. In every state the component can reach a search is shown as
    loading exactly while its fetch is pending.  While one is pending the
    'Find Routes' button does nothing, so no second request goes out, and
    the pending continuation is the one of the last request sent.
    Whatever the answer is, handling it ends the loading state. *)
Theorem one_search_in_flight (style : option (list Layer * list (string * Source)))
        (evs : list Event) :
  let w := run evs (mounted style) in
  (isLoadingRoute (view w) = true <-> pending w <> None)
  /\ (forall cap, pending w = Some cap ->
                  dispatch ClickFindRoutes w = w
                  /\ exists before, fetched w = before ++ [requestOf cap])
  /\ (forall res, pending (step w (FetchSettles res)) = None
                  /\ isLoadingRoute (view (step w (FetchSettles res))) = false).
Proof.
  intros w.
  assert (I : searching w) by apply searching_run, searching_mount.
  split; [|split].
  - unfold searching in I. destruct (pending w).
    + destruct I as [-> _]. split; [discriminate|reflexivity].
    + rewrite I. split; [discriminate|intros N; now elim N].
  - intros cap P. unfold searching in I. rewrite P in I. destruct I as [L F].
    split; [|exact F].
    unfold dispatch. rewrite findRoutesDisabled_blank. unfold ready.
    now rewrite L, andb_false_r.
  - intros res.
    assert (I' : searching (step w (FetchSettles res))) by now apply searching_step.
    assert (P : pending (step w (FetchSettles res)) = None).
    { unfold step.
      assert (D : pending (dispatch (FetchSettles res) w) = None).
      { unfold dispatch. destruct (pending w) as [cap|] eqn:P; [|exact P].
        apply resume_finally. }
      revert D. generalize (dispatch (FetchSettles res) w). intros d D.
      pose proof (searchState_rerender d) as E.
      unfold searchState in E. injection E as E _ _. now rewrite E. }
    split; [exact P|]. unfold searching in I'. now rewrite P in I'.
Qed.

Lemma one_search_in_flight_witness :
  let w := run [ClickRouteToggle; ChangeStart "A"; ChangeEnd "B"; ClickFindRoutes]
               (mounted (Some ([], []))) in
  pending w <> None
  /\ isLoadingRoute (view w) = true
  /\ dispatch ClickFindRoutes w = w
  /\ fetched w = [{| reqStart := "A"; reqEnd := "B"; reqMode := "transit" |}].
Proof.
  intros w.
  destruct (one_search_in_flight (Some ([], []))
              [ClickRouteToggle; ChangeStart "A"; ChangeEnd "B"; ClickFindRoutes])
    as (A & B & _).
  fold w in A, B.
  assert (P : pending w <> None) by (vm_compute; discriminate).
  split; [exact P|]. split; [now apply A|].
  destruct (pending w) as [cap|] eqn:E; [|now elim P].
  destruct (B cap eq_refl) as (C & _). split; [exact C|reflexivity].
Defined.

(** X11. In every state the component can reach, the engine has a picking
    click listener exactly when a picking mode is on (and there is a
    map); the listener is the handler of a render in which the mode was
    the current one.  With the mode off, a click on the map changes
    neither the state nor the map. *)
Theorem picking_listener_follows_mode
        (style : option (list Layer * list (string * Source))) (evs : list Event) :
  let w := run evs (mounted style) in
  (clickMode (view w) = ModeNone ->
   onTheMap listeners w = []
   /\ forall c, view (step w (MapClick c)) = view w
                /\ onTheMap markers (step w (MapClick c)) = onTheMap markers w
                /\ onTheMap listeners (step w (MapClick c)) = [])
  /\ (clickMode (view w) <> ModeNone ->
      map_current w <> None ->
      exists h, onTheMap listeners w = [h]
                /\ clickMode (captured h) = clickMode (view w)).
Proof.
  intros w.
  assert (S : settled w) by (apply settled_run, settled_mounted).
  destruct S as (S1 & S2 & S3). split.
  - intros N.
    assert (L : onTheMap listeners w = []).
    { unfold onTheMap. destruct (map_current w) as [m|] eqn:E; [|reflexivity].
      destruct (S3 m eq_refl) as (L & _). now rewrite L, S1, N. }
    split; [exact L|]. intros c.
    assert (D : dispatch (MapClick c) w = w).
    { unfold dispatch. unfold onTheMap in L.
      destruct (map_current w) as [m|]; [now rewrite L|reflexivity]. }
    unfold step. rewrite D, rerender_view.
    destruct (rerender_map w) as (_ & _ & M).
    split; [reflexivity|]. split; [exact M|].
    rewrite rerender_same by now rewrite S1. unfold onTheMap in *. now world.
  - intros N M. destruct (map_current w) as [m|] eqn:E; [|now elim M].
    destruct (S3 m eq_refl) as (L & _). exists (effectHandler w).
    unfold onTheMap. rewrite E, L, S1, S2, S1.
    destruct (clickMode (view w)); [now elim N|now split|now split].
Qed.

Lemma picking_listener_follows_mode_witness :
  let w := run [ClickRouteToggle; ClickSetEnd] (mounted (Some ([], []))) in
  clickMode (view w) <> ModeNone /\ map_current w <> None
  /\ exists h, onTheMap listeners w = [h] /\ clickMode (captured h) = ModeEnd.
Proof.
  intros w.
  destruct (picking_listener_follows_mode (Some ([], [])) [ClickRouteToggle; ClickSetEnd])
    as (_ & H).
  assert (A : clickMode (view w) <> ModeNone) by (vm_compute; discriminate).
  assert (B : map_current w <> None) by (vm_compute; discriminate).
  split; [exact A|]. split; [exact B|]. exact (H A B).
Defined.

Lemma reachable_pinned (style : option (list Layer * list (string * Source)))
      (evs : list Event) :
  pinned (run evs (mounted style)).
Proof. apply pinned_run; [apply settled_mounted|apply pinned_mounted]. Qed.

Lemma pinned_onTheMap (w : World) :
  pinned w ->
  NoDup (map markerId (onTheMap markers w))
  /\ forall k, filter (isPinOf k) (onTheMap markers w) = optlist (markerOf k (view w)).
Proof.
  intros (Ok & _). unfold pinsOk, pinState in Ok. unfold onTheMap.
  destruct (map_current w) as [m|]; cbn [option_map fst snd] in Ok.
  - destruct Ok as (ND & _ & P). split; [exact ND|]. intros k. rewrite (P k). now destruct k.
  - destruct Ok as [A B]. split; [constructor|]. intros [|]; simpl; now rewrite ?A, ?B.
Qed.

(** X12. In every state the component can reach, the map carries at most
    one start pin and at most one end pin, and they are exactly the
    markers the state holds as start and end marker (none of either when
    the state holds none); the marker objects on the map are pairwise
    distinct.  Saved markers never count as pins. *)
Theorem endpoint_pins_match_state
        (style : option (list Layer * list (string * Source))) (evs : list Event) :
  let w := run evs (mounted style) in
  (forall k, filter (isPinOf k) (onTheMap markers w) = optlist (markerOf k (view w)))
  /\ (forall k, (length (filter (isPinOf k) (onTheMap markers w)) <= 1)%nat)
  /\ NoDup (map markerId (onTheMap markers w))
  /\ (forall k n d, isPinOf k (savedMarker n d) = false).
Proof.
  intros w. destruct (pinned_onTheMap w (reachable_pinned style evs)) as [ND P].
  split; [exact P|]. split; [|split; [exact ND|]].
  - intros k. rewrite (P k). destruct (markerOf k (view w)); simpl; lia.
  - intros k n d. apply isPinOf_saved.
Qed.

Lemma blank_coordsText (c : LngLat) : Js.blank (coordsText c) = false.
Proof.
  unfold coordsText.
  change (", " ++ Js.toFixed (lng c) 4)%string
    with (String "," (String " " (Js.toFixed (lng c) 4))).
  now apply blank_solid.
Qed.

(** X13. In any reachable state with a map and a picking mode on, a click
    on the map stores the clicked point as that endpoint's coordinates,
    writes its text as latitude, longitude with four decimals (a text
    that is never blank), puts a new pin of the endpoint's colour at the
    point in place of the endpoint's previous pin, and turns the mode
    off, unbinding the listener.  The other endpoint, the panels, the
    results and every other marker stay as they were. *)
Theorem picking_sets_endpoint
        (style : option (list Layer * list (string * Source))) (evs : list Event)
        (k : Endpoint) (c : LngLat) (m : MapboxMap) :
  let w := run evs (mounted style) in
  map_current w = Some m ->
  clickMode (view w) = pickingMode k ->
  let w' := step w (MapClick c) in
  let pin := pinOf k m c in
  view w' = picked k c pin (view w)
  /\ (coordsOf k (view w') = Some {| lng := lng c; lat := lat c |}
      /\ locationOf k (view w') = coordsText c
      /\ markerOf k (view w') = Some pin
      /\ clickMode (view w') = ModeNone)
  /\ (coordsOf (other k) (view w') = coordsOf (other k) (view w)
      /\ locationOf (other k) (view w') = locationOf (other k) (view w)
      /\ markerOf (other k) (view w') = markerOf (other k) (view w))
  /\ (lngLat pin = {| lng := lng c; lat := lat c |}
      /\ color pin = match k with StartPoint => "#10b981" | EndPoint => "#ef4444" end)
  /\ onTheMap markers w' = without (markerOf k (view w)) (markers m) ++ [pin]
  /\ filter (isPinOf k) (onTheMap markers w') = [pin]
  /\ onTheMap listeners w' = []
  /\ Js.blank (locationOf k (view w')) = false.
Proof.
  intros w E M w' pin.
  assert (S : settled w) by (apply settled_run, settled_mounted).
  assert (P : pinned w) by apply reachable_pinned.
  assert (S' : settled w') by now apply settled_step.
  assert (P' : pinned w') by now apply pinned_step.
  destruct S as (S1 & S2 & S3). destruct (S3 m E) as (L & _).
  assert (Pk : picking (clickMode (view w)) = true) by (rewrite M; now destruct k).
  rewrite S1, Pk in L.
  assert (K : clickMode (captured (effectHandler w)) = pickingMode k) by congruence.
  destruct (handleLocationClick_pick k _ c w m E K) as (m' & D & Mk & _).
  destruct P as (_ & P3). rewrite (P3 Pk k) in Mk. fold pin in D, Mk.
  assert (D' : dispatch (MapClick c) w
               = setMap (Some m') (updView (picked k c pin) w)).
  { unfold dispatch. rewrite E, L. exact D. }
  assert (V : view w' = picked k c pin (view w)).
  { unfold w', step. rewrite rerender_view, D'. now world. }
  assert (Ms : onTheMap markers w' = without (markerOf k (view w)) (markers m) ++ [pin]).
  { unfold w', step. destruct (rerender_map (dispatch (MapClick c) w)) as (_ & _ & R).
    rewrite R, D'. unfold onTheMap. now world. }
  split; [exact V|]. rewrite V.
  split; [destruct k; repeat split|].
  split; [destruct k; repeat split|].
  split; [destruct k; repeat split|].
  split; [exact Ms|].
  destruct (pinned_onTheMap w' P') as (_ & F).
  split; [|split].
  - rewrite (F k), V. now destruct k.
  - destruct S' as (T1 & _ & T3). unfold onTheMap.
    destruct (map_current w') as [m2|] eqn:E2; [|reflexivity].
    destruct (T3 m2 eq_refl) as (L2 & _). rewrite L2, T1, V. now destruct k.
  - destruct k; apply blank_coordsText.
Qed.

Lemma picking_sets_endpoint_witness :
  let w := run [ClickRouteToggle; ClickSetEnd] (mounted (Some ([], []))) in
  let w' := step w (MapClick scenarioClick) in
  (exists m, map_current w = Some m)
  /\ clickMode (view w) = ModeEnd
  /\ endCoords (view w') = Some scenarioClick
  /\ endLocation (view w')
     = coordsText scenarioClick
  /\ clickMode (view w') = ModeNone
  /\ map color (onTheMap markers w') = ["#ef4444"].
Proof.
  intros w w'.
  set (m := match map_current w with Some m => m | None => newMap [] [] end).
  assert (E : map_current w = Some m) by (vm_compute; reflexivity).
  assert (M : clickMode (view w) = pickingMode EndPoint) by (vm_compute; reflexivity).
  destruct (picking_sets_endpoint (Some ([], [])) [ClickRouteToggle; ClickSetEnd]
                                  EndPoint scenarioClick m E M)
    as (_ & (A & B & _ & C) & _ & _ & D & _).
  split; [now exists m|]. split; [exact M|]. split; [exact A|]. split; [exact B|].
  split; [exact C|]. fold w w' in D. rewrite D. vm_compute. reflexivity.
Defined.

Lemma onTheMap_markers_pinState (w : World) :
  onTheMap markers w
  = match fst (fst (pinState w)) with Some (ms, _) => ms | None => [] end.
Proof. unfold onTheMap, pinState. now destruct (map_current w). Qed.

Lemma clearLocationMarkers_view (w : World) :
  let v := view w in
  let v' := view (clearLocationMarkers (view w) w) in
  (startLocation v' = EmptyString /\ endLocation v' = EmptyString
   /\ startCoords v' = None /\ endCoords v' = None
   /\ startMarker v' = None /\ endMarker v' = None)
  /\ showInfoPanel v' = showInfoPanel v /\ showRoutePanel v' = showRoutePanel v
  /\ routeResults v' = routeResults v /\ isLoadingRoute v' = isLoadingRoute v
  /\ activeRouteHandlers v' = activeRouteHandlers v /\ clickMode v' = clickMode v.
Proof.
  cbv zeta. unfold clearLocationMarkers, markerRemove. cbv zeta.
  destruct (startMarker (view w)) as [s|] eqn:S, (endMarker (view w)) as [e|] eqn:E;
    world; cbn; rewrite ?S, ?E; repeat split.
Qed.

Lemma clearRouteLayersFromMap_view (cap : View) (w : World) :
  let v := view w in
  let v' := view (clearRouteLayersFromMap cap w) in
  showInfoPanel v' = showInfoPanel v /\ showRoutePanel v' = showRoutePanel v
  /\ startLocation v' = startLocation v /\ endLocation v' = endLocation v
  /\ routeResults v' = routeResults v /\ isLoadingRoute v' = isLoadingRoute v
  /\ clickMode v' = clickMode v
  /\ startCoords v' = startCoords v /\ endCoords v' = endCoords v
  /\ startMarker v' = startMarker v /\ endMarker v' = endMarker v.
Proof.
  cbv zeta. destruct (clearRouteLayersFromMap_world cap w) as ([-> | ->] & _);
    repeat split.
Qed.

(** X14. In any reachable state with the route panel shown, the clear
    button empties both endpoints (texts, coordinates, markers), the
    stored results and the picking mode; on the map it removes the two
    pins and nothing else among the markers, every route layer, and the
    picking listener.  It leaves the panels as they are and does not
    cancel a search in flight. *)
Theorem clear_button_resets
        (style : option (list Layer * list (string * Source))) (evs : list Event) :
  let w := run evs (mounted style) in
  showRoutePanel (view w) = true ->
  let w' := step w ClickClear in
  (startLocation (view w') = EmptyString /\ endLocation (view w') = EmptyString
   /\ startCoords (view w') = None /\ endCoords (view w') = None
   /\ startMarker (view w') = None /\ endMarker (view w') = None
   /\ routeResults (view w') = [] /\ clickMode (view w') = ModeNone)
  /\ onTheMap markers w'
     = without (endMarker (view w)) (without (startMarker (view w)) (onTheMap markers w))
  /\ (forall k, filter (isPinOf k) (onTheMap markers w') = [])
  /\ onTheMap routeLayers w' = []
  /\ onTheMap listeners w' = []
  /\ (showRoutePanel (view w') = true /\ showInfoPanel (view w') = showInfoPanel (view w))
  /\ (pending w' = pending w /\ isLoadingRoute (view w') = isLoadingRoute (view w)
      /\ fetched w' = fetched w).
Proof.
  intros w Pn w'.
  assert (S' : settled w') by (apply settled_step, settled_run, settled_mounted).
  assert (P' : pinned w') by (apply pinned_step;
                               [apply settled_run, settled_mounted|apply reachable_pinned]).
  set (w1 := clearLocationMarkers (view w) w).
  set (w2 := clearRouteLayersFromMap (view w) w1).
  assert (D : dispatch ClickClear w = put setClickMode ModeNone (put setRouteResults [] w2)).
  { unfold dispatch. now rewrite Pn. }
  assert (V : view w' = setClickMode (setRouteResults (view w2) []) ModeNone).
  { unfold w', step. rewrite rerender_view, D. now world. }
  destruct (clearLocationMarkers_view w)
    as ((A1 & A2 & A3 & A4 & A5 & A6) & B1 & B2 & B3 & B4 & B5 & B6).
  fold w1 in A1, A2, A3, A4, A5, A6, B1, B2, B3, B4, B5, B6.
  destruct (clearRouteLayersFromMap_view (view w) w1)
    as (C1 & C2 & C3 & C4 & C5 & C6 & C7 & C8 & C9 & C10 & C11).
  fold w2 in C1, C2, C3, C4, C5, C6, C7, C8, C9, C10, C11.
  assert (PS : pinState w2
               = (option_map (fun m => (without (endMarker (view w))
                                          (without (startMarker (view w)) (markers m)),
                                        markerCount m)) (map_current w), None, None)).
  { unfold w2. rewrite pinState_clearRouteLayersFromMap. unfold w1.
    apply pinState_clearLocationMarkers. }
  assert (RL : onTheMap routeLayers w2 = []).
  { destruct (clearRouteLayersFromMap_world (view w) w1) as (_ & L & _). exact L. }
  assert (Q : searchState w' = searchState w).
  { unfold w', step. rewrite searchState_rerender.
    now apply searchState_dispatch. }
  assert (R : onTheMap layers w' = onTheMap layers w2
              /\ onTheMap markers w' = onTheMap markers w2).
  { unfold w', step. destruct (rerender_map (dispatch ClickClear w)) as (R1 & _ & R2).
    rewrite R1, R2, D. unfold onTheMap. now world. }
  destruct R as [R1 R2].
  assert (F : forall k, filter (isPinOf k) (onTheMap markers w')
                        = optlist (markerOf k (view w')))
    by apply (pinned_onTheMap w' P').
  assert (Ls : onTheMap listeners w' = [] \/ clickMode (view w') <> ModeNone).
  { destruct S' as (T1 & _ & T3). unfold onTheMap.
    destruct (map_current w') as [m2|] eqn:E2; [|now left].
    destruct (T3 m2 eq_refl) as (L2 & _). rewrite L2, T1.
    destruct (clickMode (view w')); [now left|right; discriminate|right; discriminate]. }
  clearbody w' w2 w1.
  assert (Cm : clickMode (view w') = ModeNone) by now rewrite V.
  assert (Sm : startMarker (view w') = None) by (rewrite V; cbn; congruence).
  assert (Em : endMarker (view w') = None) by (rewrite V; cbn; congruence).
  split.
  { rewrite V. cbn. rewrite C3, C4, C8, C9, C10, C11. now repeat split. }
  split.
  { rewrite R2, onTheMap_markers_pinState, PS. unfold onTheMap.
    destruct (map_current w); [reflexivity|].
    cbn. now destruct (endMarker (view w)), (startMarker (view w)). }
  split.
  { intros k. rewrite (F k). destruct k; cbn; now rewrite ?Sm, ?Em. }
  split.
  { now rewrite routeLayers_onTheMap, R1, <- routeLayers_onTheMap. }
  split.
  { destruct Ls as [Ls|Ls]; [exact Ls|now elim Ls]. }
  split.
  { rewrite V. cbn. now rewrite C1, C2, B1, B2. }
  unfold searchState in Q. injection Q as Q1 Q2 Q3. now repeat split.
Qed.


Lemma clear_button_resets_witness :
  let w := run [ClickRouteToggle; ClickSetStart; MapClick scenarioClick;
                ClickSetEnd; MapClick scenarioClick] (mounted (Some ([], []))) in
  let w' := step w ClickClear in
  showRoutePanel (view w) = true
  /\ length (onTheMap markers w) = 2%nat
  /\ (forall k, filter (isPinOf k) (onTheMap markers w') = [])
  /\ startLocation (view w') = EmptyString /\ endCoords (view w') = None.
Proof.
  intros w w'.
  assert (Pn : showRoutePanel (view w) = true) by (vm_compute; reflexivity).
  destruct (clear_button_resets (Some ([], []))
              [ClickRouteToggle; ClickSetStart; MapClick scenarioClick;
               ClickSetEnd; MapClick scenarioClick] Pn)
    as ((A & _ & _ & B & _) & _ & C & _).
  split; [exact Pn|]. split; [vm_compute; reflexivity|].
  split; [exact C|split; [exact A|exact B]].
Defined.

Lemma rerender_settled (w d : World) :
  settled w -> effectMode d = effectMode w -> clickMode (view d) = clickMode (view w) ->
  view (rerender d) = view d /\ map_current (rerender d) = map_current d
  /\ pending (rerender d) = pending d /\ fetched (rerender d) = fetched d
  /\ console (rerender d) = console d.
Proof.
  intros (S1 & _) EM CM. rewrite rerender_same by congruence. now world.
Qed.

(** X15. In any reachable state with the route panel shown, the panel can
    be closed in two ways that differ.  The toggle button only hides it:
    the state is otherwise untouched and so is the map, overlays
    included.  The close button of the panel also removes every route
    layer and empties the stored results; it leaves the endpoints, their
    markers and the picking mode alone, so a picking listener stays bound
    while the panel is closed. *)
Theorem closing_the_route_panel
        (style : option (list Layer * list (string * Source))) (evs : list Event) :
  let w := run evs (mounted style) in
  showRoutePanel (view w) = true ->
  let t := step w ClickRouteToggle in
  let c := step w ClickCloseRoutePanel in
  (view t = setShowRoutePanel (view w) false /\ map_current t = map_current w)
  /\ (showRoutePanel (view c) = false /\ routeResults (view c) = []
      /\ onTheMap routeLayers c = [])
  /\ (clickMode (view c) = clickMode (view w)
      /\ onTheMap listeners c = onTheMap listeners w
      /\ onTheMap markers c = onTheMap markers w)
  /\ (startLocation (view c) = startLocation (view w)
      /\ endLocation (view c) = endLocation (view w)
      /\ startCoords (view c) = startCoords (view w)
      /\ endCoords (view c) = endCoords (view w)
      /\ startMarker (view c) = startMarker (view w)
      /\ endMarker (view c) = endMarker (view w)).
Proof.
  intros w Pn t c.
  assert (S : settled w) by (apply settled_run, settled_mounted).
  split.
  { destruct (rerender_settled w (dispatch ClickRouteToggle w) S eq_refl eq_refl)
      as (V & M & _).
    unfold t, step. rewrite V, M. unfold dispatch. world. now rewrite Pn. }
  set (w1 := clearRouteLayersFromMap (view w) (put setShowRoutePanel false w)).
  assert (D : dispatch ClickCloseRoutePanel w = put setRouteResults [] w1).
  { unfold dispatch. now rewrite Pn. }
  destruct (clearRouteLayersFromMap_view (view w) (put setShowRoutePanel false w))
    as (C1 & C2 & C3 & C4 & C5 & C6 & C7 & C8 & C9 & C10 & C11).
  destruct (clearRouteLayersFromMap_world (view w) (put setShowRoutePanel false w))
    as (_ & L & _ & Mk & Ls & _ & _ & _ & _ & EM & _).
  fold w1 in C1, C2, C3, C4, C5, C6, C7, C8, C9, C10, C11, L, Mk, Ls, EM.
  assert (M1 : onTheMap routeLayers (put setRouteResults [] w1) = []
               /\ onTheMap markers (put setRouteResults [] w1) = onTheMap markers w
               /\ onTheMap listeners (put setRouteResults [] w1) = onTheMap listeners w).
  { unfold onTheMap in *. world. now rewrite L, Mk, Ls. }
  destruct M1 as (L' & Mk' & Ls').
  clearbody w1.
  assert (CM : clickMode (view (put setRouteResults [] w1)) = clickMode (view w))
    by (world; cbn; now rewrite C7).
  destruct (rerender_settled w (put setRouteResults [] w1) S) as (V & M & _);
    [now world|exact CM|].
  assert (OM : forall A (what : MapboxMap -> list A),
             onTheMap what (rerender (put setRouteResults [] w1))
             = onTheMap what (put setRouteResults [] w1))
    by (intros; unfold onTheMap; now rewrite M).
  unfold c, step. rewrite D, !OM, V, L', Mk', Ls'. world. cbn.
  rewrite C2, C3, C4, C7, C8, C9, C10, C11. now repeat split.
Qed.

Lemma closing_the_route_panel_witness :
  let w := run [ClickRouteToggle; ClickSetEnd] (mounted (Some ([], []))) in
  showRoutePanel (view w) = true
  /\ showRoutePanel (view (step w ClickCloseRoutePanel)) = false
  /\ clickMode (view (step w ClickCloseRoutePanel)) = ModeEnd
  /\ length (onTheMap listeners (step w ClickCloseRoutePanel)) = 1%nat.
Proof.
  intros w.
  assert (Pn : showRoutePanel (view w) = true) by (vm_compute; reflexivity).
  destruct (closing_the_route_panel (Some ([], [])) [ClickRouteToggle; ClickSetEnd] Pn)
    as (_ & (A & _) & (B & C & _) & _).
  split; [exact Pn|]. split; [exact A|]. split; [exact B|].
  fold w in C. rewrite C. vm_compute. reflexivity.
Defined.

Lemma reachable_overlaid (style : option (list Layer * list (string * Source)))
      (evs : list Event) :
  plain style -> overlaid (run evs (mounted style)).
Proof. intros H. now apply overlaid_run, overlaid_mounted. Qed.

Lemma overlaid_onTheMap (w : World) :
  overlaid w ->
  map id (onTheMap routeLayers w) = activeRouteHandlers (view w)
  /\ map fst (onTheMap routeSources w) = map source (onTheMap routeLayers w)
  /\ (forall l, In l (onTheMap layers w) ->
                isRouteSourceId (source l) = true -> isRouteLayer l = true).
Proof.
  unfold overlaid, onTheMap. destruct (map_current w) as [m|].
  - intros (Ok & ds & -> & -> & ->). rewrite !map_map. split; [reflexivity|].
    split; [reflexivity|].
    intros l Hl Hs. unfold styleOk in Ok. rewrite forallb_forall in Ok.
    specialize (Ok l Hl). rewrite Hs in Ok. exact Ok.
  - intros ->. split; [reflexivity|]. split; [reflexivity|]. intros l [].
Qed.

Lemma tracked_on_the_map (w : World) (m : MapboxMap) :
  overlaid w -> map_current w = Some m ->
  filter (fun i => Mapbox.getLayer i m) (activeRouteHandlers (view w))
  = activeRouteHandlers (view w).
Proof.
  intros O E. destruct (overlaid_onTheMap w O) as (T & _). unfold onTheMap in T.
  rewrite E in T. rewrite <- T. apply filter_all. intros i Hi.
  apply in_map_iff in Hi as (l & <- & Hl). unfold routeLayers in Hl.
  apply filter_In in Hl as [Hl _]. unfold Mapbox.getLayer.
  apply existsb_exists. exists l. split; [exact Hl|apply String.eqb_refl].
Qed.

(** X16. The Escape key removes the route layers and sources without
    any [off] call for the handlers delegated to the layers: the key
    handler is the one of the first render, for which no layer is
    tracked.  The clear button of the route panel, in any reachable
    state, first makes the [off] calls for click, mouseenter and
    mouseleave of every tracked layer and then removes layers and
    sources. *)
Theorem escape_detaches_no_layer_handler
        (style : option (list Layer * list (string * Source))) (evs : list Event) :
  plain style ->
  let w := run evs (mounted style) in
  (exists removedLayers removedSources,
      onTheMap calls (dispatch (KeyDown "Escape") w)
      = onTheMap calls w ++ removedLayers ++ removedSources
      /\ Forall isRemoveLayerCall removedLayers
      /\ Forall isRemoveSourceCall removedSources)
  /\ (showRoutePanel (view w) = true ->
      exists removedLayers removedSources,
        onTheMap calls (dispatch ClickClear w)
        = onTheMap calls w
          ++ flat_map detachCalls (activeRouteHandlers (view w))
          ++ removedLayers ++ removedSources
        /\ Forall isRemoveLayerCall removedLayers
        /\ Forall isRemoveSourceCall removedSources).
Proof.
  intros Pl w.
  assert (O : overlaid w) by now apply reachable_overlaid.
  split.
  - change (dispatch (KeyDown "Escape") w) with (handleKeyDown initialView "Escape" w).
    rewrite handleKeyDown_Escape.
    set (w0 := put setShowRoutePanel false (put setShowInfoPanel false w)).
    destruct (map_current w) as [m|] eqn:E.
    + destruct (clearRouteLayersFromMap_some initialView w0 m)
        as (m' & -> & _ & _ & _ & _ & _ & _ & rl & rs & C & Rl & Rs);
        [unfold w0; now world|].
      exists rl, rs. unfold onTheMap. world. rewrite E.
      split; [exact C|now split].
    + rewrite clearRouteLayersFromMap_none by (unfold w0; now world).
      exists [], []. unfold onTheMap, w0. world. rewrite E. now repeat split.
  - intros Pn. unfold dispatch. rewrite Pn. unfold onClickClear. cbv zeta.
    set (w1 := clearLocationMarkers (view w) w).
    destruct (map_current w) as [m|] eqn:E.
    + assert (E1 : exists m1, map_current w1 = Some m1
                              /\ layers m1 = layers m /\ calls m1 = calls m).
      { unfold w1, clearLocationMarkers, markerRemove. cbv zeta.
        destruct (startMarker (view w)), (endMarker (view w)); world; rewrite E;
          eexists; (split; [reflexivity|]); split; reflexivity. }
      destruct E1 as (m1 & E1 & L1 & C1).
      destruct (clearRouteLayersFromMap_some (view w) w1 m1 E1)
        as (m' & -> & _ & _ & _ & _ & _ & _ & rl & rs & C & Rl & Rs).
      exists rl, rs. unfold onTheMap. world. rewrite E.
      split; [|now split]. rewrite C, C1.
      replace (filter (fun i => Mapbox.getLayer i m1) (activeRouteHandlers (view w)))
        with (activeRouteHandlers (view w)); [reflexivity|].
      rewrite <- (tracked_on_the_map w m O E) at 1.
      apply filter_ext. intros i. symmetry. now apply getLayer_layers.
    + assert (E1 : map_current w1 = None).
      { unfold w1, clearLocationMarkers, markerRemove. cbv zeta.
        destruct (startMarker (view w)), (endMarker (view w)); world; now rewrite E. }
      rewrite clearRouteLayersFromMap_none by exact E1.
      exists [], []. unfold onTheMap. world. rewrite E1, E.
      unfold overlaid in O. rewrite E in O. rewrite O. now repeat split.
Qed.

Lemma escape_detaches_no_layer_handler_witness :
  let w := run [ClickRouteToggle; ChangeStart "A"; ChangeEnd "B"; ClickFindRoutes;
                FetchSettles (FetchResponse true (Some [sampleRoute]))]
               (mounted (Some ([], []))) in
  plain (Some ([], []))
  /\ showRoutePanel (view w) = true
  /\ activeRouteHandlers (view w) = ["route-layer-0"]
  /\ exists removedLayers removedSources,
       onTheMap calls (dispatch ClickClear w)
       = onTheMap calls w ++ detachCalls "route-layer-0"
         ++ removedLayers ++ removedSources.
Proof.
  intros w.
  assert (Pl : plain (Some ([], []))) by reflexivity.
  assert (Pn : showRoutePanel (view w) = true) by (vm_compute; reflexivity).
  destruct (escape_detaches_no_layer_handler
              (Some ([], []))
              [ClickRouteToggle; ChangeStart "A"; ChangeEnd "B"; ClickFindRoutes;
               FetchSettles (FetchResponse true (Some [sampleRoute]))] Pl)
    as (_ & H).
  destruct (H Pn) as (rl & rs & C & _).
  split; [exact Pl|]. split; [exact Pn|]. split; [vm_compute; reflexivity|].
  exists rl, rs. exact C.
Defined.

Lemma cleared_layers (w : World) (ev : Event) :
  match ev with
  | KeyDown key => key = "Escape"
  | ClickClear | ClickCloseRoutePanel => showRoutePanel (view w) = true
  | _ => False
  end ->
  onTheMap routeLayers (step w ev) = [].
Proof.
  intros H. unfold step. rewrite routeLayers_onTheMap.
  destruct (rerender_map (dispatch ev w)) as (R & _). rewrite R, <- routeLayers_onTheMap.
  destruct ev; try contradiction.
  - unfold dispatch. rewrite H. unfold onClickClear. cbv zeta.
    destruct (clearRouteLayersFromMap_world (view w) (clearLocationMarkers (view w) w))
      as (_ & L & _).
    unfold onTheMap in *. now world.
  - unfold dispatch. rewrite H. unfold onClickCloseRoutePanel. cbv zeta.
    destruct (clearRouteLayersFromMap_world (view w) (put setShowRoutePanel false w))
      as (_ & L & _).
    unfold onTheMap in *. now world.
  - subst key.
    change (dispatch (KeyDown "Escape") w) with (handleKeyDown initialView "Escape" w).
    rewrite handleKeyDown_Escape.
    destruct (clearRouteLayersFromMap_world
                initialView (put setShowRoutePanel false (put setShowInfoPanel false w)))
      as (_ & L & _).
    unfold onTheMap in *. now world.
Qed.

(** X17. When the base style uses no route name, then in every state the
    component can reach the layer ids the state tracks are exactly the
    ids of the route layers on the map, in order; every route layer
    draws from the route source at the same position and no other layer
    draws from a route source.  Hence Escape, the clear button and the
    close button of the panel each leave the map without any route layer
    and without any route source, and the state without a tracked id. *)
Theorem route_overlays_stay_consistent
        (style : option (list Layer * list (string * Source))) (evs : list Event) :
  plain style ->
  let w := run evs (mounted style) in
  map id (onTheMap routeLayers w) = activeRouteHandlers (view w)
  /\ map fst (onTheMap routeSources w) = map source (onTheMap routeLayers w)
  /\ (forall l, In l (onTheMap layers w) ->
                isRouteSourceId (source l) = true -> isRouteLayer l = true)
  /\ (forall ev,
         match ev with
         | KeyDown key => key = "Escape"
         | ClickClear | ClickCloseRoutePanel => showRoutePanel (view w) = true
         | _ => False
         end ->
         onTheMap routeLayers (step w ev) = []
         /\ onTheMap routeSources (step w ev) = []
         /\ activeRouteHandlers (view (step w ev)) = []).
Proof.
  intros Pl w.
  assert (O : overlaid w) by now apply reachable_overlaid.
  destruct (overlaid_onTheMap w O) as (A & B & C).
  split; [exact A|]. split; [exact B|]. split; [exact C|].
  intros ev H.
  assert (O' : overlaid (step w ev)) by now apply overlaid_step.
  destruct (overlaid_onTheMap _ O') as (A' & B' & _).
  pose proof (cleared_layers w ev H) as L. rewrite L in A', B'. simpl in A', B'.
  split; [exact L|]. split; [|now symmetry].
  now apply map_eq_nil in B'.
Qed.

Lemma route_overlays_stay_consistent_witness :
  let w := run [ClickRouteToggle; ChangeStart "A"; ChangeEnd "B"; ClickFindRoutes;
                FetchSettles (FetchResponse true (Some [sampleRoute; sampleRoute]))]
               (mounted (Some ([], []))) in
  plain (Some ([], []))
  /\ activeRouteHandlers (view w) = ["route-layer-0"; "route-layer-1"]
  /\ map id (onTheMap routeLayers w) = ["route-layer-0"; "route-layer-1"]
  /\ map fst (onTheMap routeSources w) = ["route-0"; "route-1"]
  /\ onTheMap routeSources (step w (KeyDown "Escape")) = [].
Proof.
  intros w.
  assert (Pl : plain (Some ([], []))) by reflexivity.
  destruct (route_overlays_stay_consistent
              (Some ([], []))
              [ClickRouteToggle; ChangeStart "A"; ChangeEnd "B"; ClickFindRoutes;
               FetchSettles (FetchResponse true (Some [sampleRoute; sampleRoute]))] Pl)
    as (A & B & _ & H).
  fold w in A, B, H.
  assert (T : activeRouteHandlers (view w) = ["route-layer-0"; "route-layer-1"])
    by (vm_compute; reflexivity).
  split; [exact Pl|]. split; [exact T|]. split; [now rewrite A|].
  split; [rewrite B; vm_compute; reflexivity|].
  now destruct (H (KeyDown "Escape") eq_refl) as (_ & S & _).
Defined.

Lemma validPrefix_all (ds : list MarkerData) :
  forallb validRecord ds = true -> validPrefix ds = ds.
Proof.
  induction ds as [|d ds IH]; simpl; [reflexivity|].
  intros H. apply andb_true_iff in H as [-> H]. now rewrite IH.
Qed.

Lemma validPrefix_stops (good : list MarkerData) (bad : MarkerData) (rest : list MarkerData) :
  forallb validRecord good = true -> validRecord bad = false ->
  validPrefix (good ++ bad :: rest) = good
  /\ forallb validRecord (good ++ bad :: rest) = false.
Proof.
  intros G B. induction good as [|d good IH]; simpl.
  - now rewrite B.
  - simpl in G. apply andb_true_iff in G as [-> G].
    destruct (IH G) as [-> ->]. now split.
Qed.

(** X18. When the saved markers arrive and there is a map, [loadMarkers]
    puts one marker per record on it, after those already there and in
    the order of the response, each at the record's longitude and
    latitude, in its colour and with its title (and description, if any)
    as popup - as long as the latitudes lie within [-90, 90].  At the
    first record whose latitude does not, the engine throws: the records
    before it are on the map, that record and all after it are not, and
    a warning is logged.  Without a map nothing happens.  A response that
    is not ok adds nothing and logs nothing; a failed fetch or an
    unreadable body adds nothing and logs the warning.  The route
    planning state, the layers, the sources, the picking listeners and
    the call trace are never touched. *)
Theorem loadMarkers_shows_saved_markers (w : World) :
  (forall ds,
      forallb validRecord ds = true ->
      let w' := loadMarkers (MarkersResponse true (Some ds)) w in
      onTheMap markers w'
      = onTheMap markers w
        ++ match map_current w with
           | Some m => savedMarkers (markerCount m) ds
           | None => []
           end
      /\ console w' = console w)
  /\ (forall good bad rest m,
        map_current w = Some m ->
        forallb validRecord good = true ->
        validRecord bad = false ->
        let w' := loadMarkers (MarkersResponse true (Some (good ++ bad :: rest))) w in
        onTheMap markers w' = markers m ++ savedMarkers (markerCount m) good
        /\ console w' = console w ++ ["Failed to load markers:"])
  /\ (forall ds, map_current w = None -> loadMarkers (MarkersResponse true (Some ds)) w = w)
  /\ (forall body, loadMarkers (MarkersResponse false body) w = w)
  /\ loadMarkers MarkersRejected w = consoleLog "Failed to load markers:" w
  /\ loadMarkers (MarkersResponse true None) w = consoleLog "Failed to load markers:" w
  /\ (forall n ds,
        map lngLat (savedMarkers n ds)
        = map (fun d => {| lng := longitude d; lat := latitude d |}) ds
        /\ map color (savedMarkers n ds) = map savedColor ds
        /\ map popupHTML (savedMarkers n ds) = map savedPopup ds)
  /\ (forall res,
        let w' := loadMarkers res w in
        view w' = view w
        /\ onTheMap layers w' = onTheMap layers w
        /\ onTheMap sources w' = onTheMap sources w
        /\ onTheMap listeners w' = onTheMap listeners w
        /\ onTheMap calls w' = onTheMap calls w).
Proof.
  assert (Sh : forall ds,
             onTheMap markers (shown ds w)
             = onTheMap markers w
               ++ match map_current w with
                  | Some m => savedMarkers (markerCount m) ds
                  | None => []
                  end
             /\ console (shown ds w) = console w
             /\ view (shown ds w) = view w
             /\ onTheMap layers (shown ds w) = onTheMap layers w
             /\ onTheMap sources (shown ds w) = onTheMap sources w
             /\ onTheMap listeners (shown ds w) = onTheMap listeners w
             /\ onTheMap calls (shown ds w) = onTheMap calls w).
  { intros ds. unfold shown, onMap, onTheMap.
    destruct (map_current w) as [m|] eqn:E; world; rewrite ?E, ?app_nil_r;
      now repeat split. }
  split; [|split; [|split; [|split; [|split; [|split; [|split]]]]]].
  - intros ds V. cbv zeta. rewrite loadMarkers_spec. cbn [warns loaded].
    rewrite V, (validPrefix_all ds V). cbn [negb].
    destruct (Sh ds) as (M & C & _).
    now destruct (map_current w).
  - intros good bad rest m E G B. cbv zeta. rewrite loadMarkers_spec. cbn [warns loaded].
    destruct (validPrefix_stops good bad rest G B) as [-> ->]. rewrite E. cbn [negb].
    destruct (Sh good) as (M & C & _). rewrite E in M.
    unfold onTheMap at 2 in M. rewrite E in M.
    split.
    + unfold onTheMap in *. exact M.
    + world. now rewrite C.
  - intros ds E. rewrite loadMarkers_spec. cbn [warns]. rewrite E.
    unfold shown, onMap. now rewrite E.
  - now intros [ds|].
  - reflexivity.
  - reflexivity.
  - intros n ds. revert n.
    induction ds as [|d ds IH]; intros n; simpl; [now repeat split|].
    destruct (IH (S n)) as (-> & -> & ->). now repeat split.
  - intros res. cbv zeta. rewrite loadMarkers_spec.
    destruct (Sh (loaded res)) as (_ & _ & V & L & S & H & C).
    destruct (warns res w); [|now repeat split].
    unfold onTheMap in *. world. now repeat split.
Qed.

Lemma camera_detachCalls (ids : list string) :
  filter isCameraCall (flat_map detachCalls ids) = [].
Proof. induction ids as [|i ids IH]; simpl; [reflexivity|exact IH]. Qed.


Lemma camera_removeLayerCalls (cs : list Call) :
  Forall isRemoveLayerCall cs -> filter isCameraCall cs = [].
Proof.
  induction 1 as [|c cs H _ IH]; simpl; [reflexivity|].
  destruct c; try contradiction. exact IH.
Qed.

Lemma camera_removeSourceCalls (cs : list Call) :
  Forall isRemoveSourceCall cs -> filter isCameraCall cs = [].
Proof.
  induction 1 as [|c cs H _ IH]; simpl; [reflexivity|].
  destruct c; try contradiction. exact IH.
Qed.



(** ** What PUT accepts *)

Section UpdateValidation.
Import Server.
Import Crud.

Variable realRange : Q -> bool.
Variable store : ColumnKind -> Json -> option Json.

Lemma accepts_partial (f : ZodField) (v : Json) :
  accepts realRange {| ztype := ztype f; optional := true; nullable := nullable f |} v
  = accepts realRange f v.
Proof. reflexivity. Qed.

Lemma parseMembers_partial (s : Schema) (members data : list (string * Json)) :
  parseMembers realRange s members = Some data ->
  parseMembers realRange (partial s) members = Some data.
Proof.
  revert data. induction s as [|[k f] rest IH]; intros data H; simpl in *; [exact H|].
  destruct (member k members) as [v|].
  - rewrite accepts_partial. destruct (accepts realRange f v); [|discriminate].
    destruct (parseMembers realRange rest members) as [o|]; [|discriminate].
    now rewrite (IH o eq_refl).
  - destruct (optional f); [|discriminate]. now apply IH.
Qed.

Lemma parseMembers_partial_none (s : Schema) (members : list (string * Json)) :
  parseMembers realRange (partial s) members = None
  <-> exists k f v, In (k, f) s /\ member k members = Some v
                    /\ accepts realRange f v = false.
Proof.
  induction s as [|[k f] rest IH]; simpl.
  - split; [discriminate|]. intros (k & f & v & [] & _).
  - destruct (member k members) as [v|] eqn:M.
    + rewrite accepts_partial. destruct (accepts realRange f v) eqn:A.
      * destruct (parseMembers realRange (partial rest) members) as [o|] eqn:P; simpl.
        -- split; [discriminate|]. intros (k' & f' & v' & [E|Hin] & M' & A').
           ++ injection E as <- <-. congruence.
           ++ assert (N : Some o = None) by (apply IH; now exists k', f', v').
              discriminate.
        -- split; [|reflexivity]. intros _.
           destruct (proj1 IH eq_refl) as (k' & f' & v' & Hin & M' & A').
           exists k', f', v'. split; [now right|now split].
      * split; [|reflexivity]. intros _. exists k, f, v. split; [now left|now split].
    + rewrite IH. split.
      * intros (k' & f' & v' & Hin & M' & A'). exists k', f', v'.
        split; [now right|now split].
      * intros (k' & f' & v' & [E|Hin] & M' & A').
        -- injection E as <- <-. congruence.
        -- now exists k', f', v'.
Qed.

(** X20. PUT validates against the partial schema: every body POST
    accepts is accepted by PUT with the same data, and PUT answers 400
    exactly when the body is no object or has, under a key of the
    schema, a member the field does not accept (for the colour: a text
    of more than seven UTF-16 code units); missing members are never a
    reason. *)
Theorem put_validation_is_partial (i : string) (body : Json) (db : Db) :
  (forall data, parse realRange insertMarkerSchema body = Some data ->
                parse realRange (partial insertMarkerSchema) body = Some data)
  /\ (putApiMarker realRange store i body db = (AnswerError 400 "Invalid marker data", db)
      <-> match body with
          | JObj members =>
              exists k f v, In (k, f) insertMarkerSchema
                            /\ member k members = Some v
                            /\ accepts realRange f v = false
          | _ => True
          end).
Proof.
  split.
  - intros data. destruct body; try discriminate. apply parseMembers_partial.
  - unfold putApiMarker.
    destruct (parse realRange (partial insertMarkerSchema) body) as [data|] eqn:P.
    + split.
      * destruct (updateMarker_cases store i data db)
          as [[-> _]|[(values & _ & _ & _ & ->)|(values & old & _ & _ & _ & ->)]];
          discriminate.
      * destruct body; try discriminate. intros H.
        apply parseMembers_partial_none in H. unfold parse in P.
        rewrite H in P. discriminate.
    + split; [|reflexivity]. intros _. destruct body; trivial.
      now apply parseMembers_partial_none.
Qed.

End UpdateValidation.

(** The length of the colour is counted in code units, not in bytes:
    five accented letters pass, four characters beyond the basic plane
    do not. *)
Example colour_length_in_code_units :
  Js.length "ééééé" = 5%nat
  /\ Server.parse Server.anyNumber (Crud.partial Server.insertMarkerSchema)
                  (Server.JObj [("color", Server.JStr "ééééé")])
     = Some [("color", Server.JStr "ééééé")]
  /\ Js.length "😀😀😀😀" = 8%nat
  /\ Server.parse Server.anyNumber (Crud.partial Server.insertMarkerSchema)
                  (Server.JObj [("color", Server.JStr "😀😀😀😀")])
     = None.
Proof. repeat split; reflexivity. Qed.

(** ** The camera *)

Lemma cameraCalls_updView (f : View -> View) (w : World) :
  cameraCalls (updView f w) = cameraCalls w.
Proof. unfold cameraCalls, onTheMap. now world. Qed.

Lemma cameraCalls_consoleLog (s : string) (w : World) :
  cameraCalls (consoleLog s w) = cameraCalls w.
Proof. reflexivity. Qed.

Lemma cameraCalls_fetch (r : SearchRequest) (cap : View) (w : World) :
  cameraCalls (fetch r cap w) = cameraCalls w.
Proof. reflexivity. Qed.

Lemma cameraCalls_settle (w : World) : cameraCalls (settle w) = cameraCalls w.
Proof. reflexivity. Qed.

Lemma cameraCalls_setEffect (n : nat) (c : ClickMode) (h : Listener) (w : World) :
  cameraCalls (setEffect n c h w) = cameraCalls w.
Proof. reflexivity. Qed.

Lemma cameraCalls_setMap (m m' : MapboxMap) (w : World) :
  map_current w = Some m ->
  filter isCameraCall (calls m') = filter isCameraCall (calls m) ->
  cameraCalls (setMap (Some m') w) = cameraCalls w.
Proof. intros E H. unfold cameraCalls, onTheMap. world. now rewrite E. Qed.

Lemma cameraCalls_onMap (f : MapboxMap -> MapboxMap) (extra : list Call) (w : World) :
  (forall m, calls (f m) = calls m ++ extra) ->
  cameraCalls (onMap f w)
  = cameraCalls w ++ match map_current w with
                     | Some _ => filter isCameraCall extra
                     | None => []
                     end.
Proof.
  intros H. unfold cameraCalls, onTheMap. world.
  destruct (map_current w) as [m|]; simpl; [|reflexivity].
  now rewrite H, filter_app.
Qed.

Lemma cameraCalls_quietly (f : MapboxMap -> MapboxMap) (w : World) :
  (forall m, calls (f m) = calls m) -> cameraCalls (onMap f w) = cameraCalls w.
Proof.
  intros H. rewrite (cameraCalls_onMap f []).
  - destruct (map_current w); simpl; apply app_nil_r.
  - intros m. now rewrite H, app_nil_r.
Qed.

Ltac camera_frame :=
  repeat first
    [ rewrite cameraCalls_updView
    | rewrite cameraCalls_quietly by reflexivity
    | rewrite cameraCalls_consoleLog
    | rewrite cameraCalls_fetch
    | rewrite cameraCalls_settle
    | rewrite cameraCalls_setEffect
    | progress unfold put ].

Lemma cameraCalls_clearLocationMarkers (cap : View) (w : World) :
  cameraCalls (clearLocationMarkers cap w) = cameraCalls w.
Proof.
  unfold clearLocationMarkers, markerRemove.
  destruct (startMarker cap), (endMarker cap); cbv zeta; camera_frame; reflexivity.
Qed.

Lemma cameraCalls_clearRouteLayersFromMap (cap : View) (w : World) :
  cameraCalls (clearRouteLayersFromMap cap w) = cameraCalls w.
Proof.
  destruct (map_current w) as [m|] eqn:E.
  - destruct (clearRouteLayersFromMap_some cap w m E)
      as (m' & -> & _ & _ & _ & _ & _ & _ & rl & rs & C & Rl & Rs).
    rewrite (cameraCalls_setMap m m'); [now camera_frame|now world|].
    rewrite C, !filter_app, camera_detachCalls, (camera_removeLayerCalls _ Rl),
      (camera_removeSourceCalls _ Rs).
    now rewrite !app_nil_r.
  - now rewrite clearRouteLayersFromMap_none.
Qed.

Lemma cameraCalls_displayRoute (w : World) (entry : nat * Route) :
  cameraCalls (displayRoute w entry) = cameraCalls w.
Proof.
  destruct entry as [i r]. unfold displayRoute.
  destruct (drawable r) as [g|]; [|reflexivity].
  destruct (map_current w) as [m|] eqn:E; [|reflexivity].
  cbv zeta.
  destruct (negb (Mapbox.getSource (sourceIdOf i) m));
    match goal with |- context [if ?b then _ else _] => destruct b end;
    unfold cameraCalls, onTheMap; world; rewrite E; simpl;
    rewrite ?filter_app; simpl; now rewrite ?app_nil_r.
Qed.

Lemma cameraCalls_displayRoutesOnMap (cap : View) (routes : list Route) (w : World) :
  cameraCalls (displayRoutesOnMap cap routes w) = cameraCalls w.
Proof.
  unfold displayRoutesOnMap. destruct (map_current w); [|reflexivity].
  rewrite <- (cameraCalls_clearRouteLayersFromMap cap w).
  generalize (clearRouteLayersFromMap cap w). generalize (indexed routes).
  intros es. induction es as [|e es IH]; intros w0; simpl; [reflexivity|].
  now rewrite IH, cameraCalls_displayRoute.
Qed.

Lemma cameraCalls_handleLocationClick (cap : View) (c : LngLat) (w : World) :
  cameraCalls (handleLocationClick cap c w) = cameraCalls w.
Proof.
  destruct (map_current w) as [m|] eqn:E.
  - destruct (clickMode cap) eqn:M.
    + unfold handleLocationClick. now rewrite M.
    + destruct (handleLocationClick_pick StartPoint cap c w m E M)
        as (m' & -> & _ & _ & _ & _ & _ & C).
      rewrite (cameraCalls_setMap m m'); [now camera_frame|now world|now rewrite C].
    + destruct (handleLocationClick_pick EndPoint cap c w m E M)
        as (m' & -> & _ & _ & _ & _ & _ & C).
      rewrite (cameraCalls_setMap m m'); [now camera_frame|now world|now rewrite C].
  - unfold handleLocationClick, addStartMarker, addEndMarker.
    destruct (clickMode cap); world; rewrite ?E; now camera_frame.
Qed.

Lemma cameraCalls_clicks (c : LngLat) (hs : list Listener) (w : World) :
  cameraCalls (fold_left (fun w h => handleLocationClick (captured h) c w) hs w)
  = cameraCalls w.
Proof.
  revert w. induction hs as [|h hs IH]; intros w; simpl; [reflexivity|].
  now rewrite IH, cameraCalls_handleLocationClick.
Qed.

Lemma cameraCalls_loadMarkers (res : MarkersResult) (w : World) :
  cameraCalls (loadMarkers res w) = cameraCalls w.
Proof.
  rewrite loadMarkers_spec. unfold shown. destruct (warns res w); now camera_frame.
Qed.

Lemma cameraCalls_searchBusRoutes_begin (cap : View) (w : World) :
  cameraCalls (searchBusRoutes_begin cap w) = cameraCalls w.
Proof.
  unfold searchBusRoutes_begin.
  match goal with |- context [if ?b then _ else _] => destruct b end;
    cbv zeta; now camera_frame.
Qed.

Lemma cameraCalls_rerender (w : World) : cameraCalls (rerender w) = cameraCalls w.
Proof.
  unfold rerender.
  destruct (ClickMode_eqb (clickMode (view w)) (effectMode w)); camera_frame;
    [reflexivity|].
  unfold clickModeEffect, clickModeCleanup.
  rewrite map_current_onMap.
  destruct (map_current w) as [m|] eqn:E; cbn [option_map]; cbv zeta.
  - unfold cameraCalls, onTheMap. world. rewrite E. cbn [option_map].
    match goal with |- context [if ?b then _ else _] => destruct b end; simpl;
      rewrite ?filter_app; simpl; now rewrite ?app_nil_r.
  - unfold onMap. now rewrite E.
Qed.

Lemma Quiet_presence {A} (w w' : World) (x : list A) :
  Quiet w w' ->
  match map_current w' with Some _ => x | None => [] end
  = match map_current w with Some _ => x | None => [] end.
Proof.
  intros (_ & _ & _ & Q).
  destruct (map_current w), (map_current w'); try contradiction; reflexivity.
Qed.

(** X21. The camera moves only when asked to.  After any event, the
    camera calls made on the map are those made before, followed by at
    most one new call: a flight to the initial view (centre -0.6337,
    35.6976, zoom 12) for the reset button and the R key, a flight to the
    reported position at zoom 15 for a position fix, and a fit to the
    bounds of the first route for an awaited answer with routes whose
    first route has bounds.  Picking, clearing, typing, Escape, the other
    keys, loading markers and failed searches never move it, and without
    a map nothing does. *)
Theorem camera_moves_only_on_request (w : World) (ev : Event) :
  cameraCalls (step w ev) = cameraCalls w ++ cameraOf ev w.
Proof.
  unfold step. rewrite cameraCalls_rerender.
  assert (N : cameraOf ev w = [] -> cameraCalls (dispatch ev w) = cameraCalls w ->
              cameraCalls (dispatch ev w) = cameraCalls w ++ cameraOf ev w).
  { intros -> ->. now rewrite app_nil_r. }
  destruct ev as [| | |v|v| |res| | |c|key| | | |p|res];
    try (apply N; [unfold cameraOf; now destruct (map_current w)|];
         unfold dispatch; cbv zeta;
         unfold onClickSetStart, onClickSetEnd, onClickClear, onClickCloseRoutePanel;
         try destruct (showRoutePanel (view w));
         try destruct (showInfoPanel (view w));
         try match goal with |- context [if ?b then _ else _] => destruct b end;
         cbv zeta;
         repeat first [ rewrite cameraCalls_clearRouteLayersFromMap
                      | rewrite cameraCalls_clearLocationMarkers
                      | rewrite cameraCalls_searchBusRoutes_begin
                      | rewrite cameraCalls_loadMarkers
                      | progress camera_frame ];
         reflexivity).
  - (* the answer *)
    unfold dispatch, cameraOf.
    destruct (pending w) as [cap|]; [|destruct (map_current w), res as [|[|] [[|? ?]|]];
                                      now rewrite app_nil_r].
    unfold searchBusRoutes_resume. cbv zeta. camera_frame.
    destruct res as [|[|] [[|first rest]|]]; camera_frame;
      try (destruct (map_current w); now rewrite app_nil_r).
    destruct (bounds first) as [b|].
    + rewrite (cameraCalls_onMap (Mapbox.fitBounds b) [CallFitBounds b]) by reflexivity.
      rewrite cameraCalls_displayRoutesOnMap. camera_frame. f_equal.
      rewrite (Quiet_presence (updView (fun v => setRouteResults v (first :: rest)) w));
        [|apply Quiet_displayRoutesOnMap].
      rewrite map_current_updView. now destruct (map_current w).
    + rewrite cameraCalls_displayRoutesOnMap. camera_frame.
      destruct (map_current w); now rewrite app_nil_r.
  - (* a click on the map *)
    apply N; [unfold cameraOf; now destruct (map_current w)|].
    unfold dispatch. destruct (map_current w); [apply cameraCalls_clicks|reflexivity].
  - (* a key *)
    unfold dispatch, handleKeyDown, resetView, cameraOf. cbv zeta.
    set (w1 := if String.eqb key "Escape" then _ else w).
    assert (C1 : cameraCalls w1 = cameraCalls w /\ Quiet w w1).
    { unfold w1. destruct (String.eqb key "Escape"); [|split; [reflexivity|apply Quiet_refl]].
      split.
      - camera_frame. rewrite cameraCalls_clearRouteLayersFromMap. now camera_frame.
      - quiet_basic. quiet_step Quiet_clearRouteLayersFromMap. quiet_basic. }
    destruct C1 as [C1 Q1]. clearbody w1.
    set (fly := [CallFlyTo {| lng := - (6337 # 10000); lat := 356976 # 10000 |} 12]).
    destruct (String.eqb key "i" || String.eqb key "I");
      destruct (String.eqb key "b" || String.eqb key "B");
      destruct (String.eqb key "r" || String.eqb key "R");
      rewrite ?(cameraCalls_onMap _ fly) by reflexivity;
      camera_frame; rewrite ?map_current_updView, C1;
      try (rewrite (Quiet_presence w w1 _ Q1));
      destruct (map_current w); try reflexivity; now rewrite app_nil_r.
  - (* the reset button *)
    unfold dispatch, resetView, cameraOf.
    rewrite (cameraCalls_onMap _ [CallFlyTo {| lng := - (6337 # 10000);
                                              lat := 356976 # 10000 |} 12])
      by reflexivity.
    now destruct (map_current w).
  - (* a position fix *)
    unfold dispatch, geolocated, cameraOf.
    rewrite (cameraCalls_onMap _ [CallFlyTo {| lng := lng p; lat := lat p |} 15])
      by reflexivity.
    now destruct (map_current w).
Qed.

(** * Further properties: the handlers of route layers *)

Lemma registered_app (a b : list Call) : registered (a ++ b) = registered a ++ registered b.
Proof. apply flat_map_app. Qed.

Lemma keepsHandlers_refl (m : MapboxMap) : keepsHandlers m m.
Proof. exists []. now rewrite !app_nil_r. Qed.

Lemma keepsHandlers_trans (a b c : MapboxMap) :
  keepsHandlers a b -> keepsHandlers b c -> keepsHandlers a c.
Proof.
  intros (x & C1 & H1) (y & C2 & H2). exists (x ++ y).
  rewrite C2, C1, H2, H1, registered_app, <- !app_assoc. now split.
Qed.

Lemma keepsHandlers_same (m m' : MapboxMap) :
  calls m' = calls m -> layerHandlers m' = layerHandlers m -> keepsHandlers m m'.
Proof. intros C H. exists []. now rewrite !app_nil_r. Qed.

Lemma keepsHandlers_log (c : Call) (m m' : MapboxMap) :
  calls m' = calls m -> layerHandlers m' = layerHandlers m ->
  registered [c] = [] ->
  keepsHandlers m (Mapbox.log c m').
Proof.
  intros C H R. exists [c]. rewrite R, app_nil_r. simpl. now rewrite C, H.
Qed.

Lemma keepsHandlers_fold {A} (f : MapboxMap -> A -> MapboxMap) (l : list A) (m : MapboxMap) :
  (forall m x, keepsHandlers m (f m x)) -> keepsHandlers m (fold_left f l m).
Proof.
  intros H. revert m. induction l as [|x l IH]; intros m; simpl; [apply keepsHandlers_refl|].
  eapply keepsHandlers_trans; [apply H|apply IH].
Qed.

Lemma keepsHandlers_offLayer (ev : MapEvent) (i : string) (m : MapboxMap) :
  keepsHandlers m (Mapbox.offLayer ev i m).
Proof. now apply keepsHandlers_log. Qed.

Lemma keepsHandlers_detach (tracked : list string) (m : MapboxMap) :
  keepsHandlers m (detachRouteHandlers tracked m).
Proof.
  apply keepsHandlers_fold. clear. intros m i. unfold detachHandlersOf.
  destruct (Mapbox.getLayer i m); [|apply keepsHandlers_refl].
  eapply keepsHandlers_trans; [|apply keepsHandlers_offLayer].
  eapply keepsHandlers_trans; apply keepsHandlers_offLayer.
Qed.

Lemma keepsHandlers_removeLayers (ls : list Layer) (m : MapboxMap) :
  keepsHandlers m (removeRouteLayers ls m).
Proof.
  apply keepsHandlers_fold. clear. intros m l. unfold removeIfRouteLayer.
  destruct (_ && _); [|apply keepsHandlers_refl].
  destruct (Mapbox.getLayer (id l) m); [|apply keepsHandlers_refl].
  now apply keepsHandlers_log.
Qed.

Lemma keepsHandlers_removeSources (ss : list string) (m : MapboxMap) :
  keepsHandlers m (removeRouteSources ss m).
Proof.
  apply keepsHandlers_fold. clear. intros m i. unfold removeIfRouteSource.
  destruct (Js.startsWith i "route-"); [|apply keepsHandlers_refl].
  destruct (Mapbox.getSource i m); [|apply keepsHandlers_refl].
  unfold Mapbox.removeSource.
  destruct (existsb _ (layers m)); now apply keepsHandlers_log.
Qed.

Lemma keepsHandlers_onLayer (ev : MapEvent) (i : string) (m : MapboxMap) :
  keepsHandlers m (Mapbox.onLayer ev i m).
Proof. exists [CallOnLayer ev i]. now split. Qed.

Lemma keeps_refl (w : World) : keeps w w.
Proof. unfold keeps. destruct (map_current w); [apply keepsHandlers_refl|exact I]. Qed.

Lemma keeps_trans (a b c : World) : keeps a b -> keeps b c -> keeps a c.
Proof.
  unfold keeps.
  destruct (map_current a), (map_current b), (map_current c); try tauto.
  apply keepsHandlers_trans.
Qed.

Lemma keeps_clearRouteLayersFromMap (cap : View) (w : World) :
  keeps w (clearRouteLayersFromMap cap w).
Proof.
  unfold clearRouteLayersFromMap, keeps.
  destruct (map_current w) as [m|] eqn:E; [|now rewrite E].
  cbv zeta. world.
  eapply keepsHandlers_trans; [apply keepsHandlers_detach|].
  eapply keepsHandlers_trans; [apply keepsHandlers_removeLayers|].
  apply keepsHandlers_removeSources.
Qed.

Lemma keeps_displayRoute (w : World) (entry : nat * Route) : keeps w (displayRoute w entry).
Proof.
  destruct entry as [i r]. unfold displayRoute.
  destruct (drawable r) as [g|]; [|apply keeps_refl].
  unfold keeps. destruct (map_current w) as [m|] eqn:E; [|now rewrite E].
  set (m1 := if negb (Mapbox.getSource (sourceIdOf i) m)
             then Mapbox.addSource (sourceIdOf i) (sourceOf i r g) m else m).
  assert (K1 : keepsHandlers m m1).
  { subst m1. destruct (negb _); [|apply keepsHandlers_refl].
    now apply keepsHandlers_log. }
  cbv zeta. fold m1. destruct (negb (Mapbox.getLayer (layerIdOf i) m1)); world.
  - eapply keepsHandlers_trans; [exact K1|].
    eapply keepsHandlers_trans; [|apply keepsHandlers_onLayer].
    eapply keepsHandlers_trans; [|apply keepsHandlers_onLayer].
    eapply keepsHandlers_trans; [|apply keepsHandlers_onLayer].
    now apply keepsHandlers_log.
  - exact K1.
Qed.

Lemma keeps_displayRoutes (entries : list (nat * Route)) (w : World) :
  keeps w (fold_left displayRoute entries w).
Proof.
  revert w. induction entries as [|e l IH]; intros w; simpl; [apply keeps_refl|].
  eapply keeps_trans; [apply keeps_displayRoute|apply IH].
Qed.

Lemma keeps_displayRoutesOnMap (cap : View) (routes : list Route) (w : World) :
  keeps w (displayRoutesOnMap cap routes w).
Proof.
  unfold displayRoutesOnMap. destruct (map_current w) eqn:E; [|apply keeps_refl].
  eapply keeps_trans; [apply keeps_clearRouteLayersFromMap|apply keeps_displayRoutes].
Qed.

Lemma registered_none (cs : list Call) :
  Forall (fun c => registered [c] = []) cs -> registered cs = [].
Proof.
  induction 1 as [|c cs H _ IH]; [reflexivity|].
  change (c :: cs) with ([c] ++ cs). now rewrite registered_app, H, IH.
Qed.

Lemma registered_detachCalls (ids : list string) : registered (flat_map detachCalls ids) = [].
Proof.
  induction ids as [|i ids IH]; [reflexivity|].
  cbn [flat_map]. now rewrite registered_app, IH.
Qed.

Lemma registered_removeLayerCalls (cs : list Call) :
  Forall isRemoveLayerCall cs -> registered cs = [].
Proof.
  intros F. apply registered_none. revert F. apply Forall_impl.
  now intros [].
Qed.

Lemma registered_removeSourceCalls (cs : list Call) :
  Forall isRemoveSourceCall cs -> registered cs = [].
Proof.
  intros F. apply registered_none. revert F. apply Forall_impl.
  now intros [].
Qed.

Lemma registered_addCalls (ds : list (nat * Route * Geometry)) :
  registered (flat_map addCalls ds) = flat_map handlersFor ds.
Proof.
  induction ds as [|d ds IH]; [reflexivity|].
  cbn [flat_map]. rewrite registered_app, IH. reflexivity.
Qed.

(** The delegated handlers after [displayRoutesOnMap]. *)
Lemma displayRoutesOnMap_handlers (cap : View) (routes : list Route) (w : World)
      (m : MapboxMap) :
  map_current w = Some m ->
  styleOk m = true ->
  onTheMap layerHandlers (displayRoutesOnMap cap routes w)
  = layerHandlers m ++ flat_map handlersFor (drawn routes).
Proof.
  intros E Ok. pose proof (keeps_displayRoutesOnMap cap routes w) as K.
  destruct (displayRoutesOnMap_some cap routes w m E Ok)
    as (m' & rl & rs & W & _ & _ & C & Pl & Ps & _).
  unfold keeps in K. unfold onTheMap. rewrite E, W in *. world. rewrite map_current_setMap in K.
  destruct K as (extra & C' & H). rewrite C in C'. apply app_inv_head in C'. subst extra.
  rewrite H, !registered_app, registered_detachCalls,
    (registered_removeLayerCalls _ Pl), (registered_removeSourceCalls _ Ps),
    registered_addCalls.
  reflexivity.
Qed.

(** X22. The calls [off(event, layerId)] of [clearRouteLayersFromMap]
    name no listener, so the engine drops none: clearing the route
    overlays leaves every handler delegated to a layer registered, and
    [displayRoutesOnMap] only ever adds the three handlers of each route
    it draws.  After [displayRoutesOnMap R1] and, in the next render,
    [displayRoutesOnMap R2], the handlers registered for the layers of
    [R1] are all still registered, before those of [R2], although no
    layer of [R1] is left. *)
Theorem route_layer_handlers_stay_registered
        (cap : View) (R1 R2 : list Route) (w : World) (m : MapboxMap) :
  map_current w = Some m ->
  styleOk m = true ->
  let w1 := displayRoutesOnMap cap R1 w in
  let w2 := displayRoutesOnMap (view w1) R2 w1 in
  (forall cap', onTheMap layerHandlers (clearRouteLayersFromMap cap' w) = layerHandlers m)
  /\ onTheMap layerHandlers w1 = layerHandlers m ++ flat_map handlersFor (drawn R1)
  /\ onTheMap layerHandlers w2
     = layerHandlers m ++ flat_map handlersFor (drawn R1) ++ flat_map handlersFor (drawn R2)
  /\ onTheMap routeLayers w2 = map layerFor (drawn R2).
Proof.
  intros E Ok w1 w2. split; [|split; [|split]].
  - intros cap'.
    pose proof (keeps_clearRouteLayersFromMap cap' w) as K.
    destruct (clearRouteLayersFromMap_some cap' w m E)
      as (m' & W & _ & _ & _ & _ & _ & _ & rl & rs & C & Pl & Ps).
    unfold keeps in K. unfold onTheMap. rewrite E, W in *. world.
    rewrite map_current_setMap in K.
    destruct K as (extra & C' & H). rewrite C in C'. apply app_inv_head in C'. subst extra.
    rewrite H, !registered_app, registered_detachCalls,
      (registered_removeLayerCalls _ Pl), (registered_removeSourceCalls _ Ps).
    now rewrite app_nil_r.
  - now apply displayRoutesOnMap_handlers.
  - destruct (displayRoutesOnMap_some cap R1 w m E Ok) as (m1 & rl1 & rs1 & W1 & L1 & S1 & _).
    assert (E1 : map_current w1 = Some m1) by (unfold w1; now rewrite W1).
    assert (Ok1 : styleOk m1 = true) by (eapply styleOk_redrawn; eassumption).
    assert (H1 : layerHandlers m1 = layerHandlers m ++ flat_map handlersFor (drawn R1)).
    { pose proof (displayRoutesOnMap_handlers cap R1 w m E Ok) as H.
      fold w1 in H. unfold onTheMap in H. now rewrite E1 in H. }
    unfold w2. rewrite (displayRoutesOnMap_handlers (view w1) R2 w1 m1 E1 Ok1), H1.
    now rewrite <- app_assoc.
  - destruct (displayRoutesOnMap_some cap R1 w m E Ok) as (m1 & rl1 & rs1 & W1 & L1 & S1 & _).
    assert (E1 : map_current w1 = Some m1) by (unfold w1; now rewrite W1).
    assert (Ok1 : styleOk m1 = true) by (eapply styleOk_redrawn; eassumption).
    destruct (displayRoutesOnMap_some (view w1) R2 w1 m1 E1 Ok1)
      as (m2 & rl2 & rs2 & W2 & L2 & _).
    unfold w2, onTheMap, routeLayers. rewrite W2. world. rewrite L2. apply redrawn_layers.
Qed.

Lemma route_layer_handlers_stay_registered_witness :
  let w := mount (Some baseMap) in
  let w1 := displayRoutesOnMap (view w) [sampleRoute; sampleRoute] w in
  let w2 := displayRoutesOnMap (view w1) [bareRoute; sampleRoute] w1 in
  map id (onTheMap routeLayers w2) = ["route-layer-1"]
  /\ onTheMap layerHandlers w2
     = [(click, "route-layer-0"); (mouseenter, "route-layer-0"); (mouseleave, "route-layer-0");
        (click, "route-layer-1"); (mouseenter, "route-layer-1"); (mouseleave, "route-layer-1");
        (click, "route-layer-1"); (mouseenter, "route-layer-1"); (mouseleave, "route-layer-1")].
Proof.
  intros w w1 w2.
  pose (m := match map_current w with Some m => m | None => baseMap end).
  assert (E : map_current w = Some m) by reflexivity.
  destruct (route_layer_handlers_stay_registered
              (view w) [sampleRoute; sampleRoute] [bareRoute; sampleRoute] w m E)
    as (_ & _ & H & L).
  - reflexivity.
  - fold w1 in H, L. fold w2 in H, L. split; [now rewrite L|]. now rewrite H.
Defined.
